(** * Taxonomy generator (formbricks hub, services/taxonomy-generator)

    A shallow embedding of the taxonomy pipeline of [src/service.py] and of
    the pieces of [src/clustering], [src/labeling], [src/db] and
    [src/models/schemas.py] it drives.

    Modelling choices:
    - Python floats (numpy float32/float64) are modelled as [Q]; the numeric
      kernels that need real arithmetic ([np.linalg.norm]) and the external
      algorithms (UMAP, HDBSCAN, OpenAI chat and embeddings, [np.argsort])
      are fields of the record [Env] of external collaborators.
    - Python exceptions are [Err msg]; an async function of the service is a
      state/error computation [M A] over the [World] (the Postgres tables,
      the uuid source and a trace of observable events: database writes and
      the structlog messages the development looks at). Writes done before
      an exception stay in the world: nothing is rolled back.
    - UUIDs are [nat]s drawn from a counter in the world; timestamps
      ([started_at], [completed_at]) are not modelled.
    - A Python [str] is a [string] with one character per code point, so
      [String.length] is [len] and [String.substring 0 n] is [s[:n]]; the
      model covers the strings whose code points are below 256.
    - The database statements themselves are taken to succeed: a lost
      connection or a failing statement is not modelled. The theorems that
      depend on a statement having run say so in their hypotheses. *)

From Stdlib Require Import QArith Qminmax Qabs.
From stdpp Require Import base gmap strings list sorting pretty.

Open Scope Z_scope.

(** ** Python exceptions *)

Inductive Exc (A : Type) : Type :=
| Ok (a : A)
| Err (e : string).
Arguments Ok {A} a.
Arguments Err {A} e.

Global Instance Exc_ret : MRet Exc := λ A a, Ok a.
Global Instance Q_inhabited : Inhabited Q := populate 0%Q.

Global Instance Exc_bind : MBind Exc := λ A B f m,
  match m with Ok a => f a | Err e => Err e end.

(** ** Python helpers *)

(** [x or d] for an optional int: [None] and [0] are falsy. *)
Definition py_or_int (o : option Z) (d : Z) : Z :=
  match o with Some v => if decide (v = 0) then d else v | None => d end.

(** [x or d] for an optional float: [None] and [0.0] are falsy. *)
Definition py_or_float (o : option Q) (d : Q) : Q :=
  match o with Some v => if Qeq_bool v 0 then d else v | None => d end.

(** [l[i]], raising [IndexError] out of range (indices are non-negative here). *)
Definition py_index {A} (l : list A) (i : nat) : Exc A :=
  match l !! i with Some x => Ok x | None => Err "IndexError: list index out of range" end.

(** numpy fancy indexing [a[idxs]] / [[l[i] for i in idxs]]. *)
Definition py_gather {A} (l : list A) (idxs : list nat) : Exc (list A) :=
  mapM (py_index l) idxs.

(** The slice [l[:n]]: a negative [n] counts from the end. *)
Definition py_slice_upto {A} (l : list A) (n : Z) : list A :=
  if decide (0 <= n) then take (Z.to_nat n) l
  else take (Z.to_nat (Z.of_nat (length l) + n)) l.

Definition py_len {A} (l : list A) : Z := Z.of_nat (length l).

(** ** Settings ([src/config.py]), at their default values *)

Definition settings_umap_n_components : Z := 10.
Definition settings_umap_n_neighbors : Z := 15.
Definition settings_umap_min_dist : Q := 1 # 10.
Definition settings_umap_metric : string := "cosine".
Definition settings_hdbscan_min_cluster_size : Z := 50.
Definition settings_hdbscan_min_samples : Z := 10.
Definition settings_hdbscan_cluster_selection_epsilon : Q := 0.
Definition settings_max_embeddings_per_tenant : Z := 100000.
Definition settings_centroid_sample_size : Z := 10.

(** ** [ClusterConfig] ([src/models/schemas.py]) *)

Record ClusterConfig := {
  umap_n_components : option Z;
  umap_n_neighbors : option Z;
  umap_min_dist : option Q;
  hdbscan_min_cluster_size : option Z;
  hdbscan_min_samples : option Z;
  max_embeddings : option Z;
  max_levels : Z;
  level_min_cluster_sizes : gmap Z Z;
  level_hdbscan_min_cluster_sizes : gmap Z Z;
  generate_level2 : bool;
  level2_min_cluster_size : Z
}.

Definition default_level_min_cluster_sizes : gmap Z Z :=
  list_to_map [(1, 40); (2, 20); (3, 10); (4, 10)].

Definition default_level_hdbscan_min_cluster_sizes : gmap Z Z :=
  list_to_map [(1, 30); (2, 15); (3, 8); (4, 5)].

(** [ClusterConfig()] *)
Definition default_config : ClusterConfig := {|
  umap_n_components := None;
  umap_n_neighbors := None;
  umap_min_dist := None;
  hdbscan_min_cluster_size := None;
  hdbscan_min_samples := None;
  max_embeddings := None;
  max_levels := 3;
  level_min_cluster_sizes := default_level_min_cluster_sizes;
  level_hdbscan_min_cluster_sizes := default_level_hdbscan_min_cluster_sizes;
  generate_level2 := true;
  level2_min_cluster_size := 50
|}.

Definition opt_in_range (o : option Z) (lo hi : Z) : bool :=
  match o with Some v => bool_decide (lo <= v <= hi) | None => true end.

(** The pydantic [Field(ge=.., le=..)] validation of a [ClusterConfig]. *)
Definition config_valid (c : ClusterConfig) : bool :=
  opt_in_range (umap_n_components c) 2 50 &&
  opt_in_range (umap_n_neighbors c) 2 200 &&
  match umap_min_dist c with
  | Some d => Qle_bool 0 d && Qle_bool d 1 | None => true end &&
  opt_in_range (hdbscan_min_cluster_size c) 5 1000 &&
  opt_in_range (hdbscan_min_samples c) 1 100 &&
  opt_in_range (max_embeddings c) 100 500000 &&
  bool_decide (1 <= max_levels c <= 10).

Definition get_min_cluster_size_for_level (c : ClusterConfig) (level : Z) : Z :=
  default 25 (level_min_cluster_sizes c !! level).

Definition get_hdbscan_min_cluster_size_for_level (c : ClusterConfig) (level : Z) : Z :=
  default 10 (level_hdbscan_min_cluster_sizes c !! level).

(** ** Data of the clustering layer ([src/clustering/hdbscan_clusterer.py]) *)

(** A row of an embedding matrix. *)
Abbreviation Vec := (list Q).

Record Cluster := {
  label : Z;
  member_indices : list nat;
  member_ids : list nat;
  member_texts : list string;
  centroid : Vec;
  size : Z;
  avg_distance_to_centroid : Q
}.

Record ClusteringResult := {
  clusters : list Cluster;
  noise_indices : list nat;
  noise_ids : list nat;
  labels : list Z;
  probabilities : list Q
}.

(** ** Data of the labeler and of the API ([src/labeling], [src/models]) *)

(** The JSON values [json.loads] can return, as far as [label_cluster]
    inspects them: an object (its members in source order), a string, an
    array, or any other scalar (number, boolean, null). *)
#[warnings="-register-all"]
Inductive JSON :=
| JObject (members : list (string * JSON))
| JString (s : string)
| JArray (items : list JSON)
| JScalar.

(** [TopicLabel] is a plain [@dataclass]: its fields hold whatever
    [label_cluster] put there, a [str] or, from a JSON array, a [list]. *)
Record TopicLabel := { title : JSON; description : JSON }.

Inductive ClusteringJobStatus := PENDING | RUNNING | COMPLETED | FAILED.

Record TopicResult := {
  tr_id : nat;
  tr_title : string;
  tr_description : string;
  tr_level : Z;
  tr_parent_id : option nat;
  tr_cluster_size : Z;
  tr_avg_distance_to_centroid : Q
}.

Record ClusterResult := {
  cr_tenant_id : string;
  cr_job_id : nat;
  cr_status : ClusteringJobStatus;
  cr_total_records : Z;
  cr_clustered_records : Z;
  cr_noise_records : Z;
  cr_num_clusters : Z;
  cr_topics : list TopicResult;
  cr_error_message : option string
}.

(** ** External collaborators

    The libraries and remote services the code calls. Each call may raise. *)
Record Env := {
  (** [umap.UMAP(n_components, n_neighbors, min_dist, metric,
      random_state=42).fit_transform(X)] *)
  umap_fit : Z → Z → Q → string → list Vec → Exc (list Vec);
  (** [hdbscan.HDBSCAN(min_cluster_size, min_samples,
      cluster_selection_epsilon, ...).fit_predict(X)] with [probabilities_] *)
  hdbscan_fit : Z → Z → Q → list Vec → Exc (list Z * list Q);
  (** [np.linalg.norm] of one row *)
  vnorm : Vec → Q;
  (** [np.argsort] with its default [kind] *)
  argsort : list Q → list nat;
  (** [client.chat.completions.create(...)] for a [label_cluster] prompt
      built from (representative texts, cluster size, parent title, level,
      ancestor titles); returns [choices[0].message.content] *)
  chat_complete : list string → Z → option string → Z → option (list string) →
                  Exc (option string);
  (** [json.loads] *)
  json_loads : string → Exc JSON;
  (** [client.embeddings.create(model=..., input=text).data[0].embedding];
      [text] is the label's title, a [str] or a [list] *)
  embed : JSON → Exc Vec
}.

(** ** The database and the trace *)

Record TopicRow := {
  t_id : nat;
  t_title : string;
  t_level : Z;
  t_parent : option nat;
  t_tenant : string;
  t_embedding : Vec
}.

Record FeedbackRow := {
  f_id : nat;
  f_tenant : string;
  f_embedding : option Vec;
  f_text : option string;
  f_topic : option nat;
  f_conf : option Q
}.

(** Observable events: database writes and the log line that opens a
    Level 2 sub-clustering. *)
Inductive Event :=
| EvClearTopics (tenant : string)
| EvSaveTopic (id : nat) (level : Z) (parent : option nat)
| EvUpdateFeedback (record_id topic_id : nat) (confidence : Q)
| EvLevel2Start (parent_title : string) (cluster_size : Z).

(** [feedback_tbl] is kept in [created_at DESC] order. *)
Record World := {
  topics_tbl : list TopicRow;
  feedback_tbl : list FeedbackRow;
  next_uuid : nat;
  trace : list Event
}.

(** ** The state/error monad of the async service code *)

Definition M (A : Type) : Type := World → Exc A * World.

Global Instance M_ret : MRet M := λ A a w, (Ok a, w).
Global Instance M_bind : MBind M := λ A B f m w,
  match m w with
  | (Ok a, w') => f a w'
  | (Err e, w') => (Err e, w')
  end.

Definition lift {A} (x : Exc A) : M A := λ w, (x, w).

(** [try: m except Exception as e: h(str(e))] *)
Definition try_except {A} (m : M A) (h : string → M A) : M A := λ w,
  match m w with
  | (Ok a, w') => (Ok a, w')
  | (Err e, w') => h e w'
  end.

Definition emit (ev : Event) : M unit := λ w,
  (Ok (), {| topics_tbl := topics_tbl w; feedback_tbl := feedback_tbl w;
             next_uuid := next_uuid w; trace := trace w ++ [ev] |}).

(** A fresh UUID ([uuid4()] or the database's default id). *)
Definition fresh_uuid : M nat := λ w,
  (Ok (next_uuid w), {| topics_tbl := topics_tbl w; feedback_tbl := feedback_tbl w;
                       next_uuid := S (next_uuid w); trace := trace w |}).

Definition set_tables (ts : list TopicRow) (fs : list FeedbackRow) : M unit := λ w,
  (Ok (), {| topics_tbl := ts; feedback_tbl := fs;
             next_uuid := next_uuid w; trace := trace w |}).

Definition get_world : M World := λ w, (Ok w, w).

(** ** Vector arithmetic of numpy on rows *)

Definition vsub (a b : Vec) : Vec := zip_with Qminus a b.

Definition qsum (l : list Q) : Q := foldr Qplus 0%Q l.

(** [x.mean()] of a non-empty 1-d array *)
Definition qmean (l : list Q) : Q := qsum l / inject_Z (py_len l).

(** [rows.mean(axis=0)] of a non-empty matrix with rows of equal length *)
Definition vmean (rows : list Vec) : Vec :=
  match rows with
  | [] => []
  | r :: _ =>
      map (λ j, qmean (map (λ row, default 0%Q (row !! j)) rows)) (seq 0 (length r))
  end.

(** ** [UMAPReducer] ([src/clustering/umap_reducer.py]) *)

Record UMAPReducer := {
  r_n_components : Z;
  r_n_neighbors : Z;
  r_min_dist : Q;
  r_metric : string
}.

(** [UMAPReducer(n_components, n_neighbors, min_dist, metric=None)] *)
Definition mk_UMAPReducer (n_components n_neighbors : option Z) (min_dist : option Q)
    : UMAPReducer := {|
  r_n_components := py_or_int n_components settings_umap_n_components;
  r_n_neighbors := py_or_int n_neighbors settings_umap_n_neighbors;
  r_min_dist := py_or_float min_dist settings_umap_min_dist;
  r_metric := settings_umap_metric
|}.

Definition fit_transform (env : Env) (r : UMAPReducer) (embeddings : list Vec)
    : Exc (list Vec) :=
  if decide (length embeddings = 0%nat) then Ok []
  else umap_fit env (r_n_components r)
         (Z.min (r_n_neighbors r) (py_len embeddings - 1))
         (r_min_dist r) (r_metric r) embeddings.

(** ** [HDBSCANClusterer] ([src/clustering/hdbscan_clusterer.py]) *)

Record HDBSCANClusterer := {
  c_min_cluster_size : Z;
  c_min_samples : Z;
  c_cluster_selection_epsilon : Q
}.

Definition mk_HDBSCANClusterer (min_cluster_size min_samples : option Z)
    (cluster_selection_epsilon : option Q) : HDBSCANClusterer := {|
  c_min_cluster_size := py_or_int min_cluster_size settings_hdbscan_min_cluster_size;
  c_min_samples := py_or_int min_samples settings_hdbscan_min_samples;
  c_cluster_selection_epsilon :=
    py_or_float cluster_selection_epsilon settings_hdbscan_cluster_selection_epsilon
|}.

(** [np.where(labels == l)[0]] *)
Definition indices_with (labels : list Z) (l : Z) : list nat :=
  filter (λ i, labels !! i = Some l) (seq 0 (length labels)).

(** [sorted(set(labels) - {-1})] *)
Definition unique_labels (labels : list Z) : list Z :=
  merge_sort Z.le (elements (list_to_set labels ∖ {[ -1 ]} : gset Z)).

(** The body of the [for label in sorted(unique_labels)] loop. *)
Definition build_cluster (env : Env) (embeddings : list Vec) (record_ids : list nat)
    (texts : list string) (labels : list Z) (l : Z) : Exc Cluster :=
  let indices := indices_with labels l in
  (* [embeddings[mask]] needs a mask as long as the array *)
  if decide (length labels ≠ length embeddings)
  then Err "IndexError: boolean index did not match indexed array"
  else
    cluster_embeddings ← py_gather embeddings indices;
    let c := vmean cluster_embeddings in
    let distances := map (λ row, vnorm env (vsub row c)) cluster_embeddings in
    let avg_distance := qmean distances in
    ids ← py_gather record_ids indices;
    txts ← py_gather texts indices;
    mret {| label := l;
            member_indices := indices;
            member_ids := ids;
            member_texts := txts;
            centroid := c;
            size := py_len indices;
            avg_distance_to_centroid := avg_distance |}.

Definition empty_clustering_result : ClusteringResult := {|
  clusters := []; noise_indices := []; noise_ids := []; labels := []; probabilities := []
|}.

Definition fit_predict (env : Env) (self : HDBSCANClusterer) (embeddings : list Vec)
    (record_ids : list nat) (texts : list string) : Exc ClusteringResult :=
  if decide (length embeddings = 0%nat) then Ok empty_clustering_result
  else
    '(labels, probabilities) ←
      hdbscan_fit env (c_min_cluster_size self) (c_min_samples self)
        (c_cluster_selection_epsilon self) embeddings;
    let noise_indices := indices_with labels (-1) in
    noise_ids ← py_gather record_ids noise_indices;
    clusters ← mapM (build_cluster env embeddings record_ids texts labels)
                 (unique_labels labels);
    mret {| clusters := clusters;
            noise_indices := noise_indices;
            noise_ids := noise_ids;
            labels := labels;
            probabilities := probabilities |}.

(** [get_closest_to_centroid(cluster, embeddings, n)] *)
Definition get_closest_to_centroid (env : Env) (cluster : Cluster) (embeddings : list Vec)
    (n : Z) : Exc (list (nat * string * Q)) :=
  cluster_embeddings ← py_gather embeddings (member_indices cluster);
  let distances := map (λ row, vnorm env (vsub row (centroid cluster))) cluster_embeddings in
  let sorted_indices := py_slice_upto (argsort env distances) n in
  mapM (λ local_idx,
          global_idx ← py_index (member_indices cluster) local_idx;
          txt ← py_index (member_texts cluster) local_idx;
          d ← py_index distances local_idx;
          mret (global_idx, txt, d)) sorted_indices.

(** ** [OpenAILabeler] ([src/labeling/openai_labeler.py]) *)

(** The value of the last member named [key] ([json.loads] keeps the last
    of duplicate keys). *)
Fixpoint assoc_last (key : string) (ms : list (string * JSON)) : option JSON :=
  match ms with
  | [] => None
  | (k, v) :: rest =>
      match assoc_last key rest with
      | Some v' => Some v'
      | None => if decide (k = key) then Some v else None
      end
  end.

(** [result.get(key, dflt)]; a non-object has no [.get] ([AttributeError]). *)
Definition json_get (j : JSON) (key : string) (dflt : JSON) : Exc JSON :=
  match j with
  | JObject ms => Ok (default dflt (assoc_last key ms))
  | _ => Err "AttributeError: object has no attribute 'get'"
  end.

(** [v[:n]]: a [str] or a [list] is sliced; a [dict] cannot be sliced
    ([TypeError: unhashable type: 'slice']) and the other scalars are not
    subscriptable ([TypeError]). *)
Definition json_slice (v : JSON) (n : nat) : Exc JSON :=
  match v with
  | JString s => Ok (JString (String.substring 0 n s))
  | JArray items => Ok (JArray (take n items))
  | JObject _ => Err "TypeError: unhashable type: 'slice'"
  | JScalar => Err "TypeError: object is not subscriptable"
  end.

(** The title of the fallback label: [f"Cluster ({cluster_size} items)"]. *)
Definition fallback_title (cluster_size : Z) : string :=
  "Cluster (" +:+ pretty cluster_size +:+ " items)".

(** The fallback label of both [except] clauses. *)
Definition fallback_label (cluster_size : Z) : TopicLabel := {|
  title := JString (fallback_title cluster_size);
  description := JString "Auto-generated cluster"
|}.

(** The [try] block of [label_cluster]. *)
Definition label_cluster_try (env : Env) (representative_texts : list string)
    (cluster_size : Z) (parent_title : option string) (level : Z)
    (ancestor_titles : option (list string)) : Exc TopicLabel :=
  content ← chat_complete env representative_texts cluster_size parent_title level
              ancestor_titles;
  match content with
  | None | Some "" => Err "ValueError: Empty response from OpenAI"
  | Some c =>
      result ← json_loads env c;
      t ← json_get result "title" (JString "Unnamed Category");
      t ← json_slice t 255;
      d ← json_get result "description" (JString "");
      d ← json_slice d 500;
      mret {| title := t; description := d |}
  end.

(** [label_cluster]: the [except json.JSONDecodeError] and
    [except Exception] clauses both return the fallback label. *)
Definition label_cluster (env : Env) (representative_texts : list string)
    (cluster_size : Z) (parent_title : option string) (level : Z)
    (ancestor_titles : option (list string)) : Exc TopicLabel :=
  match label_cluster_try env representative_texts cluster_size parent_title level
          ancestor_titles with
  | Ok l => Ok l
  | Err _ => Ok (fallback_label cluster_size)
  end.

(** [generate_embedding]: no [try]. *)
Definition generate_embedding (env : Env) (text : JSON) : Exc Vec :=
  embed env text.

(** ** The database layer ([src/db/postgres.py]) *)

(** asyncpg encodes a query argument bound to a [text] column before it
    sends the statement: anything but a [str] raises [DataError] and nothing
    is written. *)
Definition asyncpg_text_arg (v : JSON) : Exc string :=
  match v with
  | JString s => Ok s
  | _ => Err "DataError: invalid input for query argument $1 (expected str)"
  end.

(** [clear_tenant_topics]: the [UPDATE] of the tenant's feedback, then the
    [DELETE] of its topics; both statements are taken to succeed. *)
Definition clear_tenant_topics (tenant_id : string) : M Z :=
  w ← get_world;
  let fs := map (λ r, if decide (f_tenant r = tenant_id)
                      then {| f_id := f_id r; f_tenant := f_tenant r;
                              f_embedding := f_embedding r; f_text := f_text r;
                              f_topic := None; f_conf := None |}
                      else r) (feedback_tbl w) in
  let kept := filter (λ t, t_tenant t ≠ tenant_id) (topics_tbl w) in
  _ ← set_tables kept fs;
  _ ← emit (EvClearTopics tenant_id);
  mret (py_len (topics_tbl w) - py_len kept).

Definition feedback_loadable (tenant_id : string) (r : FeedbackRow) : Prop :=
  f_tenant r = tenant_id ∧ is_Some (f_embedding r) ∧ is_Some (f_text r).

Global Instance feedback_loadable_dec tenant_id r : Decision (feedback_loadable tenant_id r).
Proof. unfold feedback_loadable. apply _. Defined.

(** [load_embeddings_for_tenant]: [LIMIT $2] for a [limit >= 0]; the service
    passes [config.max_embeddings] (a validated [ClusterConfig] has it at
    least 100) or [100000]. Postgres rejects a negative [LIMIT], which this
    definition does not model. *)
Definition load_embeddings_for_tenant (tenant_id : string) (limit : Z)
    : M (list nat * list Vec * list string) :=
  w ← get_world;
  let rows := take (Z.to_nat limit) (filter (feedback_loadable tenant_id) (feedback_tbl w)) in
  mret (map f_id rows, map (λ r, default [] (f_embedding r)) rows,
        map (λ r, default "" (f_text r)) rows).

(** [save_topic]: the [INSERT] stores title, level, parent, tenant and
    embedding; the description is not stored. *)
Definition save_topic (tenant_id : string) (ttl : string) (desc : JSON) (level : Z)
    (parent_id : option nat) (embedding : Vec) : M nat :=
  id ← fresh_uuid;
  w ← get_world;
  _ ← set_tables (topics_tbl w ++
                   [{| t_id := id; t_title := ttl; t_level := level;
                       t_parent := parent_id; t_tenant := tenant_id;
                       t_embedding := embedding |}]) (feedback_tbl w);
  _ ← emit (EvSaveTopic id level parent_id);
  mret id.

Definition update_feedback_topic (record_id topic_id : nat) (confidence : Q) : M unit :=
  w ← get_world;
  let fs := map (λ r, if decide (f_id r = record_id)
                      then {| f_id := f_id r; f_tenant := f_tenant r;
                              f_embedding := f_embedding r; f_text := f_text r;
                              f_topic := Some topic_id; f_conf := Some confidence |}
                      else r) (feedback_tbl w) in
  _ ← set_tables (topics_tbl w) fs;
  emit (EvUpdateFeedback record_id topic_id confidence).

(** ** The service ([src/service.py]) *)

(** [1.0 - min(cluster.avg_distance_to_centroid, 1.0)] *)
Definition confidence_of (avg_distance : Q) : Q := 1 - Qmin avg_distance 1.

(** [for member_id in cluster.member_ids: confidence = ...;
    await update_feedback_topic(member_id, topic_id, confidence)] *)
Fixpoint update_members (member_ids : list nat) (topic_id : nat) (avg_distance : Q)
    : M unit :=
  match member_ids with
  | [] => mret ()
  | member_id :: rest =>
      let confidence := confidence_of avg_distance in
      _ ← update_feedback_topic member_id topic_id confidence;
      update_members rest topic_id avg_distance
  end.

(** The test of step 6 of [generate_taxonomy]:
    [config.generate_level2 and cluster.size >= config.level2_min_cluster_size] *)
Definition level2_gate (config : ClusterConfig) (cluster : Cluster) : bool :=
  generate_level2 config && bool_decide (level2_min_cluster_size config <= size cluster).

(** [TopicResult(id=..., title=label.title, description=label.description,
    ...)]: pydantic validates [title] and [description] as [str]. *)
Definition TopicResult_new (id : nat) (ttl desc : JSON) (level : Z)
    (parent_id : option nat) (cluster_size : Z) (avg_distance : Q) : Exc TopicResult :=
  match ttl, desc with
  | JString t, JString d =>
      Ok {| tr_id := id; tr_title := t; tr_description := d; tr_level := level;
            tr_parent_id := parent_id; tr_cluster_size := cluster_size;
            tr_avg_distance_to_centroid := avg_distance |}
  | _, _ => Err "ValidationError: 1 validation error for TopicResult (string_type)"
  end.

(** The body of [for sub_cluster in sub_result.clusters] in
    [_generate_level2_topics]. [save_topic] binds [label.title] to [$1]:
    its encoding ([asyncpg_text_arg]) comes before the [INSERT]. *)
Definition level2_cluster_step (env : Env) (tenant_id : string) (parent_topic_id : nat)
    (parent_title : string) (reduced : list Vec) (sub_cluster : Cluster)
    : M TopicResult :=
  closest ← lift (get_closest_to_centroid env sub_cluster reduced
                    settings_centroid_sample_size);
  let representative_texts := map (λ x, x.1.2) closest in
  lbl ← lift (label_cluster env representative_texts (size sub_cluster)
                (Some parent_title) 1 None);
  topic_embedding ← lift (generate_embedding env (title lbl));
  ttl ← lift (asyncpg_text_arg (title lbl));
  topic_id ← save_topic tenant_id ttl (description lbl) 2 (Some parent_topic_id)
               topic_embedding;
  _ ← update_members (member_ids sub_cluster) topic_id
        (avg_distance_to_centroid sub_cluster);
  lift (TopicResult_new topic_id (title lbl) (description lbl) 2 (Some parent_topic_id)
          (size sub_cluster) (avg_distance_to_centroid sub_cluster)).

(** The [reducer] of [_generate_level2_topics] for the members [cluster_ids]. *)
Definition level2_reducer (config : ClusterConfig) (cluster_ids : list nat) : UMAPReducer :=
  mk_UMAPReducer
    (Some (Z.min (py_or_int (umap_n_components config) 10) 5))
    (Some (Z.min (py_or_int (umap_n_neighbors config) 15) (py_len cluster_ids - 1)))
    None.

(** The [sub_clusterer] of [_generate_level2_topics]. *)
Definition level2_clusterer (config : ClusterConfig) : HDBSCANClusterer :=
  mk_HDBSCANClusterer
    (Some (Z.max (py_or_int (hdbscan_min_cluster_size config) 50 `div` 2) 10))
    (Some (Z.max (py_or_int (hdbscan_min_samples config) 10 `div` 2) 5))
    None.

Definition generate_level2_topics (env : Env) (tenant_id : string) (parent_topic_id : nat)
    (parent_title : string) (cluster : Cluster) (embeddings : list Vec)
    (texts : list string) (config : ClusterConfig) : M (list TopicResult) :=
  _ ← emit (EvLevel2Start parent_title (size cluster));
  cluster_embeddings ← lift (py_gather embeddings (member_indices cluster));
  let cluster_texts := member_texts cluster in
  let cluster_ids := member_ids cluster in
  if decide (py_len cluster_ids < py_or_int (hdbscan_min_cluster_size config) 50 * 2)
  then mret []
  else
    reduced ← lift (fit_transform env (level2_reducer config cluster_ids) cluster_embeddings);
    sub_result ← lift (fit_predict env (level2_clusterer config) reduced cluster_ids
                         cluster_texts);
    mapM (level2_cluster_step env tenant_id parent_topic_id parent_title reduced)
      (clusters sub_result).

(** The body of [for cluster in clustering_result.clusters] in
    [generate_taxonomy] up to [topics.append(TopicResult(...))]: label, topic
    embedding, [save_topic], the members' update and the validated result. *)
Definition level1_topic_step (env : Env) (tenant_id : string)
    (reduced_embeddings : list Vec) (cluster : Cluster) : M TopicResult :=
  closest ← lift (get_closest_to_centroid env cluster reduced_embeddings
                    settings_centroid_sample_size);
  let representative_texts := map (λ x, x.1.2) closest in
  lbl ← lift (label_cluster env representative_texts (size cluster) None 1 None);
  topic_embedding ← lift (generate_embedding env (title lbl));
  ttl ← lift (asyncpg_text_arg (title lbl));
  topic_id ← save_topic tenant_id ttl (description lbl) 1 None topic_embedding;
  _ ← update_members (member_ids cluster) topic_id (avg_distance_to_centroid cluster);
  lift (TopicResult_new topic_id (title lbl) (description lbl) 1 None (size cluster)
          (avg_distance_to_centroid cluster)).

(** The whole body of the Level 1 loop: the Level 1 topic followed by its
    Level 2 topics. [parent_title=label.title] is, once [TopicResult] has
    accepted it, the [str] [tr_title t]. *)
Definition level1_cluster_step (env : Env) (tenant_id : string) (config : ClusterConfig)
    (reduced_embeddings embeddings : list Vec) (texts : list string) (cluster : Cluster)
    : M (list TopicResult) :=
  t ← level1_topic_step env tenant_id reduced_embeddings cluster;
  if level2_gate config cluster then
    level2_topics ← generate_level2_topics env tenant_id (tr_id t) (tr_title t) cluster
                      embeddings texts config;
    mret (t :: level2_topics)
  else mret [t].

Fixpoint level1_loop (env : Env) (tenant_id : string) (config : ClusterConfig)
    (reduced_embeddings embeddings : list Vec) (texts : list string) (cs : list Cluster)
    : M (list TopicResult) :=
  match cs with
  | [] => mret []
  | c :: rest =>
      ts ← level1_cluster_step env tenant_id config reduced_embeddings embeddings texts c;
      ts' ← level1_loop env tenant_id config reduced_embeddings embeddings texts rest;
      mret (ts ++ ts')
  end.

(** The [try] block of [generate_taxonomy]. *)
Definition generate_taxonomy_try (env : Env) (tenant_id : string) (config : ClusterConfig)
    (job_id : nat) : M ClusterResult :=
  _ ← clear_tenant_topics tenant_id;
  let max_embeddings := py_or_int (max_embeddings config) settings_max_embeddings_per_tenant in
  '(record_ids, embeddings, texts) ← load_embeddings_for_tenant tenant_id max_embeddings;
  if decide (length record_ids = 0%nat) then
    mret {| cr_tenant_id := tenant_id; cr_job_id := job_id; cr_status := COMPLETED;
            cr_total_records := 0; cr_clustered_records := 0; cr_noise_records := 0;
            cr_num_clusters := 0; cr_topics := []; cr_error_message := None |}
  else
    let reducer := mk_UMAPReducer (umap_n_components config) (umap_n_neighbors config)
                     (umap_min_dist config) in
    reduced_embeddings ← lift (fit_transform env reducer embeddings);
    let clusterer := mk_HDBSCANClusterer (hdbscan_min_cluster_size config)
                       (hdbscan_min_samples config) None in
    clustering_result ← lift (fit_predict env clusterer reduced_embeddings record_ids texts);
    topics ← level1_loop env tenant_id config reduced_embeddings embeddings texts
               (clusters clustering_result);
    mret {| cr_tenant_id := tenant_id; cr_job_id := job_id; cr_status := COMPLETED;
            cr_total_records := py_len record_ids;
            cr_clustered_records := py_len record_ids - py_len (noise_ids clustering_result);
            cr_noise_records := py_len (noise_ids clustering_result);
            cr_num_clusters := py_len (clusters clustering_result);
            cr_topics := topics; cr_error_message := None |}.

Definition failed_result (tenant_id : string) (job_id : nat) (e : string) : ClusterResult := {|
  cr_tenant_id := tenant_id; cr_job_id := job_id; cr_status := FAILED;
  cr_total_records := 0; cr_clustered_records := 0; cr_noise_records := 0;
  cr_num_clusters := 0; cr_topics := []; cr_error_message := Some e
|}.

(** [TaxonomyService.generate_taxonomy(tenant_id, config)] *)
Definition generate_taxonomy (env : Env) (tenant_id : string) (config : option ClusterConfig)
    : M ClusterResult :=
  let config := default default_config config in
  job_id ← fresh_uuid;
  try_except (generate_taxonomy_try env tenant_id config job_id)
    (λ e, mret (failed_result tenant_id job_id e)).

(** ** Concrete fixtures

    A deterministic environment and database used to run the pipeline on
    explicit inputs. Rows are one-dimensional, so [Qabs] is exactly the
    Euclidean norm [np.linalg.norm] of a row. *)

Definition demo_row (tenant_id : string) (i : nat) : FeedbackRow := {|
  f_id := i; f_tenant := tenant_id; f_embedding := Some [inject_Z (Z.of_nat i)];
  f_text := Some "feedback"; f_topic := None; f_conf := None
|}.

Definition demo_world (tenant_id : string) (n : nat) (prior : list TopicRow) : World := {|
  topics_tbl := prior;
  feedback_tbl := map (demo_row tenant_id) (seq 0 n);
  next_uuid := 1000;
  trace := []
|}.

(** A stable argsort: positions ordered by key, ties by position. *)
Definition key_le (ds : list Q) (i j : nat) : Prop :=
  Qle_bool (default 0%Q (ds !! i)) (default 0%Q (ds !! j)) = true.

Global Instance key_le_dec ds : RelDecision (key_le ds).
Proof. intros i j. unfold key_le. apply _. Defined.

Definition stable_argsort (ds : list Q) : list nat :=
  merge_sort (key_le ds) (seq 0 (length ds)).

Definition demo_env (umap : Z → Z → Q → string → list Vec → Exc (list Vec))
    (hdb : Z → list Vec → list Z) (emb : JSON → Exc Vec) : Env := {|
  umap_fit := umap;
  hdbscan_fit := λ mcs _ _ X, Ok (hdb mcs X, map (λ _, 1%Q) X);
  vnorm := λ row, qsum (map Qabs row);
  argsort := stable_argsort;
  chat_complete := λ _ _ _ _ _, Ok (Some "{title: Topic, description: About}");
  (* [json.loads] of the reply above *)
  json_loads := λ _, Ok (JObject [("title", JString "Topic"); ("description", JString "About")]);
  embed := emb
|}.

Definition umap_identity : Z → Z → Q → string → list Vec → Exc (list Vec) :=
  λ _ _ _ _ X, Ok X.

Definition embed_ok : JSON → Exc Vec := λ _, Ok [1%Q].

(** Every point in one cluster. *)
Definition hdb_one_cluster : Z → list Vec → list Z := λ _ X, map (λ _, 0) X.

(** The first [k] points in cluster 0, the others in cluster 1. *)
Definition hdb_two_clusters (k : nat) : Z → list Vec → list Z :=
  λ _ X, map (λ i, if decide (i < k)%nat then 0 else 1) (seq 0 (length X)).

(** Equality of rationals as data (numerator and denominator), used to
    group identical rows. *)
Global Instance Q_eq_dec : EqDecision Q.
Proof.
  intros [a b] [c d]. destruct (decide (a = c)), (decide (b = d));
    [left; congruence | right; congruence ..].
Defined.

(** An HDBSCAN stand-in for inputs made of well separated groups of
    identical points: a group of at least [min_cluster_size] points is a
    cluster and the other points are noise. hdbscan's default
    [allow_single_cluster=False] does not select the whole data set as one
    cluster, so when fewer than two groups qualify every point is noise. *)
Definition hdb_dense_groups : Z → list Vec → list Z := λ mcs X,
  let big := filter (λ r, mcs <= Z.of_nat (length (filter (λ r', r' = r) X)))
               (remove_dups X) in
  if decide (length big < 2)%nat then map (λ _, -1) X
  else map (λ r, match list_find (λ r', r' = r) big with
                 | Some (k, _) => Z.of_nat k
                 | None => -1
                 end) X.

(** Feedback row [i] of two groups: the first [k] rows embedded at [0], the
    others at [100]. *)
Definition blob_row (tenant_id : string) (k i : nat) : FeedbackRow := {|
  f_id := i; f_tenant := tenant_id;
  f_embedding := Some [if decide (i < k)%nat then 0%Q else 100%Q];
  f_text := Some "feedback"; f_topic := None; f_conf := None
|}.

Definition two_blob_world (tenant_id : string) (k n : nat) (prior : list TopicRow)
    : World := {|
  topics_tbl := prior;
  feedback_tbl := map (blob_row tenant_id k) (seq 0 n);
  next_uuid := 1000;
  trace := []
|}.

(** [ClusterConfig(hdbscan_min_cluster_size=20)] *)
Definition config_mcs_20 : ClusterConfig := {|
  umap_n_components := None; umap_n_neighbors := None; umap_min_dist := None;
  hdbscan_min_cluster_size := Some 20; hdbscan_min_samples := None; max_embeddings := None;
  max_levels := 3;
  level_min_cluster_sizes := default_level_min_cluster_sizes;
  level_hdbscan_min_cluster_sizes := default_level_hdbscan_min_cluster_sizes;
  generate_level2 := true; level2_min_cluster_size := 50
|}.

(** UMAP raising on the Level 2 reducer ([n_components = 5]) only. *)
Definition umap_fails_at_level2 : Z → Z → Q → string → list Vec → Exc (list Vec) :=
  λ n_components _ _ _ X,
    if decide (n_components = 5) then Err "ValueError: spectral initialisation failed"
    else Ok X.

Definition umap_always_fails : Z → Z → Q → string → list Vec → Exc (list Vec) :=
  λ _ _ _ _ _, Err "ValueError: spectral initialisation failed".



(** A topic of the tenant stored by an earlier build. *)
Definition prior_topic : TopicRow := {|
  t_id := 7; t_title := "Billing"; t_level := 1; t_parent := None;
  t_tenant := "acme"; t_embedding := [1%Q]
|}.

Definition is_level2_start (ev : Event) : bool :=
  match ev with EvLevel2Start _ _ => true | _ => false end.

Definition is_save_topic (ev : Event) : bool :=
  match ev with EvSaveTopic _ _ _ => true | _ => false end.

(** Number of [_generate_level2_topics] calls recorded in a trace. *)
Definition level2_calls (tr : list Event) : nat := length (filter is_level2_start tr).

Definition topic_saves (tr : list Event) : nat := length (filter is_save_topic tr).

(** The chat completion returns no content. *)
Definition demo_env_empty_reply : Env := {|
  umap_fit := umap_identity;
  hdbscan_fit := λ _ _ _ X, Ok (map (λ _, 0) X, map (λ _, 1%Q) X);
  vnorm := λ row, qsum (map Qabs row);
  argsort := stable_argsort;
  chat_complete := λ _ _ _ _ _, Ok None;
  json_loads := λ _, Ok (JObject []);
  embed := embed_ok
|}.

(** A chat reply whose JSON title is an array: [json.loads] gives
    [{"title": ["Billing"], "description": "Invoices and refunds"}]. *)
Definition demo_env_list_title : Env := {|
  umap_fit := umap_identity;
  hdbscan_fit := λ mcs _ _ X, Ok (hdb_dense_groups mcs X, map (λ _, 1%Q) X);
  vnorm := λ row, qsum (map Qabs row);
  argsort := stable_argsort;
  chat_complete := λ _ _ _ _ _, Ok (Some "{title: [Billing], description: Invoices and refunds}");
  json_loads := λ _, Ok (JObject [("title", JArray [JString "Billing"]);
                                  ("description", JString "Invoices and refunds")]);
  embed := embed_ok
|}.

(** ** numpy's default argsort ([kind='quicksort'])

    [aquicksort_] of [numpy/_core/src/npysort/quicksort.cpp], the portable
    kernel of [np.argsort] for float keys: an introsort (median-of-3
    quicksort down to [SMALL_QUICKSORT = 15], insertion sort below, heapsort
    [aheapsort_] past the depth limit [2 * npy_get_msb(num)]). Pointers into
    [tosort] are [Z] positions; [v] holds the keys ([float32] distances,
    [Q] here, with [Tag::less] the strict [<]). The loops run on a fuel
    bound larger than any iteration count of an input of [length v]
    elements. *)
Section NumpyArgsort.

Variable v : list Q.

Definition np_less (x y : Q) : bool := negb (Qle_bool y x).

(** [v[*p]] *)
Definition key_at (a : list nat) (p : Z) : Q := v !!! (a !!! Z.to_nat p).

(** [*p = x] *)
Definition aset (a : list nat) (p : Z) (x : nat) : list nat := <[Z.to_nat p := x]> a.

(** [INTP_SWAP( *p, *q )] *)
Definition intp_swap (a : list nat) (p q : Z) : list nat :=
  aset (aset a p (a !!! Z.to_nat q)) q (a !!! Z.to_nat p).

(** [do ++pi; while (less(v[*pi], vp));] *)
Fixpoint scan_up (fuel : nat) (a : list nat) (pi : Z) (vp : Q) : Z :=
  match fuel with
  | O => pi
  | S f => if np_less (key_at a (pi + 1)) vp then scan_up f a (pi + 1) vp else pi + 1
  end.

(** [do --pj; while (less(vp, v[*pj]));] *)
Fixpoint scan_down (fuel : nat) (a : list nat) (pj : Z) (vp : Q) : Z :=
  match fuel with
  | O => pj
  | S f => if np_less vp (key_at a (pj - 1)) then scan_down f a (pj - 1) vp else pj - 1
  end.

(** [for (;;) { scan up; scan down; if (pi >= pj) break; INTP_SWAP( *pi, *pj ); }] *)
Fixpoint partition_loop (fuel : nat) (a : list nat) (pi pj : Z) (vp : Q) : list nat * Z :=
  match fuel with
  | O => (a, pi)
  | S f =>
      let pi' := scan_up fuel a pi vp in
      let pj' := scan_down fuel a pj vp in
      if decide (pj' <= pi') then (a, pi')
      else partition_loop f (intp_swap a pi' pj') pi' pj' vp
  end.

(** [while (pj > pl && less(vp, v[*pk])) { *pj-- = *pk--; } *pj = vi;] *)
Fixpoint insert_shift (fuel : nat) (a : list nat) (pl pj : Z) (vi : nat) (vp : Q)
    : list nat :=
  match fuel with
  | O => a
  | S f =>
      if bool_decide (pl < pj) && np_less vp (key_at a (pj - 1))
      then insert_shift f (aset a pj (a !!! Z.to_nat (pj - 1))) pl (pj - 1) vi vp
      else aset a pj vi
  end.

(** [for (pi = pl + 1; pi <= pr; ++pi) { vi = *pi; vp = v[vi]; ... }] *)
Definition insertion_sort (fuel : nat) (a : list nat) (pl pr : Z) : list nat :=
  fold_left (λ a pi, let vi := a !!! Z.to_nat pi in insert_shift fuel a pl pi vi (v !!! vi))
    (map (λ k, pl + 1 + Z.of_nat k) (seq 0 (Z.to_nat (pr - pl)))) a.

(** The sift-down of [aheapsort_] on the one-based heap [a[off + 1 ..
    off + n]]: [for (i = i0, j = j0; j <= n;) { ... } a[i] = tmp;] *)
Fixpoint sift (fuel : nat) (a : list nat) (off n i j : Z) (tmp : nat) : list nat :=
  match fuel with
  | O => a
  | S f =>
      if decide (j <= n) then
        let j := if bool_decide (j < n) && np_less (key_at a (off + j)) (key_at a (off + j + 1))
                 then j + 1 else j in
        if np_less (v !!! tmp) (key_at a (off + j))
        then sift f (aset a (off + i) (a !!! Z.to_nat (off + j))) off n j (j + j) tmp
        else aset a (off + i) tmp
      else aset a (off + i) tmp
  end.

(** [aheapsort_(vv, tosort = pl, n)] with [a = tosort - 1]. *)
Definition aheapsort (fuel : nat) (a : list nat) (pl n : Z) : list nat :=
  let off := pl - 1 in
  let a := fold_left (λ a l, sift fuel a off n l (l + l) (a !!! Z.to_nat (off + l)))
             (map (λ k, n `div` 2 - Z.of_nat k) (seq 0 (Z.to_nat (n `div` 2)))) a in
  fold_left (λ a m, let tmp := a !!! Z.to_nat (off + m) in
                    let a := aset a (off + m) (a !!! Z.to_nat (off + 1)) in
                    sift fuel a off (m - 1) 1 2 tmp)
    (map (λ k, n - Z.of_nat k) (seq 0 (Z.to_nat (n - 1)))) a.

(** [while ((pr - pl) > SMALL_QUICKSORT) { partition; push the larger part;
    *psdepth++ = --cdepth; }]; returns the array, the part left for the
    insertion sort and the stack of [(pl, pr, cdepth)]. *)
Fixpoint partition_phase (fuel : nat) (a : list nat) (pl pr cdepth : Z)
    (stack : list (Z * Z * Z)) : list nat * Z * Z * list (Z * Z * Z) :=
  match fuel with
  | O => (a, pl, pr, stack)
  | S f =>
      if decide (15 < pr - pl) then
        let pm := pl + Z.shiftr (pr - pl) 1 in
        let a := if np_less (key_at a pm) (key_at a pl) then intp_swap a pm pl else a in
        let a := if np_less (key_at a pr) (key_at a pm) then intp_swap a pr pm else a in
        let a := if np_less (key_at a pm) (key_at a pl) then intp_swap a pm pl else a in
        let vp := key_at a pm in
        let a := intp_swap a pm (pr - 1) in
        let '(a, pi) := partition_loop fuel a pl (pr - 1) vp in
        let a := intp_swap a pi (pr - 1) in
        let cdepth := cdepth - 1 in
        if decide (pi - pl < pr - pi)
        then partition_phase f a pl (pi - 1) cdepth ((pi + 1, pr, cdepth) :: stack)
        else partition_phase f a (pi + 1) pr cdepth ((pl, pi - 1, cdepth) :: stack)
      else (a, pl, pr, stack)
  end.

(** The outer [for (;;)] loop of [aquicksort_], down to [stack_pop]. *)
Fixpoint aquicksort_loop (fuel : nat) (a : list nat) (pl pr cdepth : Z)
    (stack : list (Z * Z * Z)) : list nat :=
  match fuel with
  | O => a
  | S f =>
      let '(a, stack) :=
        if decide (cdepth < 0) then (aheapsort fuel a pl (pr - pl + 1), stack)
        else let '(a, pl', pr', stack') := partition_phase fuel a pl pr cdepth stack in
             (insertion_sort fuel a pl' pr', stack') in
      match stack with
      | [] => a
      | (pl', pr', cdepth') :: stack' => aquicksort_loop f a pl' pr' cdepth' stack'
      end
  end.

End NumpyArgsort.

(** [np.argsort(v)]: [aquicksort_] on [tosort = 0 .. num - 1] with
    [cdepth = npy_get_msb(num) * 2]. *)
Definition np_argsort (v : list Q) : list nat :=
  let num := length v in
  let fuel := S (num * num) in
  aquicksort_loop v fuel (seq 0 num) 0 (Z.of_nat num - 1) (Z.log2 (Z.of_nat num) * 2) [].

(** The demo environment with numpy's argsort. *)
Definition np_env : Env := {|
  umap_fit := umap_identity;
  hdbscan_fit := λ mcs _ _ X, Ok (hdb_dense_groups mcs X, map (λ _, 1%Q) X);
  vnorm := λ row, qsum (map Qabs row);
  argsort := np_argsort;
  chat_complete := λ _ _ _ _ _, Ok (Some "{title: Topic, description: About}");
  json_loads := λ _, Ok (JObject [("title", JString "Topic"); ("description", JString "About")]);
  embed := embed_ok
|}.

(** A cluster of 17 members, all embedded at its centroid. *)
Definition cluster17 : Cluster := {|
  label := 0; member_indices := seq 0 17; member_ids := seq 100 17;
  member_texts := map (λ i : nat, pretty i) (seq 0 17); centroid := [0%Q]; size := 17;
  avg_distance_to_centroid := 0
|}.

Definition embeddings17 : list Vec := replicate 17 [0%Q].

(** ** Properties used by the claims *)

(** What [np.argsort] guarantees: a permutation of the positions that
    orders the keys ascending. The order among equal keys is left open:
    the default [kind='quicksort'] is not a stable sort. *)
Definition argsort_contract (env : Env) : Prop :=
  ∀ ds, argsort env ds ≡ₚ seq 0 (length ds) ∧ Sorted (key_le ds) (argsort env ds).

(** Consecutive entries at equal distance come in the order of their
    global indices (the order of [member_indices], which [np.where] gives
    ascending). *)
Definition ties_in_member_order (res : list (nat * string * Q)) : Prop :=
  ∀ k g1 t1 d1 g2 t2 d2,
    res !! k = Some (g1, t1, d1) → res !! S k = Some (g2, t2, d2) →
    d1 == d2 → (g1 < g2)%nat.

(** The representative-selection claim as the spec words it. *)
Definition closest_claim (env : Env) : Prop :=
  ∀ c X n res, get_closest_to_centroid env c X n = Ok res →
    length res = Nat.min (Z.to_nat n) (length (member_indices c)) ∧
    (∀ g t d, (g, t, d) ∈ res → g ∈ member_indices c) ∧
    Sorted Qle (map (λ x, x.2) res) ∧
    ties_in_member_order res.

(** A cluster of two members at the same distance from the centroid. *)
Definition tie_cluster : Cluster := {|
  label := 0; member_indices := [0%nat; 1%nat]; member_ids := [10%nat; 11%nat];
  member_texts := ["first"; "second"]; centroid := [1%Q]; size := 2;
  avg_distance_to_centroid := 0
|}.

Definition tie_embeddings : list Vec := [[1%Q]; [1%Q]].

(** The input indices a clustering result holds [i] in: the clusters whose
    member set contains it, plus the noise set if it contains it. *)
Definition index_multiplicity (r : ClusteringResult) (i : nat) : nat :=
  length (filter (λ c, i ∈ member_indices c) (clusters r)) +
  (if decide (i ∈ noise_indices r) then 1 else 0).

(** [r] partitions the input indices [0 .. n-1] into clusters and noise. *)
Definition partitions_indices (n : nat) (r : ClusteringResult) : Prop :=
  (∀ i, (i < n)%nat → index_multiplicity r i = 1%nat) ∧
  (∀ i, (n <= i)%nat → index_multiplicity r i = 0%nat).

(** [c] with the per-level fields replaced. *)
Definition with_level_fields (c : ClusterConfig) (ml : Z) (lm lh : gmap Z Z)
    : ClusterConfig := {|
  umap_n_components := umap_n_components c; umap_n_neighbors := umap_n_neighbors c;
  umap_min_dist := umap_min_dist c;
  hdbscan_min_cluster_size := hdbscan_min_cluster_size c;
  hdbscan_min_samples := hdbscan_min_samples c; max_embeddings := max_embeddings c;
  max_levels := ml; level_min_cluster_sizes := lm; level_hdbscan_min_cluster_sizes := lh;
  generate_level2 := generate_level2 c; level2_min_cluster_size := level2_min_cluster_size c
|}.

(** [w1] is reachable from [w0] by the service: the uuid counter only
    grows, every topic row of [w1] was already in [w0] or was created after
    [w0] (its id is not below [w0]'s counter), and the trace only grows. *)
Definition extends (w0 w1 : World) : Prop :=
  (next_uuid w0 <= next_uuid w1)%nat ∧
  (∀ t, t ∈ topics_tbl w1 → t ∈ topics_tbl w0 ∨ (next_uuid w0 <= t_id t)%nat) ∧
  ∃ suffix, trace w1 = trace w0 ++ suffix.

Definition preserves {A} (m : M A) : Prop :=
  ∀ w r w', m w = (r, w') → extends w w'.

(** The value a [result.get(key, dflt)[:n]] of [label_cluster] slices when
    slicing it succeeds: the member's string or array, the default string
    when the member is absent, or [None] when the member is of another kind
    (slicing it raises). *)
Definition json_text_member (ms : list (string * JSON)) (key dflt : string) : option JSON :=
  match assoc_last key ms with
  | None => Some (JString dflt)
  | Some (JString s) => Some (JString s)
  | Some (JArray items) => Some (JArray items)
  | Some _ => None
  end.

(** [v[:n]] of a string or an array. *)
Definition json_take (n : nat) (v : JSON) : JSON :=
  match v with
  | JString s => JString (String.substring 0 n s)
  | JArray items => JArray (take n items)
  | _ => v
  end.

(** The label [label_cluster] returns for a reply that parses to the JSON
    object [ms]. *)
Definition label_of_object (ms : list (string * JSON)) (cluster_size : Z) : TopicLabel :=
  match json_text_member ms "title" "Unnamed Category",
        json_text_member ms "description" "" with
  | Some t, Some d => {| title := json_take 255 t; description := json_take 500 d |}
  | _, _ => fallback_label cluster_size
  end.

(** [len(v) <= n] for a string or an array; no other kind of value. *)
Definition json_len_le (v : JSON) (n : nat) : Prop :=
  match v with
  | JString s => (String.length s <= n)%nat
  | JArray items => (length items <= n)%nat
  | _ => False
  end.

(** The chat reply of a [label_cluster] call gives no JSON object: the call
    raised, it has no content or an empty one, [json.loads] raised, or it
    parsed to something other than an object. *)
Definition reply_unusable (env : Env) (texts : list string) (cluster_size : Z)
    (parent_title : option string) (level : Z) (ancestor_titles : option (list string))
    : Prop :=
  match chat_complete env texts cluster_size parent_title level ancestor_titles with
  | Err _ | Ok None => True
  | Ok (Some c) =>
      c = "" ∨ match json_loads env c with Ok (JObject _) => False | _ => True end
  end.

(** A run of [generate_taxonomy env tenant_id (Some config)] from [w] gets to
    the loop over the Level 1 clusters: the job id [job_id] is drawn, the
    tenant's topics are cleared (leaving [wc]), rows are loaded, there is at
    least one, and the Level 1 reduction and clustering return
    [reduced_embeddings] and [cr]. *)
Definition reaches_level1_loop (env : Env) (tenant_id : string) (config : ClusterConfig)
    (w : World) (job_id : nat) (wc : World) (reduced_embeddings embeddings : list Vec)
    (texts : list string) (cr : ClusteringResult) : Prop :=
  ∃ w0 n record_ids,
    fresh_uuid w = (Ok job_id, w0) ∧
    clear_tenant_topics tenant_id w0 = (Ok n, wc) ∧
    load_embeddings_for_tenant tenant_id
      (py_or_int (max_embeddings config) settings_max_embeddings_per_tenant) wc =
      (Ok (record_ids, embeddings, texts), wc) ∧
    record_ids ≠ [] ∧
    fit_transform env (mk_UMAPReducer (umap_n_components config) (umap_n_neighbors config)
                         (umap_min_dist config)) embeddings = Ok reduced_embeddings ∧
    fit_predict env (mk_HDBSCANClusterer (hdbscan_min_cluster_size config)
                       (hdbscan_min_samples config) None)
      reduced_embeddings record_ids texts = Ok cr.

(** ** What a run may write

    The id and tenant of each feedback row (no function of the pipeline
    changes them), the ids of a tenant's rows among them, the rows and
    topics of the other tenants, and the confidences stored on a tenant's
    rows. *)
Definition fb_keys (w : World) : list (nat * string) :=
  map (λ fr, (f_id fr, f_tenant fr)) (feedback_tbl w).

Definition tenant_ids (K : list (nat * string)) (tenant_id : string) : list nat :=
  map fst (filter (λ k, k.2 = tenant_id) K).

Definition fb_others (tenant_id : string) (w : World) : list FeedbackRow :=
  filter (λ fr, f_tenant fr ≠ tenant_id) (feedback_tbl w).

Definition topic_others (tenant_id : string) (w : World) : list TopicRow :=
  filter (λ r, t_tenant r ≠ tenant_id) (topics_tbl w).

Definition conf_ok (tenant_id : string) (w : World) : Prop :=
  ∀ fr, fr ∈ feedback_tbl w → f_tenant fr = tenant_id →
    f_conf fr = None ∨ ∃ c, f_conf fr = Some c ∧ (0 <= c <= 1)%Q.

(** A feedback write of a run for [tenant_id] started on keys [K]: a row id
    of that tenant and a confidence in [0, 1] when norms are non-negative. *)
Definition write_ok (env : Env) (K : list (nat * string)) (tenant_id : string)
    (ev : Event) : Prop :=
  match ev with
  | EvUpdateFeedback rid _ c =>
      rid ∈ tenant_ids K tenant_id ∧ (0 <= c)%Q ∧ ((∀ v, 0 <= vnorm env v)%Q → (c <= 1)%Q)
  | _ => True
  end.

Definition writes_ok (env : Env) (K : list (nat * string)) (tenant_id : string) {A}
    (m : M A) : Prop :=
  ∀ w r w', fb_keys w = K → m w = (r, w') →
    fb_keys w' = K ∧
    (NoDup (map fst K) → fb_others tenant_id w' = fb_others tenant_id w) ∧
    topic_others tenant_id w' = topic_others tenant_id w ∧
    ((∀ v, 0 <= vnorm env v)%Q → conf_ok tenant_id w → conf_ok tenant_id w') ∧
    ∃ suffix, trace w' = trace w ++ suffix ∧ Forall (write_ok env K tenant_id) suffix.

(** A cluster whose members are ids of the tenant, with a non-negative
    average distance when norms are non-negative. *)
Definition tenant_cluster (env : Env) (K : list (nat * string)) (t : string) (c : Cluster)
    : Prop :=
  (∀ i, i ∈ member_ids c → i ∈ tenant_ids K t) ∧
  ((∀ v, 0 <= vnorm env v)%Q → (0 <= avg_distance_to_centroid c)%Q).

(** ** What a run returns *)

Definition returns {A} (Q : A → Prop) (m : M A) : Prop :=
  ∀ w a w', m w = (Ok a, w') → Q a.

(** A Level 1 topic followed by Level 2 topics whose parent it is. *)
Definition topic_group (g : list TopicResult) : Prop :=
  ∃ t1 rest, g = t1 :: rest ∧ tr_level t1 = 1 ∧ tr_parent_id t1 = None ∧
    Forall (λ t2, tr_level t2 = 2 ∧ tr_parent_id t2 = Some (tr_id t1)) rest.

(** The topics table only grows at its end and the uuid counter never goes
    back. *)
Definition grows (w w' : World) : Prop :=
  (∃ rows, topics_tbl w' = topics_tbl w ++ rows) ∧ (next_uuid w <= next_uuid w')%nat.

Definition grows_m {A} (m : M A) : Prop := ∀ w r w', m w = (r, w') → grows w w'.

(** The topics [ts] returned by a run from [w] to [w']: distinct ids drawn
    during the run, each the id of a row of the tenant in the final table
    with the same title, level and parent. *)
Definition saved_topics (t : string) (w w' : World) (ts : list TopicResult) : Prop :=
  NoDup (map tr_id ts) ∧
  Forall (λ tr, (next_uuid w <= tr_id tr < next_uuid w')%nat ∧
                ∃ row, row ∈ topics_tbl w' ∧ t_id row = tr_id tr ∧ t_title row = tr_title tr ∧
                  t_level row = tr_level tr ∧ t_parent row = tr_parent_id tr ∧
                  t_tenant row = t) ts.

Definition returns_saved {A} (t : string) (f : A → list TopicResult) (m : M A) : Prop :=
  ∀ w a w', m w = (Ok a, w') → saved_topics t w w' (f a).

(** ** The reducer object across calls ([src/clustering/umap_reducer.py])

    [self._reducer]: [None] until [fit_transform] gets a non-empty batch;
    then the [umap.UMAP] object it builds, fitted on the batch when its
    [fit_transform] returned ([None] in [um_fitted_on] when it raised: the
    attribute is assigned before the call). *)
Record UMAPModel := {
  um_n_components : Z;
  um_n_neighbors : Z;
  um_min_dist : Q;
  um_metric : string;
  um_fitted_on : option (list Vec)
}.

(** [fit_transform] with the reducer's [_reducer] attribute threaded. *)
Definition fit_transform_st (env : Env) (r : UMAPReducer) (st : option UMAPModel)
    (embeddings : list Vec) : Exc (list Vec) * option UMAPModel :=
  if decide (length embeddings = 0%nat) then (Ok [], st)
  else
    let n_neighbors := Z.min (r_n_neighbors r) (py_len embeddings - 1) in
    let m := {| um_n_components := r_n_components r; um_n_neighbors := n_neighbors;
                um_min_dist := r_min_dist r; um_metric := r_metric r;
                um_fitted_on := None |} in
    match umap_fit env (r_n_components r) n_neighbors (r_min_dist r) (r_metric r) embeddings with
    | Ok reduced => (Ok reduced, Some {| um_n_components := r_n_components r;
                                         um_n_neighbors := n_neighbors;
                                         um_min_dist := r_min_dist r; um_metric := r_metric r;
                                         um_fitted_on := Some embeddings |})
    | Err e => (Err e, Some m)
    end.

(** [transform]; [umap_transform] is [UMAP.transform] of the stored object. *)
Definition transform (umap_transform : UMAPModel → list Vec → Exc (list Vec))
    (st : option UMAPModel) (embeddings : list Vec) : Exc (list Vec) :=
  match st with
  | None => Err "ValueError: UMAP model not fitted. Call fit_transform first."
  | Some m => umap_transform m embeddings
  end.

(** The [_reducer] attribute after a sequence of [fit_transform] calls on a
    new reducer. *)
Definition reducer_after (env : Env) (r : UMAPReducer) (batches : list (list Vec))
    : option UMAPModel :=
  fold_left (λ st b, (fit_transform_st env r st b).2) batches None.

(** ** The HTTP layer ([src/main.py])

    The module-level [_jobs] dict is an association list in insertion order;
    a job's [uuid4()] is drawn from the same counter as the service's ids,
    and its [str] is rendered with [pretty]. *)
Record ClusteringJobResponse := {
  jr_job_id : nat;
  jr_tenant_id : string;
  jr_status : ClusteringJobStatus;
  jr_progress : Q;
  jr_message : option string;
  jr_result : option ClusterResult
}.

Record App := {
  jobs : list (string * ClusteringJobResponse);
  app_world : World
}.

(** [d[k] = v]: an existing key keeps its place, a new one goes last. *)
Fixpoint dict_set {V} (k : string) (v : V) (d : list (string * V)) : list (string * V) :=
  match d with
  | [] => [(k, v)]
  | (k', v') :: d' => if decide (k' = k) then (k', v) :: d' else (k', v') :: dict_set k v d'
  end.

Fixpoint dict_get {V} (k : string) (d : list (string * V)) : option V :=
  match d with
  | [] => None
  | (k', v') :: d' => if decide (k' = k) then Some v' else dict_get k d'
  end.

(** [d[k].attr = ...]: mutate the stored object in place. *)
Definition dict_modify {V} (k : string) (f : V → V) (d : list (string * V))
    : list (string * V) :=
  map (λ kv, if decide (kv.1 = k) then (kv.1, f kv.2) else kv) d.

Definition job_key (tenant_id job_id : string) : string := tenant_id +:+ ":" +:+ job_id.

Definition topics_message (r : ClusterResult) : string :=
  "Generated " +:+ pretty (length (cr_topics r)) +:+ " topics".

(** [trigger_clustering]: the response it returns and the key of the job,
    which the scheduled [run_clustering] closes over. *)
Definition trigger_clustering (tenant_id : string) (s : App)
    : ClusteringJobResponse * string * App :=
  let job_id := next_uuid (app_world s) in
  let job_key := job_key tenant_id (pretty job_id) in
  let job_response := {| jr_job_id := job_id; jr_tenant_id := tenant_id;
                         jr_status := PENDING; jr_progress := 0;
                         jr_message := Some "Job queued"; jr_result := None |} in
  (job_response, job_key,
   {| jobs := dict_set job_key job_response (jobs s);
      app_world := {| topics_tbl := topics_tbl (app_world s);
                      feedback_tbl := feedback_tbl (app_world s);
                      next_uuid := S job_id; trace := trace (app_world s) |} |}).

(** The background task [run_clustering] of [trigger_clustering]. A key
    missing from [_jobs] raises [KeyError] in the [try] and again in the
    [except] clause, so the task ends with nothing written. *)
Definition run_clustering (env : Env) (tenant_id : string) (config : option ClusterConfig)
    (job_key : string) (s : App) : App :=
  match dict_get job_key (jobs s) with
  | None => s
  | Some _ =>
      let js := dict_modify job_key (λ j, {| jr_job_id := jr_job_id j;
                  jr_tenant_id := jr_tenant_id j; jr_status := RUNNING;
                  jr_progress := 1 # 10; jr_message := Some "Loading embeddings...";
                  jr_result := jr_result j |}) (jobs s) in
      match generate_taxonomy env tenant_id config (app_world s) with
      | (Ok result, w') =>
          {| jobs := dict_modify job_key (λ j, {| jr_job_id := jr_job_id j;
                       jr_tenant_id := jr_tenant_id j; jr_status := cr_status result;
                       jr_progress := 1; jr_message := Some (topics_message result);
                       jr_result := Some result |}) js;
             app_world := w' |}
      | (Err e, w') =>
          {| jobs := dict_modify job_key (λ j, {| jr_job_id := jr_job_id j;
                       jr_tenant_id := jr_tenant_id j; jr_status := FAILED;
                       jr_progress := jr_progress j; jr_message := Some e;
                       jr_result := jr_result j |}) js;
             app_world := w' |}
      end
  end.

(** [get_clustering_status]; [if job_id:] treats an empty id as absent. *)
Definition get_clustering_status (s : App) (tenant_id : string) (job_id : option string)
    : Exc ClusteringJobResponse :=
  let latest :=
    match last (filter (λ kv, String.prefix (tenant_id +:+ ":") kv.1 = true) (jobs s)) with
    | Some (_, job) => Ok job
    | None => Err "HTTPException 404: No jobs found for tenant"
    end in
  match job_id with
  | Some jid =>
      if decide (jid = "") then latest
      else match dict_get (job_key tenant_id jid) (jobs s) with
           | Some job => Ok job
           | None => Err "HTTPException 404: Job not found"
           end
  | None => latest
  end.

(** [sync_clustering] *)
Definition sync_clustering (env : Env) (tenant_id : string) (config : option ClusterConfig)
    (s : App) : Exc ClusteringJobResponse * App :=
  let job_id := next_uuid (app_world s) in
  let w := {| topics_tbl := topics_tbl (app_world s); feedback_tbl := feedback_tbl (app_world s);
              next_uuid := S job_id; trace := trace (app_world s) |} in
  match generate_taxonomy env tenant_id config w with
  | (Ok result, w') =>
      (Ok {| jr_job_id := job_id; jr_tenant_id := tenant_id; jr_status := cr_status result;
             jr_progress := 1; jr_message := Some (topics_message result);
             jr_result := Some result |}, {| jobs := jobs s; app_world := w' |})
  | (Err e, w') => (Err e, {| jobs := jobs s; app_world := w' |})
  end.

(** * Theorems *)

(** ** Runs of the pipeline on explicit inputs *)


(** C2 (counterexample): two groups of 100 records make two Level 1
    clusters under the default configuration; UMAP raises on the first
    cluster's Level 2 sub-clustering. The whole build returns [FAILED] with
    no topic, and the sibling cluster is never processed (a single topic was
    saved). *)
Lemma level2_reduction_failure_fails_build :
  ∃ r w',
    generate_taxonomy (demo_env umap_fails_at_level2 hdb_dense_groups embed_ok) "acme"
      None (two_blob_world "acme" 100 200 []) = (Ok r, w') ∧
    cr_status r = FAILED ∧ cr_topics r = [] ∧
    level2_calls (trace w') = 1%nat ∧ topic_saves (trace w') = 1%nat.
Proof.
  do 2 eexists. split; [vm_compute; reflexivity |].
  repeat split; reflexivity.
Qed.

(** C3 (code_bug): under the valid configuration
    [ClusterConfig(hdbscan_min_cluster_size=20)] the Level 1 subdivision
    threshold [get_min_cluster_size_for_level 1] is 40; two groups of 40
    records make two Level 1 clusters of exactly 40 records, yet no Level 2
    call is made: the gate uses [level2_min_cluster_size = 50] instead. *)
Theorem threshold_sized_cluster_not_subdivided :
  ∃ r w',
    config_valid config_mcs_20 = true ∧
    get_min_cluster_size_for_level config_mcs_20 1 = 40 ∧
    generate_taxonomy (demo_env umap_identity hdb_dense_groups embed_ok) "acme"
      (Some config_mcs_20) (two_blob_world "acme" 40 80 []) = (Ok r, w') ∧
    cr_status r = COMPLETED ∧
    map tr_cluster_size (cr_topics r) = [40; 40] ∧
    level2_calls (trace w') = 0%nat.
Proof.
  do 2 eexists. split; [vm_compute; reflexivity |].
  split; [vm_compute; reflexivity |].
  split; [vm_compute; reflexivity |].
  repeat split; reflexivity.
Qed.

(** C4 (counterexample): the tenant has a topic from an earlier build;
    UMAP raises. The build returns [FAILED] with no topic, and the earlier
    topic is gone from the topics table. *)
Lemma failed_build_leaves_prior_topics_deleted :
  ∃ r w',
    generate_taxonomy (demo_env umap_always_fails hdb_dense_groups embed_ok) "acme"
      None (demo_world "acme" 100 [prior_topic]) = (Ok r, w') ∧
    cr_status r = FAILED ∧ cr_topics r = [] ∧
    prior_topic ∈ topics_tbl (demo_world "acme" 100 [prior_topic]) ∧
    prior_topic ∉ topics_tbl w'.
Proof.
  do 2 eexists. split; [vm_compute; reflexivity |].
  split; [reflexivity |]. split; [reflexivity |].
  split; [left | cbn; apply not_elem_of_nil].
Qed.


(** ** Representative selection ([get_closest_to_centroid]) *)

Lemma key_le_total ds : Total (key_le ds).
Proof.
  intros i j. unfold key_le. rewrite !Qle_bool_iff.
  destruct (Qlt_le_dec (default 0%Q (ds !! i)) (default 0%Q (ds !! j))) as [H|H].
  - left. now apply Qlt_le_weak.
  - right. exact H.
Qed.

Lemma stable_argsort_contract umap hdb emb : argsort_contract (demo_env umap hdb emb).
Proof.
  intros ds. cbn. unfold stable_argsort. split.
  - apply merge_sort_Permutation.
  - pose proof (key_le_total ds). apply (Sorted_merge_sort (key_le ds)); auto.
Qed.

(** C6 (counterexample): numpy's default argsort ([np_argsort], the
    introsort [aquicksort_]) on 17 equal distances returns a permutation
    that orders them (all keys are equal) but not in member order. On the
    17 members of [cluster17], all at the centroid,
    [get_closest_to_centroid] therefore returns members 0, 14, 13, ... for
    [n = 10]: equal distances do not come in the original member order. *)
Lemma closest_ties_not_in_member_order :
  np_argsort (replicate 17 0%Q) =
    [0; 14; 13; 12; 11; 10; 9; 15; 8; 6; 5; 4; 3; 2; 1; 7; 16]%nat ∧
  np_argsort (replicate 17 0%Q) ≡ₚ seq 0 17 ∧
  Sorted (key_le (replicate 17 0%Q)) (np_argsort (replicate 17 0%Q)) ∧
  ∃ res, get_closest_to_centroid np_env cluster17 embeddings17 10 = Ok res ∧
    map (λ x, x.1.1) res = [0; 14; 13; 12; 11; 10; 9; 15; 8; 6]%nat ∧
    ¬ ties_in_member_order res ∧
    ¬ closest_claim np_env.
Proof.
  assert (Hsort : np_argsort (replicate 17 0%Q) =
                    [0; 14; 13; 12; 11; 10; 9; 15; 8; 6; 5; 4; 3; 2; 1; 7; 16]%nat)
    by (vm_compute; reflexivity).
  split; [exact Hsort |]. split.
  { rewrite <- (merge_sort_Permutation Nat.le (np_argsort (replicate 17 0%Q))).
    vm_compute. reflexivity. }
  split.
  { rewrite Hsort. repeat constructor. }
  set (res := map (λ i : nat, (i, pretty i, 0%Q)) [0; 14; 13; 12; 11; 10; 9; 15; 8; 6]%nat).
  assert (E : get_closest_to_centroid np_env cluster17 embeddings17 10 = Ok res)
    by (vm_compute; reflexivity).
  assert (Hties : ¬ ties_in_member_order res).
  { intros H. assert (Hlt : (14 < 13)%nat).
    { apply (H 1%nat 14%nat (pretty 14%nat) 0%Q 13%nat (pretty 13%nat) 0%Q);
        [vm_compute; reflexivity | vm_compute; reflexivity | reflexivity]. }
    lia. }
  exists res. split; [exact E |]. split; [vm_compute; reflexivity |].
  split; [exact Hties |].
  intros Hclaim.
  destruct (Hclaim cluster17 embeddings17 10 res E) as (_ & _ & _ & H).
  exact (Hties H).
Qed.

(** *** Lemmas on the Python helpers *)

Lemma mapM_exc_ok {A B} (f : A → Exc B) (g : A → B) (l : list A) :
  (∀ x, x ∈ l → f x = Ok (g x)) → mapM f l = Ok (map g l).
Proof.
  induction l as [|x l IH]; intros Hf; [reflexivity |].
  cbn. rewrite (Hf x) by (left). cbn.
  rewrite IH by (intros y Hy; apply Hf; right; exact Hy). reflexivity.
Qed.

Lemma mapM_exc_inv {A B} (f : A → Exc B) (l : list A) (r : list B) :
  mapM f l = Ok r → Forall2 (λ x y, f x = Ok y) l r.
Proof.
  revert r. induction l as [|x l IH]; intros r Hm; cbn in Hm.
  - injection Hm as <-. constructor.
  - destruct (f x) as [y|e] eqn:Hfx; cbn in Hm; [| discriminate].
    destruct (mapM f l) as [ys|e] eqn:Hl; cbn in Hm; [| discriminate].
    injection Hm as <-. constructor; [exact Hfx | apply IH; reflexivity].
Qed.

Lemma py_index_ok {A} `{Inhabited A} (l : list A) i :
  (i < length l)%nat → py_index l i = Ok (l !!! i).
Proof.
  intros Hi. unfold py_index. destruct (lookup_lt_is_Some_2 l i Hi) as [x Hx].
  rewrite Hx. rewrite (list_lookup_total_correct l i x Hx). reflexivity.
Qed.

Lemma py_gather_ok {A} `{Inhabited A} (l : list A) idxs :
  (∀ i, i ∈ idxs → (i < length l)%nat) → py_gather l idxs = Ok (map (λ i, l !!! i) idxs).
Proof.
  intros Hi. unfold py_gather. apply mapM_exc_ok.
  intros i Hin. apply py_index_ok, Hi, Hin.
Qed.

Lemma Sorted_take {A} (R : relation A) (l : list A) k :
  Sorted R l → Sorted R (take k l).
Proof.
  revert k. induction l as [|x l IH]; intros k Hs; [rewrite take_nil; constructor |].
  destruct k as [|k]; [constructor |]. cbn.
  apply Sorted_inv in Hs as [Hs Hhd]. constructor; [apply IH, Hs |].
  destruct l as [|y l], k as [|k]; cbn; try constructor.
  inversion Hhd; subst. assumption.
Qed.

(** C6 (amended): for [n >= 0], [get_closest_to_centroid] returns exactly
    [min(n, cluster.size)] entries, each a member of the cluster paired
    with that member's text, in non-decreasing order of distance to the
    centroid. (The order among equal distances is whatever [np.argsort]
    leaves; see [closest_ties_not_in_member_order].) *)
Theorem closest_to_centroid_selection (env : Env) (c : Cluster) (X : list Vec) (n : Z) :
  argsort_contract env →
  0 <= n →
  length (member_texts c) = length (member_indices c) →
  (∀ i, i ∈ member_indices c → (i < length X)%nat) →
  ∃ res, get_closest_to_centroid env c X n = Ok res ∧
    length res = Nat.min (Z.to_nat n) (length (member_indices c)) ∧
    (∀ k g t d, res !! k = Some (g, t, d) →
       ∃ li, member_indices c !! li = Some g ∧ member_texts c !! li = Some t ∧
             d = vnorm env (vsub (X !!! g) (centroid c))) ∧
    Sorted Qle (map (λ x, x.2) res).
Proof.
  intros Hsort Hn Htexts Hidx.
  unfold get_closest_to_centroid.
  rewrite (py_gather_ok X (member_indices c) Hidx). cbn [mbind Exc_bind].
  set (ds := map (λ row, vnorm env (vsub row (centroid c)))
                 (map (λ i, X !!! i) (member_indices c))).
  assert (Hlen : length ds = length (member_indices c)) by (subst ds; rewrite !length_map; done).
  destruct (Hsort ds) as [Hperm Hsorted].
  set (p := argsort env ds) in *.
  assert (Hslice : py_slice_upto p n = take (Z.to_nat n) p).
  { unfold py_slice_upto. rewrite decide_True by lia. reflexivity. }
  rewrite Hslice.
  assert (Hin : ∀ li, li ∈ take (Z.to_nat n) p → (li < length (member_indices c))%nat).
  { intros li Hli. apply elem_of_take in Hli as (j & Hj & _).
    assert (Hlp : li ∈ seq 0 (length ds)).
    { rewrite <- Hperm. apply list_elem_of_lookup. eauto. }
    apply elem_of_seq in Hlp. lia. }
  set (g := λ li : nat, (member_indices c !!! li, member_texts c !!! li, ds !!! li)).
  rewrite (mapM_exc_ok _ g).
  2:{ intros li Hli. specialize (Hin li Hli). subst g. cbn.
      rewrite (py_index_ok (member_indices c) li Hin). cbn.
      rewrite (py_index_ok (member_texts c) li) by lia. cbn.
      rewrite (py_index_ok ds li) by lia. reflexivity. }
  eexists. split; [reflexivity |].
  split; [| split].
  - rewrite length_map, length_take.
    apply Permutation_length in Hperm. rewrite length_seq in Hperm. lia.
  - intros k gi t d Hk. apply list_lookup_fmap_Some_1 in Hk as (li & Hgl & Hli).
    subst g. cbn in Hgl. injection Hgl as -> -> ->.
    assert (Hm : li ∈ take (Z.to_nat n) p) by (apply list_elem_of_lookup; eauto).
    specialize (Hin li Hm). exists li. split; [| split].
    + apply list_lookup_lookup_total_lt. exact Hin.
    + apply list_lookup_lookup_total_lt. lia.
    + destruct (lookup_lt_is_Some_2 (member_indices c) li Hin) as [g0 Hg0].
      rewrite (list_lookup_total_correct _ _ _ Hg0).
      apply list_lookup_total_correct. subst ds.
      rewrite !list_lookup_fmap, Hg0. reflexivity.
  - rewrite map_map. subst g. cbn.
    change (map (λ x : nat, ds !!! x) (take (Z.to_nat n) p))
      with ((λ x : nat, ds !!! x) <$> take (Z.to_nat n) p).
    apply (Sorted_fmap _ (key_le ds)); [| apply Sorted_take, Hsorted].
    intros x y Hxy. unfold key_le in Hxy. apply Qle_bool_iff in Hxy.
    rewrite !list_lookup_total_alt. exact Hxy.
Qed.

(** ** The discoverer partitions the input ([fit_predict]) *)

Lemma mapM_exc_ok_ex {A B} (f : A → Exc B) (P : A → B → Prop) (l : list A) :
  (∀ x, x ∈ l → ∃ y, f x = Ok y ∧ P x y) →
  ∃ r, mapM f l = Ok r ∧ Forall2 P l r.
Proof.
  induction l as [|x l IH]; intros Hf; [exists []; split; [reflexivity | constructor] |].
  destruct (Hf x (list_elem_of_here x l)) as (y & Hy & HP).
  destruct IH as (r & Hr & HF); [intros z Hz; apply Hf; right; exact Hz |].
  exists (y :: r). cbn. rewrite Hy. cbn. rewrite Hr. split; [reflexivity | constructor; auto].
Qed.

Lemma elem_of_indices_with (labels : list Z) l i :
  i ∈ indices_with labels l ↔ labels !! i = Some l.
Proof.
  unfold indices_with. rewrite list_elem_of_filter, elem_of_seq. split.
  - intros [H _]. exact H.
  - intros H. split; [exact H |]. apply lookup_lt_Some in H. lia.
Qed.

Lemma indices_with_bound (labels : list Z) l i :
  i ∈ indices_with labels l → (i < length labels)%nat.
Proof. intros H. apply elem_of_indices_with, lookup_lt_Some in H. exact H. Qed.

Lemma elem_of_unique_labels (labels : list Z) l :
  l ∈ unique_labels labels ↔ l ∈ labels ∧ l ≠ -1.
Proof.
  unfold unique_labels. rewrite merge_sort_Permutation, elem_of_elements.
  rewrite elem_of_difference, elem_of_list_to_set, elem_of_singleton. reflexivity.
Qed.

Lemma NoDup_unique_labels (labels : list Z) : NoDup (unique_labels labels).
Proof. unfold unique_labels. rewrite merge_sort_Permutation. apply NoDup_elements. Qed.

Lemma length_filter_eq_NoDup (l : list Z) (a : Z) :
  NoDup l → length (filter (λ x, x = a) l) = (if decide (a ∈ l) then 1 else 0)%nat.
Proof.
  induction 1 as [|x l Hx Hnd IH]; [reflexivity |].
  rewrite filter_cons. destruct (decide (x = a)) as [->|Hne].
  - cbn. rewrite IH. rewrite decide_False by exact Hx. rewrite decide_True by (left). reflexivity.
  - rewrite IH. destruct (decide (a ∈ l)) as [Ha|Ha].
    + rewrite decide_True by (right; exact Ha). reflexivity.
    + rewrite decide_False; [reflexivity |]. intros Hin.
      apply elem_of_cons in Hin as [->|Hin]; [apply Hne; reflexivity | exact (Ha Hin)].
Qed.

Lemma build_cluster_ok env (X : list Vec) (ids : list nat) (texts : list string)
    (labels : list Z) l :
  length labels = length X → length ids = length X → length texts = length X →
  ∃ cl, build_cluster env X ids texts labels l = Ok cl ∧
        member_indices cl = indices_with labels l.
Proof.
  intros HL HI HT. unfold build_cluster. rewrite decide_False by lia.
  assert (Hb : ∀ (B : Type) (m : list B), length m = length X →
                 ∀ i, i ∈ indices_with labels l → (i < length m)%nat).
  { intros B m Hm i Hi. apply indices_with_bound in Hi. lia. }
  rewrite (py_gather_ok X _ (Hb _ X eq_refl)). cbn.
  rewrite (py_gather_ok ids _ (Hb _ ids HI)). cbn.
  rewrite (py_gather_ok texts _ (Hb _ texts HT)). cbn.
  eexists. split; reflexivity.
Qed.

Lemma filter_clusters_length i (us : list Z) (cs : list Cluster) (labels : list Z) :
  Forall2 (λ l cl, member_indices cl = indices_with labels l) us cs →
  length (filter (λ cl, i ∈ member_indices cl) cs) =
  length (filter (λ l, l = default 0 (labels !! i) ∧ is_Some (labels !! i)) us).
Proof.
  induction 1 as [|l cl us cs Hm _ IH]; [reflexivity |].
  rewrite !filter_cons.
  destruct (decide (i ∈ member_indices cl)) as [H1|H1];
    destruct (decide (l = default 0 (labels !! i) ∧ is_Some (labels !! i))) as [H2|H2];
    cbn; rewrite ?IH; try reflexivity; exfalso.
  - apply H2. rewrite Hm, elem_of_indices_with in H1. rewrite H1.
    split; [reflexivity | eexists; reflexivity].
  - apply H1. rewrite Hm, elem_of_indices_with. destruct H2 as [-> [v Hv]].
    rewrite Hv. reflexivity.
Qed.

(** C8: on a non-empty batch, when HDBSCAN returns one label per point,
    [fit_predict] returns a result in which every input index lies in
    exactly one cluster's member set or in the noise set, and no other
    index appears. *)
Theorem fit_predict_partitions (env : Env) (self : HDBSCANClusterer) (X : list Vec)
    (ids : list nat) (texts : list string) (lbls : list Z) (probs : list Q) :
  X ≠ [] →
  hdbscan_fit env (c_min_cluster_size self) (c_min_samples self)
    (c_cluster_selection_epsilon self) X = Ok (lbls, probs) →
  length lbls = length X → length ids = length X → length texts = length X →
  ∃ r, fit_predict env self X ids texts = Ok r ∧ partitions_indices (length X) r.
Proof.
  intros HX Hhdb HL HI HT. unfold fit_predict.
  rewrite decide_False by (destruct X; [contradiction | discriminate]).
  rewrite Hhdb. cbn [mbind Exc_bind].
  rewrite (py_gather_ok ids (indices_with lbls (-1)))
    by (intros i Hi; apply indices_with_bound in Hi; lia).
  cbn [mbind Exc_bind].
  destruct (mapM_exc_ok_ex (build_cluster env X ids texts lbls)
              (λ l cl, member_indices cl = indices_with lbls l) (unique_labels lbls))
    as (cs & Hcs & HF).
  { intros l _. apply build_cluster_ok; assumption. }
  rewrite Hcs. cbn. eexists. split; [reflexivity |].
  assert (Hmult : ∀ i, index_multiplicity
                    {| clusters := cs; noise_indices := indices_with lbls (-1);
                       noise_ids := map (λ i, ids !!! i) (indices_with lbls (-1));
                       labels := lbls; probabilities := probs |} i =
                  Nat.add
                    (if decide (default 0 (lbls !! i) ∈ unique_labels lbls ∧ is_Some (lbls !! i))
                     then 1%nat else 0%nat)
                    (if decide (lbls !! i = Some (-1)) then 1%nat else 0%nat)).
  { intros i. unfold index_multiplicity. cbn [clusters noise_indices].
    rewrite (filter_clusters_length i _ _ _ HF).
    f_equal.
    - destruct (lbls !! i) as [l0|] eqn:Hli; cbn.
      + rewrite (list_filter_iff _ (λ x, x = l0)) by (intros x; split;
            [intros [H _]; exact H | intros H; split; [exact H | eexists; reflexivity]]).
        rewrite length_filter_eq_NoDup by apply NoDup_unique_labels.
        destruct (decide (l0 ∈ unique_labels lbls)) as [H1|H1];
          destruct (decide (l0 ∈ unique_labels lbls ∧ is_Some (Some l0))) as [H2|H2];
          try reflexivity.
        * exfalso. apply H2. split; [exact H1 | eexists; reflexivity].
        * exfalso. apply H1, H2.
      + rewrite (list_filter_iff _ (λ _, False)) by (intros x; split;
            [intros [_ [? H]]; discriminate | intros []]).
        rewrite decide_False by (intros [_ [? H]]; discriminate).
        generalize (unique_labels lbls). intros us.
        induction us; [reflexivity |]. rewrite filter_cons_False; auto.
    - destruct (decide (i ∈ indices_with lbls (-1))) as [H|H];
        destruct (decide (lbls !! i = Some (-1))) as [H'|H']; try reflexivity.
      + exfalso. apply H', elem_of_indices_with, H.
      + exfalso. apply H, elem_of_indices_with, H'. }
  split.
  - intros i Hi. rewrite Hmult.
    destruct (lookup_lt_is_Some_2 lbls i) as [l0 Hl0]; [lia |]. rewrite Hl0. cbn.
    assert (Hin : l0 ∈ lbls) by (apply list_elem_of_lookup; eauto).
    destruct (decide (l0 = -1)) as [->|Hne].
    + rewrite decide_False by (intros [H _]; apply elem_of_unique_labels in H as [_ H]; lia).
      rewrite decide_True by reflexivity. reflexivity.
    + rewrite decide_True by (split; [apply elem_of_unique_labels; auto | eexists; reflexivity]).
      rewrite decide_False by (intros H; injection H; lia). reflexivity.
  - intros i Hi. rewrite Hmult. rewrite lookup_ge_None_2 by lia. cbn.
    rewrite decide_False by (intros [_ [? H]]; discriminate).
    rewrite decide_False by discriminate. reflexivity.
Qed.

(** ** Effects of the service on the world *)

Lemma extends_refl w : extends w w.
Proof. split; [lia | split; [auto | exists []; rewrite app_nil_r; reflexivity]]. Qed.

Lemma extends_trans w0 w1 w2 : extends w0 w1 → extends w1 w2 → extends w0 w2.
Proof.
  intros (H1 & H2 & s1 & T1) (H3 & H4 & s2 & T2). split; [lia |]. split.
  - intros t Ht. destruct (H4 t Ht) as [Ht'|Ht']; [| right; lia].
    destruct (H2 t Ht') as [?|?]; [left; assumption | right; lia].
  - exists (s1 ++ s2). rewrite T2, T1, app_assoc. reflexivity.
Qed.

Lemma bind_run {A B} (m : M A) (f : A → M B) w :
  (m ≫= f) w = match m w with (Ok a, w') => f a w' | (Err e, w') => (Err e, w') end.
Proof. reflexivity. Qed.

Lemma ret_run {A} (a : A) w : (mret a : M A) w = (Ok a, w).
Proof. reflexivity. Qed.

Lemma preserves_ret {A} (a : A) : preserves (mret a).
Proof. intros w r w' H. injection H as _ <-. apply extends_refl. Qed.

Lemma preserves_lift {A} (x : Exc A) : preserves (lift x).
Proof. intros w r w' H. injection H as _ <-. apply extends_refl. Qed.

Lemma preserves_bind {A B} (m : M A) (f : A → M B) :
  preserves m → (∀ a, preserves (f a)) → preserves (m ≫= f).
Proof.
  intros Hm Hf w r w'. rewrite bind_run.
  destruct (m w) as [[a|e] w1] eqn:E; intros H.
  - apply (extends_trans _ w1); [exact (Hm _ _ _ E) | exact (Hf a _ _ _ H)].
  - injection H as _ <-. exact (Hm _ _ _ E).
Qed.

Lemma preserves_try_except {A} (m : M A) (h : string → M A) :
  preserves m → (∀ e, preserves (h e)) → preserves (try_except m h).
Proof.
  intros Hm Hh w r w'. unfold try_except.
  destruct (m w) as [[a|e] w1] eqn:E; intros H.
  - injection H as _ <-. exact (Hm _ _ _ E).
  - apply (extends_trans _ w1); [exact (Hm _ _ _ E) | exact (Hh e _ _ _ H)].
Qed.

Lemma preserves_mapM {A B} (f : A → M B) (l : list A) :
  (∀ x, preserves (f x)) → preserves (mapM f l).
Proof.
  intros Hf. induction l as [|x l IH]; cbn.
  - apply preserves_ret.
  - apply preserves_bind; [apply Hf | intros y].
    apply preserves_bind; [apply IH | intros ys]. apply preserves_ret.
Qed.

Lemma preserves_emit ev : preserves (emit ev).
Proof.
  intros w r w' H. injection H as _ <-. split; [cbn; lia | split].
  - intros t Ht. left. exact Ht.
  - exists [ev]. reflexivity.
Qed.

Lemma preserves_fresh_uuid : preserves fresh_uuid.
Proof.
  intros w r w' H. injection H as _ <-. split; [cbn; lia | split].
  - intros t Ht. left. exact Ht.
  - exists []. cbn. rewrite app_nil_r. reflexivity.
Qed.

Lemma preserves_get_world : preserves get_world.
Proof. intros w r w' H. injection H as _ <-. apply extends_refl. Qed.

(** What [save_topic] does to the world. *)
Lemma save_topic_run tenant_id ttl desc level parent emb w :
  save_topic tenant_id ttl desc level parent emb w =
  (Ok (next_uuid w),
   {| topics_tbl := topics_tbl w ++
        [{| t_id := next_uuid w; t_title := ttl; t_level := level; t_parent := parent;
            t_tenant := tenant_id; t_embedding := emb |}];
      feedback_tbl := feedback_tbl w;
      next_uuid := S (next_uuid w);
      trace := trace w ++ [EvSaveTopic (next_uuid w) level parent] |}).
Proof. reflexivity. Qed.

Lemma preserves_save_topic tenant_id ttl desc level parent emb :
  preserves (save_topic tenant_id ttl desc level parent emb).
Proof.
  intros w r w'. rewrite save_topic_run. intros H. injection H as _ <-.
  split; [cbn; lia | split].
  - intros t Ht. cbn in Ht. apply elem_of_app in Ht as [Ht|Ht]; [left; exact Ht |].
    apply list_elem_of_singleton in Ht as ->. right. cbn. lia.
  - eexists. reflexivity.
Qed.

Lemma update_feedback_topic_run rid tid conf w :
  ∃ fs, update_feedback_topic rid tid conf w =
  (Ok (), {| topics_tbl := topics_tbl w; feedback_tbl := fs; next_uuid := next_uuid w;
             trace := trace w ++ [EvUpdateFeedback rid tid conf] |}).
Proof.
  eexists. cbv [update_feedback_topic mbind M_bind get_world set_tables emit]. reflexivity.
Qed.

(** What [update_members] appends to the trace: one write per member, all
    with the same confidence. *)
Lemma update_members_run ids tid avg w :
  ∃ fs, update_members ids tid avg w =
  (Ok (), {| topics_tbl := topics_tbl w; feedback_tbl := fs; next_uuid := next_uuid w;
             trace := trace w ++ map (λ rid, EvUpdateFeedback rid tid (confidence_of avg)) ids |}).
Proof.
  revert w. induction ids as [|rid ids IH]; intros w.
  - exists (feedback_tbl w). cbn. rewrite app_nil_r. destruct w; reflexivity.
  - cbn [update_members]. rewrite bind_run.
    destruct (update_feedback_topic_run rid tid (confidence_of avg) w) as [fs1 ->].
    destruct (IH {| topics_tbl := topics_tbl w; feedback_tbl := fs1; next_uuid := next_uuid w;
                    trace := trace w ++ [EvUpdateFeedback rid tid (confidence_of avg)] |})
      as [fs2 ->].
    exists fs2. cbn. rewrite <- app_assoc. reflexivity.
Qed.

Lemma preserves_update_members ids tid avg : preserves (update_members ids tid avg).
Proof.
  intros w r w'. destruct (update_members_run ids tid avg w) as [fs ->]. intros H.
  injection H as _ <-. split; [cbn; lia | split].
  - intros t Ht. left. exact Ht.
  - eexists. reflexivity.
Qed.

Lemma clear_tenant_topics_run tenant_id w :
  ∃ fs n, clear_tenant_topics tenant_id w =
  (Ok n, {| topics_tbl := filter (λ t, t_tenant t ≠ tenant_id) (topics_tbl w);
            feedback_tbl := fs; next_uuid := next_uuid w;
            trace := trace w ++ [EvClearTopics tenant_id] |}).
Proof.
  do 2 eexists.
  cbv [clear_tenant_topics mbind M_bind mret M_ret get_world set_tables emit]. reflexivity.
Qed.

Lemma preserves_clear_tenant_topics tenant_id : preserves (clear_tenant_topics tenant_id).
Proof.
  intros w r w'. destruct (clear_tenant_topics_run tenant_id w) as (fs & n & ->). intros H.
  injection H as _ <-. split; [cbn; lia | split].
  - intros t Ht. cbn in Ht. apply list_elem_of_filter in Ht as [_ Ht]. left. exact Ht.
  - eexists. reflexivity.
Qed.

Lemma preserves_load tenant_id limit : preserves (load_embeddings_for_tenant tenant_id limit).
Proof. intros w r w' H. injection H as _ <-. apply extends_refl. Qed.

Create HintDb preserves_db.
#[local] Hint Resolve preserves_ret preserves_lift preserves_emit preserves_fresh_uuid
  preserves_get_world preserves_save_topic preserves_update_members
  preserves_clear_tenant_topics preserves_load : preserves_db.

Ltac solve_preserves :=
  repeat (match goal with
          | |- preserves (mbind _ _) => apply preserves_bind; [| intros ?]
          | |- preserves (try_except _ _) => apply preserves_try_except; [| intros ?]
          | |- preserves (mapM _ _) => apply preserves_mapM; intros ?
          | |- preserves (if ?b then _ else _) => destruct b
          | |- preserves (match ?x with _ => _ end) => destruct x
          | |- preserves _ => eauto with preserves_db
          end; cbn zeta).

Lemma preserves_level2_cluster_step env tenant_id pid ptitle reduced sc :
  preserves (level2_cluster_step env tenant_id pid ptitle reduced sc).
Proof. unfold level2_cluster_step. solve_preserves. Qed.

Lemma preserves_generate_level2_topics env tenant_id pid ptitle c emb texts cfg :
  preserves (generate_level2_topics env tenant_id pid ptitle c emb texts cfg).
Proof.
  unfold generate_level2_topics. solve_preserves.
  apply preserves_level2_cluster_step.
Qed.

Lemma preserves_level1_topic_step env tenant_id red c :
  preserves (level1_topic_step env tenant_id red c).
Proof. unfold level1_topic_step. solve_preserves. Qed.

Lemma preserves_level1_cluster_step env tenant_id cfg red emb texts c :
  preserves (level1_cluster_step env tenant_id cfg red emb texts c).
Proof.
  unfold level1_cluster_step.
  apply preserves_bind; [apply preserves_level1_topic_step | intros t].
  solve_preserves. apply preserves_generate_level2_topics.
Qed.

Lemma preserves_level1_loop env tenant_id cfg red emb texts cs :
  preserves (level1_loop env tenant_id cfg red emb texts cs).
Proof.
  induction cs as [|c cs IH]; cbn [level1_loop]; solve_preserves;
    auto using preserves_level1_cluster_step.
Qed.

Lemma bind_ext {A B} (m m' : M A) (f f' : A → M B) w :
  (∀ w, m w = m' w) → (∀ a w, f a w = f' a w) → (m ≫= f) w = (m' ≫= f') w.
Proof.
  intros Hm Hf. rewrite !bind_run, Hm. destruct (m' w) as [[a|e] w1]; [apply Hf | reflexivity].
Qed.

Lemma try_except_ext {A} (m m' : M A) (h : string → M A) w :
  (∀ w, m w = m' w) → try_except m h w = try_except m' h w.
Proof. intros Hm. unfold try_except. rewrite Hm. reflexivity. Qed.

(** ** Which configuration fields the pipeline reads *)

Lemma level1_cluster_step_level_fields env tenant_id c ml lm lh red emb texts cl :
  level1_cluster_step env tenant_id c red emb texts cl =
  level1_cluster_step env tenant_id (with_level_fields c ml lm lh) red emb texts cl.
Proof. reflexivity. Qed.

Lemma level1_loop_level_fields env tenant_id c ml lm lh red emb texts cs w :
  level1_loop env tenant_id c red emb texts cs w =
  level1_loop env tenant_id (with_level_fields c ml lm lh) red emb texts cs w.
Proof.
  revert w. induction cs as [|cl cs IH]; intros w; [reflexivity |]. cbn [level1_loop].
  apply bind_ext; [intros w1; rewrite <- level1_cluster_step_level_fields; reflexivity |].
  intros ts w1. apply bind_ext; [exact IH | reflexivity].
Qed.

Lemma generate_taxonomy_try_level_fields env tenant_id c ml lm lh job w :
  generate_taxonomy_try env tenant_id c job w =
  generate_taxonomy_try env tenant_id (with_level_fields c ml lm lh) job w.
Proof.
  unfold generate_taxonomy_try.
  apply bind_ext; [reflexivity | intros _ w1]. cbv beta zeta.
  apply bind_ext; [reflexivity | intros [[ids embs] txts] w2]. cbv beta iota.
  destruct (decide _); [reflexivity |].
  apply bind_ext; [reflexivity | intros red w3].
  apply bind_ext; [reflexivity | intros cr w4].
  apply bind_ext; [intros w5; apply level1_loop_level_fields | reflexivity].
Qed.

(** C10: [generate_taxonomy] never reads [max_levels],
    [level_min_cluster_sizes] or [level_hdbscan_min_cluster_sizes]: two runs
    from the same database whose configurations differ only in these three
    fields give the same result (status, counts, topic list) and the same
    final world (topic and feedback tables, trace of writes). *)
Theorem generate_taxonomy_ignores_level_fields env tenant_id c ml lm lh w :
  generate_taxonomy env tenant_id (Some c) w =
  generate_taxonomy env tenant_id (Some (with_level_fields c ml lm lh)) w.
Proof.
  unfold generate_taxonomy. cbv beta zeta. cbn [default].
  apply bind_ext; [reflexivity | intros job w1].
  apply try_except_ext. intros w2. apply generate_taxonomy_try_level_fields.
Qed.

Ltac step_in H :=
  rewrite bind_run in H; cbv beta iota zeta delta [lift] in H.

Lemma TopicResult_new_ok id ttl desc level pid sz avg t :
  TopicResult_new id ttl desc level pid sz avg = Ok t →
  ttl = JString (tr_title t) ∧ desc = JString (tr_description t) ∧ tr_id t = id ∧
  tr_level t = level ∧ tr_parent_id t = pid ∧ tr_cluster_size t = sz ∧
  tr_avg_distance_to_centroid t = avg.
Proof.
  intros H. unfold TopicResult_new in H.
  destruct ttl, desc; try discriminate H. injection H as <-.
  repeat split; reflexivity.
Qed.

(** What a successful Level 1 topic step does: it saves one topic row with
    the next id and the label's title, then writes the members' feedback. *)
Lemma level1_topic_step_ok env tenant_id red c w t w' :
  level1_topic_step env tenant_id red c w = (Ok t, w') →
  ∃ lbl emb fs,
    title lbl = JString (tr_title t) ∧ tr_id t = next_uuid w ∧ tr_level t = 1 ∧
    tr_parent_id t = None ∧ tr_cluster_size t = size c ∧
    tr_avg_distance_to_centroid t = avg_distance_to_centroid c ∧
    w' = {| topics_tbl := topics_tbl w ++
              [{| t_id := next_uuid w; t_title := tr_title t; t_level := 1; t_parent := None;
                  t_tenant := tenant_id; t_embedding := emb |}];
            feedback_tbl := fs; next_uuid := S (next_uuid w);
            trace := trace w ++ EvSaveTopic (next_uuid w) 1 None ::
                       map (λ rid, EvUpdateFeedback rid (next_uuid w)
                                     (confidence_of (avg_distance_to_centroid c)))
                         (member_ids c) |}.
Proof.
  intros H. unfold level1_topic_step in H.
  step_in H. destruct (get_closest_to_centroid _ _ _ _) as [cl|e]; [| discriminate].
  step_in H. destruct (label_cluster _ _ _ _ _ _) as [lbl|e]; [| discriminate].
  step_in H. destruct (generate_embedding _ _) as [te|e]; [| discriminate].
  step_in H. destruct (asyncpg_text_arg (title lbl)) as [ttl|e] eqn:Ettl; [| discriminate].
  step_in H. rewrite save_topic_run in H. cbv iota in H.
  step_in H.
  match type of H with
  | context [update_members ?ids ?tid ?avg ?w0] =>
      destruct (update_members_run ids tid avg w0) as [fs E]; rewrite E in H
  end.
  cbv beta iota in H. injection H as Ht <-.
  apply TopicResult_new_ok in Ht as (Ht & _ & Hid & Hl & Hp & Hs & Ha).
  rewrite Ht in Ettl. injection Ettl as <-.
  exists lbl, te, fs. repeat split; try assumption.
  cbn. rewrite <- app_assoc. reflexivity.
Qed.

(** The same for a Level 2 topic step. *)
Lemma level2_cluster_step_ok env tenant_id pid ptitle red sc w t w' :
  level2_cluster_step env tenant_id pid ptitle red sc w = (Ok t, w') →
  ∃ lbl emb fs,
    title lbl = JString (tr_title t) ∧ tr_id t = next_uuid w ∧ tr_level t = 2 ∧
    tr_parent_id t = Some pid ∧ tr_cluster_size t = size sc ∧
    tr_avg_distance_to_centroid t = avg_distance_to_centroid sc ∧
    w' = {| topics_tbl := topics_tbl w ++
              [{| t_id := next_uuid w; t_title := tr_title t; t_level := 2;
                  t_parent := Some pid; t_tenant := tenant_id; t_embedding := emb |}];
            feedback_tbl := fs; next_uuid := S (next_uuid w);
            trace := trace w ++ EvSaveTopic (next_uuid w) 2 (Some pid) ::
                       map (λ rid, EvUpdateFeedback rid (next_uuid w)
                                     (confidence_of (avg_distance_to_centroid sc)))
                         (member_ids sc) |}.
Proof.
  intros H. unfold level2_cluster_step in H.
  step_in H. destruct (get_closest_to_centroid _ _ _ _) as [cl|e]; [| discriminate].
  step_in H. destruct (label_cluster _ _ _ _ _ _) as [lbl|e]; [| discriminate].
  step_in H. destruct (generate_embedding _ _) as [te|e]; [| discriminate].
  step_in H. destruct (asyncpg_text_arg (title lbl)) as [ttl|e] eqn:Ettl; [| discriminate].
  step_in H. rewrite save_topic_run in H. cbv iota in H.
  step_in H.
  match type of H with
  | context [update_members ?ids ?tid ?avg ?w0] =>
      destruct (update_members_run ids tid avg w0) as [fs E]; rewrite E in H
  end.
  cbv beta iota in H. injection H as Ht <-.
  apply TopicResult_new_ok in Ht as (Ht & _ & Hid & Hl & Hp & Hs & Ha).
  rewrite Ht in Ettl. injection Ettl as <-.
  exists lbl, te, fs. repeat split; try assumption.
  cbn. rewrite <- app_assoc. reflexivity.
Qed.

(** C9: at each cluster's step, the pipeline saves the topic and then writes
    one confidence per member of the cluster, every write carrying the same
    value [1 - min(avg_distance_to_centroid, 1)]; nothing of the member itself
    (its distance, its HDBSCAN probability) enters the value. For a Level 1
    cluster the writes of its Level 2 sub-topics (if any) follow. *)
Theorem cluster_members_share_confidence :
  (∀ env tenant_id cfg red emb texts c w ts w',
     level1_cluster_step env tenant_id cfg red emb texts c w = (Ok ts, w') →
     ∃ t rest suffix, ts = t :: rest ∧ tr_level t = 1 ∧
       tr_avg_distance_to_centroid t = avg_distance_to_centroid c ∧
       trace w' = trace w ++ EvSaveTopic (tr_id t) 1 None ::
         map (λ rid, EvUpdateFeedback rid (tr_id t) (1 - Qmin (avg_distance_to_centroid c) 1))
           (member_ids c) ++ suffix) ∧
  (∀ env tenant_id pid ptitle red sc w t w',
     level2_cluster_step env tenant_id pid ptitle red sc w = (Ok t, w') →
     tr_level t = 2 ∧ tr_avg_distance_to_centroid t = avg_distance_to_centroid sc ∧
     trace w' = trace w ++ EvSaveTopic (tr_id t) 2 (Some pid) ::
       map (λ rid, EvUpdateFeedback rid (tr_id t) (1 - Qmin (avg_distance_to_centroid sc) 1))
         (member_ids sc)).
Proof.
  split.
  - intros env tenant_id cfg red emb texts c w ts w' H. unfold level1_cluster_step in H.
    rewrite bind_run in H.
    destruct (level1_topic_step env tenant_id red c w) as [[t|e] w1] eqn:E1; [| discriminate].
    apply level1_topic_step_ok in E1 as (lbl & emb' & fs & _ & Hid & Hl & _ & _ & Ha & ->).
    destruct (level2_gate cfg c).
    + rewrite bind_run in H.
      match type of H with
      | context [generate_level2_topics ?a1 ?a2 ?a3 ?a4 ?a5 ?a6 ?a7 ?a8 ?w0] =>
          destruct (generate_level2_topics a1 a2 a3 a4 a5 a6 a7 a8 w0) as [[l2|e] w5] eqn:E2;
          [| discriminate];
          destruct (preserves_generate_level2_topics a1 a2 a3 a4 a5 a6 a7 a8 _ _ _ E2)
            as (_ & _ & suffix & Tr)
      end.
      rewrite ret_run in H. injection H as <- <-.
      exists t, l2, suffix. split; [reflexivity |]. split; [exact Hl |]. split; [exact Ha |].
      rewrite Tr, Hid. cbn [trace]. rewrite <- !app_assoc. reflexivity.
    + rewrite ret_run in H. injection H as <- <-.
      exists t, [], []. split; [reflexivity |]. split; [exact Hl |]. split; [exact Ha |].
      rewrite Hid. cbn [trace]. rewrite app_nil_r. reflexivity.
  - intros env tenant_id pid ptitle red sc w t w' H.
    apply level2_cluster_step_ok in H as (lbl & emb' & fs & _ & Hid & Hl & _ & _ & Ha & ->).
    split; [exact Hl |]. split; [exact Ha |].
    rewrite Hid. reflexivity.
Qed.

(** C4 (amended): once the clearing step of a build has run, the tenant's
    earlier topics are gone for good. Whatever the outcome ([COMPLETED] or
    [FAILED]), none of them is left in the topics table: the [except] clause
    restores nothing. Every topic row of the tenant that is left was created
    by this run (ids are handed out from the counter, so its id is at least
    the counter's value at the start); the run is taken alone, with no other
    build of the same tenant writing meanwhile. *)
Theorem build_never_keeps_prior_topics env tenant_id cfg w jid w0 n wc r w' :
  (∀ t, t ∈ topics_tbl w → (t_id t < next_uuid w)%nat) →
  fresh_uuid w = (Ok jid, w0) →
  clear_tenant_topics tenant_id w0 = (Ok n, wc) →
  generate_taxonomy env tenant_id cfg w = (r, w') →
  (∀ t, t ∈ topics_tbl w → t_tenant t = tenant_id → t ∉ topics_tbl w') ∧
  (∀ t, t ∈ topics_tbl w' → t_tenant t = tenant_id → (next_uuid w <= t_id t)%nat).
Proof.
  intros Hids Hf Hc H. unfold generate_taxonomy in H. cbv zeta in H.
  rewrite bind_run, Hf in H.
  unfold try_except, generate_taxonomy_try in H. rewrite bind_run, Hc in H.
  destruct (clear_tenant_topics_run tenant_id w0) as (fs & n' & Ec).
  rewrite Hc in Ec. injection Ec as _ ->.
  injection Hf as _ <-.
  cbv beta iota zeta in H.
  match type of H with
  | context [match ?k ?w2 with _ => _ end] =>
      assert (Hk : preserves k) by (solve_preserves; auto using preserves_level1_loop);
      destruct (k w2) as [res w3] eqn:EK; pose proof (Hk _ _ _ EK) as (_ & Hnew & _)
  end.
  assert (w' = w3) as ->.
  { destruct res as [a|e]; injection H as _ <-; reflexivity. }
  clear H EK Hk. cbn [topics_tbl next_uuid] in Hnew.
  split.
  - intros t Ht Htn Ht'. destruct (Hnew t Ht') as [Hin|Hge].
    + apply list_elem_of_filter in Hin as [Hne _]. contradiction.
    + specialize (Hids t Ht). lia.
  - intros t Ht' Htn. destruct (Hnew t Ht') as [Hin|Hge].
    + apply list_elem_of_filter in Hin as [Hne _]. contradiction.
    + lia.
Qed.

Ltac step_goal :=
  rewrite bind_run; cbv beta iota zeta delta [lift emit].

(** An exception raised by the step of a cluster leaves [level1_loop] at
    once: the clusters after it are not processed. *)
Lemma level1_loop_app_raise env tenant_id cfg red emb texts cs1 c cs2 w ts1 w1 e w2 :
  level1_loop env tenant_id cfg red emb texts cs1 w = (Ok ts1, w1) →
  level1_cluster_step env tenant_id cfg red emb texts c w1 = (Err e, w2) →
  level1_loop env tenant_id cfg red emb texts (cs1 ++ c :: cs2) w = (Err e, w2).
Proof.
  revert w ts1. induction cs1 as [|c1 cs1 IH]; intros w ts1 H1 Hc.
  - injection H1 as _ <-. cbn [app level1_loop]. rewrite bind_run, Hc. reflexivity.
  - cbn [app level1_loop] in *. rewrite bind_run in H1 |- *.
    destruct (level1_cluster_step _ _ _ _ _ _ c1 w) as [[ts|e1] w3]; [| discriminate].
    rewrite bind_run in H1 |- *.
    destruct (level1_loop _ _ _ _ _ _ cs1 w3) as [[ts'|e1] w4] eqn:E; [| discriminate].
    rewrite ret_run in H1. injection H1 as _ <-.
    rewrite (IH w3 ts' E Hc). reflexivity.
Qed.

(** The top-level [except]: whatever the [try] block raised, the build
    returns a [FAILED] result with no topic, in the world the [try] block
    left. *)
Lemma generate_taxonomy_on_raise env tenant_id cfg w job w0 e w1 :
  fresh_uuid w = (Ok job, w0) →
  generate_taxonomy_try env tenant_id (default default_config cfg) job w0 = (Err e, w1) →
  generate_taxonomy env tenant_id cfg w = (Ok (failed_result tenant_id job e), w1).
Proof.
  intros Hf Ht. unfold generate_taxonomy. cbv zeta. rewrite bind_run, Hf.
  unfold try_except. rewrite Ht. reflexivity.
Qed.

(** A run that reaches the Level 1 loop and whose step raises on the
    cluster [c] returns the [FAILED] result of the [except] clause, in the
    world the step left. *)
Lemma generate_taxonomy_loop_raise env t cfg w jid wc red embs txts cr cs1 c cs2 ts1 w1
    e w2 :
  reaches_level1_loop env t cfg w jid wc red embs txts cr →
  clusters cr = cs1 ++ c :: cs2 →
  level1_loop env t cfg red embs txts cs1 wc = (Ok ts1, w1) →
  level1_cluster_step env t cfg red embs txts c w1 = (Err e, w2) →
  generate_taxonomy env t (Some cfg) w = (Ok (failed_result t jid e), w2).
Proof.
  intros (w0 & n & ids & Hf & Hc & Hl & Hne & Hu & Hh) Hcs Hloop Hstep.
  apply (generate_taxonomy_on_raise _ _ _ _ _ w0); [exact Hf |].
  change (default default_config (Some cfg)) with cfg.
  unfold generate_taxonomy_try. rewrite bind_run, Hc. cbv beta iota zeta.
  rewrite bind_run, Hl. cbv beta iota.
  rewrite decide_False by (destruct ids; [contradiction | discriminate]).
  step_goal. rewrite Hu. cbv beta iota zeta.
  step_goal. rewrite Hh. cbv beta iota zeta.
  rewrite bind_run, Hcs, (level1_loop_app_raise _ _ _ _ _ _ _ _ _ _ _ _ _ _ Hloop Hstep).
  reflexivity.
Qed.


(** C2 (amended): in a run that reaches the Level 1 loop, let the cluster
    [c] (after the clusters [cs1], which went through) have its Level 1
    topic saved ([w2]), pass the Level 2 gate and the size guard of
    [_generate_level2_topics]; if the Level 2 reducer or the Level 2
    discoverer then raises [e], nothing catches it before the top-level
    [except]: the build returns [FAILED] with no topic and error [e]. The
    final world is [w2] plus the log line of the Level 2 call: the later
    clusters are not processed, and the topics saved before the failure
    (those of [cs1] and the Level 1 topic of [c]) stay in the table. *)
Theorem level2_failure_aborts_build env t cfg w jid wc red embs txts cr cs1 c cs2 ts1 w1
    tr w2 ce e :
  reaches_level1_loop env t cfg w jid wc red embs txts cr →
  clusters cr = cs1 ++ c :: cs2 →
  level1_loop env t cfg red embs txts cs1 wc = (Ok ts1, w1) →
  level1_topic_step env t red c w1 = (Ok tr, w2) →
  level2_gate cfg c = true →
  py_gather embs (member_indices c) = Ok ce →
  ¬ (py_len (member_ids c) < py_or_int (hdbscan_min_cluster_size cfg) 50 * 2) →
  (fit_transform env (level2_reducer cfg (member_ids c)) ce = Err e ∨
   ∃ red2, fit_transform env (level2_reducer cfg (member_ids c)) ce = Ok red2 ∧
           fit_predict env (level2_clusterer cfg) red2 (member_ids c) (member_texts c) = Err e) →
  ∃ w3, generate_taxonomy env t (Some cfg) w = (Ok (failed_result t jid e), w3) ∧
    topics_tbl w3 = topics_tbl w2 ∧ feedback_tbl w3 = feedback_tbl w2 ∧
    trace w3 = trace w2 ++ [EvLevel2Start (tr_title tr) (size c)] ∧
    (∀ row, row ∈ topics_tbl w1 → row ∈ topics_tbl w3) ∧
    (∃ row, row ∈ topics_tbl w3 ∧ t_id row = tr_id tr ∧ t_tenant row = t ∧ t_level row = 1).
Proof.
  intros Hreach Hcs Hloop Htop Hgate Hg Hsz Hfail.
  set (w3 := {| topics_tbl := topics_tbl w2; feedback_tbl := feedback_tbl w2;
                next_uuid := next_uuid w2;
                trace := trace w2 ++ [EvLevel2Start (tr_title tr) (size c)] |}).
  assert (Hstep : level1_cluster_step env t cfg red embs txts c w1 = (Err e, w3)).
  { unfold level1_cluster_step. rewrite bind_run, Htop. cbv beta iota. rewrite Hgate.
    rewrite bind_run. unfold generate_level2_topics.
    step_goal. step_goal. rewrite Hg. cbv beta iota zeta.
    rewrite decide_False by exact Hsz.
    step_goal. destruct Hfail as [Hr | (red2 & Hr & Hs)].
    - rewrite Hr. reflexivity.
    - rewrite Hr. cbv beta iota zeta. step_goal. rewrite Hs. reflexivity. }
  exists w3. split.
  { exact (generate_taxonomy_loop_raise _ _ _ _ _ _ _ _ _ _ _ _ _ _ _ _ _ Hreach Hcs Hloop Hstep). }
  apply level1_topic_step_ok in Htop as (lbl & emb & fs & _ & Hid & Hl & _ & _ & _ & ->).
  cbn [w3 topics_tbl feedback_tbl trace].
  split; [reflexivity |]. split; [reflexivity |]. split; [reflexivity |]. split.
  - intros row Hrow. apply elem_of_app. left. exact Hrow.
  - eexists. split; [apply elem_of_app; right; left |]. cbn. rewrite Hid.
    split; [reflexivity |]. split; reflexivity.
Qed.

(** *** The labeler inside the pipeline *)

(** A reply that gives no JSON object yields the fallback label. *)
Lemma label_cluster_unusable env texts size parent level ancestors :
  reply_unusable env texts size parent level ancestors →
  label_cluster env texts size parent level ancestors = Ok (fallback_label size).
Proof.
  unfold reply_unusable, label_cluster, label_cluster_try.
  destruct (chat_complete _ _ _ _ _ _) as [[c|]|e]; cbn [mbind Exc_bind];
    try reflexivity.
  intros [-> | Hj]; [reflexivity |].
  destruct c as [|a c]; [reflexivity |].
  destruct (json_loads env (String a c)) as [[ms|s|items|]|e'];
    cbn [mbind Exc_bind json_get]; try reflexivity. contradiction.
Qed.

(** A reply that parses to the JSON object [ms] yields [label_of_object ms]. *)
Lemma label_cluster_object env texts size parent level ancestors c ms :
  chat_complete env texts size parent level ancestors = Ok (Some c) → c ≠ "" →
  json_loads env c = Ok (JObject ms) →
  label_cluster env texts size parent level ancestors = Ok (label_of_object ms size).
Proof.
  intros Hc Hne Hj. unfold label_cluster, label_cluster_try. rewrite Hc.
  cbn [mbind Exc_bind]. destruct c as [|a c]; [contradiction |]. rewrite Hj.
  unfold label_of_object, json_text_member. cbn [json_get mbind Exc_bind].
  destruct (assoc_last "title" ms) as [[m|s|items|]|]; cbn [default json_slice];
    try reflexivity;
    destruct (assoc_last "description" ms) as [[m'|s'|items'|]|]; reflexivity.
Qed.


(** * Instances of the theorems on explicit inputs *)

Lemma closest_to_centroid_selection_witness :
  ∃ res, get_closest_to_centroid (demo_env umap_identity hdb_one_cluster embed_ok)
           tie_cluster tie_embeddings 10 = Ok res ∧
    length res = Nat.min (Z.to_nat 10) (length (member_indices tie_cluster)) ∧
    (∀ k g t d, res !! k = Some (g, t, d) →
       ∃ li, member_indices tie_cluster !! li = Some g ∧ member_texts tie_cluster !! li = Some t ∧
             d = vnorm (demo_env umap_identity hdb_one_cluster embed_ok)
                   (vsub (tie_embeddings !!! g) (centroid tie_cluster))) ∧
    Sorted Qle (map (λ x, x.2) res).
Proof.
  apply (closest_to_centroid_selection (demo_env umap_identity hdb_one_cluster embed_ok)
           tie_cluster tie_embeddings 10).
  - apply stable_argsort_contract.
  - lia.
  - reflexivity.
  - apply Forall_forall. cbn. repeat constructor.
Defined.

Lemma fit_predict_partitions_witness :
  ∃ r, fit_predict (demo_env umap_identity (λ _ _, [0; -1; 0]) embed_ok)
         {| c_min_cluster_size := 2; c_min_samples := 1; c_cluster_selection_epsilon := 0 |}
         [[0%Q]; [1%Q]; [2%Q]] [10%nat; 11%nat; 12%nat] ["a"; "b"; "c"] = Ok r ∧
       partitions_indices 3 r.
Proof.
  apply (fit_predict_partitions (demo_env umap_identity (λ _ _, [0; -1; 0]) embed_ok)
           {| c_min_cluster_size := 2; c_min_samples := 1; c_cluster_selection_epsilon := 0 |}
           [[0%Q]; [1%Q]; [2%Q]] [10%nat; 11%nat; 12%nat] ["a"; "b"; "c"]
           [0; -1; 0] [1%Q; 1%Q; 1%Q]).
  - discriminate.
  - reflexivity.
  - reflexivity.
  - reflexivity.
  - reflexivity.
Defined.

Lemma cluster_members_share_confidence_witness :
  ∃ ts w',
    level1_cluster_step (demo_env umap_identity hdb_one_cluster embed_ok) "acme" default_config
      tie_embeddings tie_embeddings ["first"; "second"] tie_cluster (demo_world "acme" 2 [])
      = (Ok ts, w') ∧
    ∃ t rest suffix, ts = t :: rest ∧ tr_level t = 1 ∧
      tr_avg_distance_to_centroid t = avg_distance_to_centroid tie_cluster ∧
      trace w' = trace (demo_world "acme" 2 []) ++ EvSaveTopic (tr_id t) 1 None ::
        map (λ rid, EvUpdateFeedback rid (tr_id t)
                      (1 - Qmin (avg_distance_to_centroid tie_cluster) 1))
          (member_ids tie_cluster) ++ suffix.
Proof.
  do 2 eexists. split; [vm_compute; reflexivity |].
  apply (proj1 cluster_members_share_confidence
           (demo_env umap_identity hdb_one_cluster embed_ok) "acme" default_config
           tie_embeddings tie_embeddings ["first"; "second"] tie_cluster
           (demo_world "acme" 2 [])).
  vm_compute. reflexivity.
Defined.

Lemma build_never_keeps_prior_topics_witness :
  ∃ r w',
    generate_taxonomy (demo_env umap_always_fails hdb_dense_groups embed_ok) "acme"
      None (demo_world "acme" 100 [prior_topic]) = (r, w') ∧
    (∀ t, t ∈ topics_tbl (demo_world "acme" 100 [prior_topic]) → t_tenant t = "acme" →
       t ∉ topics_tbl w') ∧
    (∀ t, t ∈ topics_tbl w' → t_tenant t = "acme" →
       (next_uuid (demo_world "acme" 100 [prior_topic]) <= t_id t)%nat).
Proof.
  set (w := demo_world "acme" 100 [prior_topic]).
  set (w0 := snd (fresh_uuid w)).
  set (run := generate_taxonomy (demo_env umap_always_fails hdb_dense_groups embed_ok) "acme"
                None w).
  exists (fst run), (snd run). split; [vm_compute; reflexivity |].
  apply (build_never_keeps_prior_topics (demo_env umap_always_fails hdb_dense_groups embed_ok)
           "acme" None w 1000%nat w0 1 (snd (clear_tenant_topics "acme" w0))
           (fst run) (snd run)).
  - intros t Ht. apply list_elem_of_singleton in Ht as ->. cbn. lia.
  - vm_compute. reflexivity.
  - vm_compute. reflexivity.
  - vm_compute. reflexivity.
Defined.

Lemma level2_failure_aborts_build_witness :
  ∃ w3,
    generate_taxonomy (demo_env umap_fails_at_level2 hdb_dense_groups embed_ok) "acme"
      (Some default_config) (two_blob_world "acme" 100 200 []) =
      (Ok (failed_result "acme" 1000 "ValueError: spectral initialisation failed"), w3) ∧
    level2_calls (trace w3) = 1%nat ∧ topic_saves (trace w3) = 1%nat.
Proof.
  destruct (level2_failure_aborts_build
    (demo_env umap_fails_at_level2 hdb_dense_groups embed_ok) "acme" default_config
    (two_blob_world "acme" 100 200 []) 1000%nat _ _ _ _ _ [] _ _ _ _ _ _ _
    "ValueError: spectral initialisation failed"
    ltac:(do 3 eexists; split; [vm_compute; reflexivity |];
          split; [vm_compute; reflexivity |]; split; [vm_compute; reflexivity |];
          split; [vm_compute; discriminate |]; split; vm_compute; reflexivity)
    ltac:(vm_compute; reflexivity) ltac:(vm_compute; reflexivity)
    ltac:(vm_compute; reflexivity) ltac:(vm_compute; reflexivity)
    ltac:(vm_compute; reflexivity) ltac:(vm_compute; discriminate)
    ltac:(left; vm_compute; reflexivity))
    as (w3 & E & _ & _ & Htr & _ & _).
  exists w3. split; [exact E |]. rewrite Htr. split; vm_compute; reflexivity.
Defined.


(** * Further properties of the code *)

Lemma exc_bind_ok_inv {A B} (m : Exc A) (f : A → Exc B) b :
  (m ≫= f) = Ok b → ∃ a, m = Ok a ∧ f a = Ok b.
Proof. destruct m as [a|e]; [eauto | discriminate]. Qed.

(** ** The labeler *)

Lemma substring_prefix_length (s : string) (n : nat) :
  (String.length (String.substring 0 n s) <= n)%nat.
Proof.
  revert n. induction s as [|a s IH]; intros [|n]; cbn; try lia.
  specialize (IH n). lia.
Qed.

Lemma json_slice_len v n r : json_slice v n = Ok r → json_len_le r n.
Proof.
  destruct v as [ms|s|items|]; cbn; intros H; try discriminate; injection H as <-; cbn.
  - apply substring_prefix_length.
  - rewrite length_take. lia.
Qed.

(** [label_cluster] never raises. A reply that gives no JSON object (the
    chat call raised, the content is missing or empty, [json.loads] raised,
    or the reply is a JSON string, array or scalar) yields the fallback label
    ["Cluster (<size> items)"] / ["Auto-generated cluster"]. A reply that
    parses to an object yields [label_of_object]: its title (default
    ["Unnamed Category"]) cut to 255 and its description (default [""]) cut to
    500, where a string is cut to its first code points and a JSON array to
    its first items, both kept as they are; when either member is present
    but is an object or a scalar, the fallback label. *)
Theorem label_cluster_outcomes env texts size parent level ancestors :
  (reply_unusable env texts size parent level ancestors →
   label_cluster env texts size parent level ancestors = Ok (fallback_label size)) ∧
  (∀ c ms, chat_complete env texts size parent level ancestors = Ok (Some c) → c ≠ "" →
     json_loads env c = Ok (JObject ms) →
     label_cluster env texts size parent level ancestors = Ok (label_of_object ms size)).
Proof.
  split.
  - apply label_cluster_unusable.
  - intros c ms Hc Hne Hj. exact (label_cluster_object _ _ _ _ _ _ _ _ Hc Hne Hj).
Qed.

(** Every label the [try] block of [label_cluster] builds has a title of at
    most 255 code points (or, for a JSON array, items) and a description of
    at most 500; both are JSON strings or arrays. *)
Theorem label_cluster_try_bounds env texts size parent level ancestors l :
  label_cluster_try env texts size parent level ancestors = Ok l →
  json_len_le (title l) 255 ∧ json_len_le (description l) 500.
Proof.
  unfold label_cluster_try. intros H.
  apply exc_bind_ok_inv in H as [content [_ H]].
  destruct content as [[|a c]|]; try discriminate.
  apply exc_bind_ok_inv in H as [res [_ H]].
  apply exc_bind_ok_inv in H as [t0 [_ H]].
  apply exc_bind_ok_inv in H as [t [Ht H]].
  apply exc_bind_ok_inv in H as [d0 [_ H]].
  apply exc_bind_ok_inv in H as [d [Hd H]].
  injection H as <-. cbn [title description].
  split; eapply json_slice_len; eassumption.
Qed.

(** ** The database layer *)

Lemma length_filter_split {A} (P : A → Prop) `{∀ x, Decision (P x)} (l : list A) :
  (length (filter P l) + length (filter (λ x, ¬ P x) l) = length l)%nat.
Proof.
  induction l as [|x l IH]; [reflexivity |].
  rewrite !filter_cons. destruct (decide (P x)).
  - rewrite decide_False by tauto. cbn. lia.
  - rewrite decide_True by tauto. cbn. lia.
Qed.


(** [clear_tenant_topics] returns the number of topics of the tenant it
    deletes, keeps every topic of the other tenants in order, and on the
    feedback side only resets the topic and the confidence of the tenant's
    rows: no row is added, removed or moved, and the rows of other tenants
    are left as they were. *)
Theorem clear_tenant_topics_effect tenant_id w :
  ∃ w',
    clear_tenant_topics tenant_id w =
      (Ok (Z.of_nat (length (filter (λ r, t_tenant r = tenant_id) (topics_tbl w)))), w') ∧
    topics_tbl w' = filter (λ r, t_tenant r ≠ tenant_id) (topics_tbl w) ∧
    next_uuid w' = next_uuid w ∧
    length (feedback_tbl w') = length (feedback_tbl w) ∧
    ∀ k fr, feedback_tbl w !! k = Some fr →
      ∃ fr', feedback_tbl w' !! k = Some fr' ∧
        f_id fr' = f_id fr ∧ f_tenant fr' = f_tenant fr ∧
        f_embedding fr' = f_embedding fr ∧ f_text fr' = f_text fr ∧
        (f_tenant fr = tenant_id → f_topic fr' = None ∧ f_conf fr' = None) ∧
        (f_tenant fr ≠ tenant_id → fr' = fr).
Proof.
  eexists. split.
  { cbv [clear_tenant_topics mbind M_bind mret M_ret get_world set_tables emit].
    f_equal. f_equal. unfold py_len.
    pose proof (length_filter_split (λ r, t_tenant r = tenant_id) (topics_tbl w)). lia. }
  cbn. split; [reflexivity |]. split; [reflexivity |].
  split; [apply length_map |].
  intros k fr Hk. rewrite list_lookup_fmap, Hk. eexists. split; [reflexivity |].
  destruct (decide (f_tenant fr = tenant_id)); cbn; intuition congruence.
Qed.

(** [save_topic] inserts one row under a fresh id: when the ids of the
    topics table are distinct and all below the uuid counter, the returned
    id is new, it is the id of the appended row, the feedback table is left
    alone, and both facts still hold afterwards. *)
Theorem save_topic_fresh_id tenant_id ttl desc level parent emb w :
  NoDup (map t_id (topics_tbl w)) →
  (∀ r, r ∈ topics_tbl w → (t_id r < next_uuid w)%nat) →
  ∃ w', save_topic tenant_id ttl desc level parent emb w = (Ok (next_uuid w), w') ∧
    (next_uuid w ∉ map t_id (topics_tbl w)) ∧
    topics_tbl w' = topics_tbl w ++
      [{| t_id := next_uuid w; t_title := ttl; t_level := level; t_parent := parent;
          t_tenant := tenant_id; t_embedding := emb |}] ∧
    feedback_tbl w' = feedback_tbl w ∧
    NoDup (map t_id (topics_tbl w')) ∧
    (∀ r, r ∈ topics_tbl w' → (t_id r < next_uuid w')%nat).
Proof.
  intros Hnd Hlt. eexists. split; [apply save_topic_run |].
  assert (Hfresh : next_uuid w ∉ map t_id (topics_tbl w)).
  { intros Hin. apply list_elem_of_fmap in Hin as [r [Hr Hin]].
    specialize (Hlt r Hin). lia. }
  cbn. split; [exact Hfresh |]. split; [reflexivity |]. split; [reflexivity |].
  split.
  - rewrite map_app. cbn. apply NoDup_app. split; [exact Hnd |]. split.
    + intros x Hx Hx'. apply list_elem_of_singleton in Hx' as ->. contradiction.
    + apply NoDup_singleton.
  - intros r Hr. apply elem_of_app in Hr as [Hr | Hr].
    + specialize (Hlt r Hr). lia.
    + apply list_elem_of_singleton in Hr as ->. cbn. lia.
Qed.

(** [update_feedback_topic] matches on the id alone: every row with that id
    (of whatever tenant) gets the topic and the confidence, every other row
    is left as it was, the topics table is untouched, and an id that no row
    has changes nothing and raises nothing. *)
Theorem update_feedback_topic_effect rid tid conf w :
  ∃ w', update_feedback_topic rid tid conf w = (Ok (), w') ∧
    topics_tbl w' = topics_tbl w ∧ next_uuid w' = next_uuid w ∧
    trace w' = trace w ++ [EvUpdateFeedback rid tid conf] ∧
    length (feedback_tbl w') = length (feedback_tbl w) ∧
    ((∀ fr, fr ∈ feedback_tbl w → f_id fr ≠ rid) → feedback_tbl w' = feedback_tbl w) ∧
    ∀ k fr, feedback_tbl w !! k = Some fr →
      ∃ fr', feedback_tbl w' !! k = Some fr' ∧
        (f_id fr = rid → fr' = {| f_id := f_id fr; f_tenant := f_tenant fr;
                                  f_embedding := f_embedding fr; f_text := f_text fr;
                                  f_topic := Some tid; f_conf := Some conf |}) ∧
        (f_id fr ≠ rid → fr' = fr).
Proof.
  eexists. split.
  { cbv [update_feedback_topic mbind M_bind get_world set_tables emit]. reflexivity. }
  cbn. split; [reflexivity |]. split; [reflexivity |]. split; [reflexivity |].
  split; [apply length_map |]. split.
  - intros Hno. rewrite <- (map_id (feedback_tbl w)) at 2. apply map_ext_in.
    intros fr Hfr. rewrite decide_False; [reflexivity |].
    apply Hno. by apply list_elem_of_In.
  - intros k fr Hk. rewrite list_lookup_fmap, Hk. eexists. split; [reflexivity |].
    destruct (decide (f_id fr = rid)); cbn; intuition congruence.
Qed.

(** ** Writes of a pipeline run *)

Lemma py_gather_elem {A} (l : list A) idxs r :
  py_gather l idxs = Ok r → ∀ x, x ∈ r → x ∈ l.
Proof.
  intros H. apply mapM_exc_inv in H. induction H as [|i y idxs r Hi _ IH]; intros x Hx.
  - inversion Hx.
  - apply elem_of_cons in Hx as [-> | Hx]; [| auto].
    unfold py_index in Hi. destruct (l !! i) eqn:E; [| discriminate].
    injection Hi as <-. eapply list_elem_of_lookup_2. exact E.
Qed.

Lemma qsum_nonneg (l : list Q) : Forall (λ q, 0 <= q)%Q l → (0 <= qsum l)%Q.
Proof.
  induction 1 as [|q l Hq _ IH]; cbn; [apply Qle_refl |].
  apply (Qplus_le_compat 0 q 0 (qsum l)) in Hq; [| exact IH]. exact Hq.
Qed.

Lemma qmean_nonneg (l : list Q) : Forall (λ q, 0 <= q)%Q l → (0 <= qmean l)%Q.
Proof.
  intros H. unfold qmean, Qdiv. apply Qmult_le_0_compat; [apply qsum_nonneg, H |].
  apply Qinv_le_0_compat. unfold py_len. change 0%Q with (inject_Z 0). rewrite <- Zle_Qle. lia.
Qed.

(** The clusters of [fit_predict] hold ids of the input and, with
    non-negative norms, a non-negative average distance. *)
Lemma fit_predict_clusters_from_ids env s X ids texts r :
  fit_predict env s X ids texts = Ok r →
  ∀ c, c ∈ clusters r →
    (∀ i, i ∈ member_ids c → i ∈ ids) ∧
    ((∀ v, 0 <= vnorm env v)%Q → (0 <= avg_distance_to_centroid c)%Q).
Proof.
  unfold fit_predict. destruct (decide (length X = 0%nat)).
  { intros H. injection H as <-. intros c Hc. inversion Hc. }
  intros H. apply exc_bind_ok_inv in H as [[lbls probs] [_ H]].
  apply exc_bind_ok_inv in H as [nids [_ H]].
  apply exc_bind_ok_inv in H as [cs [Hcs H]]. injection H as <-. cbn.
  apply mapM_exc_inv in Hcs. intros c Hc.
  apply list_elem_of_lookup_1 in Hc as [k Hk].
  destruct (Forall2_lookup_r _ _ _ _ _ Hcs Hk) as [l [_ Hb]].
  unfold build_cluster in Hb. destruct (decide _); [discriminate |].
  apply exc_bind_ok_inv in Hb as [ce [_ Hb]].
  apply exc_bind_ok_inv in Hb as [mids [Hmids Hb]].
  apply exc_bind_ok_inv in Hb as [mtxts [_ Hb]]. injection Hb as <-. cbn.
  split; [exact (py_gather_elem _ _ _ Hmids) |].
  intros Hnn. apply qmean_nonneg. apply Forall_forall. intros q Hq.
  apply list_elem_of_fmap in Hq as [row [-> _]]. apply Hnn.
Qed.

Lemma fb_keys_nodup_tenant (K : list (nat * string)) a b c :
  NoDup (map fst K) → (a, b) ∈ K → (a, c) ∈ K → b = c.
Proof.
  induction K as [|[x y] K IH]; intros Hnd Hb Hc; [inversion Hb |].
  cbn in Hnd. apply NoDup_cons in Hnd as [Hx Hnd].
  apply elem_of_cons in Hb as [Hb | Hb]; apply elem_of_cons in Hc as [Hc | Hc].
  - congruence.
  - injection Hb as -> ->. exfalso. apply Hx. apply list_elem_of_fmap. exists (x, c). auto.
  - injection Hc as -> ->. exfalso. apply Hx. apply list_elem_of_fmap. exists (x, b). auto.
  - auto.
Qed.

Lemma elem_of_tenant_ids K tenant_id rid :
  rid ∈ tenant_ids K tenant_id ↔ (rid, tenant_id) ∈ K.
Proof.
  unfold tenant_ids. rewrite list_elem_of_fmap. split.
  - intros [[a b] [-> Hk]]. apply list_elem_of_filter in Hk as [Hb Hk]. cbn in *. by subst.
  - intros Hk. exists (rid, tenant_id). split; [reflexivity |].
    apply list_elem_of_filter. auto.
Qed.

Lemma filter_others_map (g : FeedbackRow → FeedbackRow) tenant_id l :
  (∀ r, f_tenant (g r) = f_tenant r) →
  (∀ r, r ∈ l → f_tenant r ≠ tenant_id → g r = r) →
  filter (λ r, f_tenant r ≠ tenant_id) (map g l) = filter (λ r, f_tenant r ≠ tenant_id) l.
Proof.
  intros Ht Hg. induction l as [|r l IH]; [reflexivity |]. cbn [map].
  rewrite !filter_cons, Ht.
  rewrite IH by (intros r' Hr'; apply Hg; by apply elem_of_cons; right).
  destruct (decide (f_tenant r ≠ tenant_id)) as [Hn|]; [| reflexivity].
  rewrite (Hg r) by (exact Hn || by apply elem_of_cons; left). reflexivity.
Qed.

Lemma wo_ret env K t {A} (a : A) : writes_ok env K t (mret a).
Proof.
  intros w r w' HK H. injection H as _ <-. do 3 (split; [auto |]). split; [auto |].
  exists []. rewrite app_nil_r. auto.
Qed.

Lemma wo_lift env K t {A} (x : Exc A) : writes_ok env K t (lift x).
Proof.
  intros w r w' HK H. injection H as _ <-. do 3 (split; [auto |]). split; [auto |].
  exists []. rewrite app_nil_r. auto.
Qed.

Lemma wo_bind env K t {A B} (m : M A) (f : A → M B) :
  writes_ok env K t m → (∀ a, writes_ok env K t (f a)) → writes_ok env K t (m ≫= f).
Proof.
  intros Hm Hf w r w' HK. rewrite bind_run.
  destruct (m w) as [[a|e] w1] eqn:E; intros H.
  - destruct (Hm _ _ _ HK E) as (HK1 & Ho1 & Ht1 & Hc1 & s1 & Hs1 & Hf1).
    destruct (Hf a _ _ _ HK1 H) as (HK2 & Ho2 & Ht2 & Hc2 & s2 & Hs2 & Hf2).
    split; [exact HK2 |]. split; [intros Hnd; rewrite Ho2, Ho1 by exact Hnd; reflexivity |].
    split; [congruence |]. split; [auto |].
    exists (s1 ++ s2). rewrite Hs2, Hs1, app_assoc. split; [reflexivity |].
    apply Forall_app. auto.
  - injection H as _ <-. exact (Hm _ _ _ HK E).
Qed.

Lemma wo_lift_bind env K t {A B} (x : Exc A) (f : A → M B) :
  (∀ a, x = Ok a → writes_ok env K t (f a)) → writes_ok env K t (lift x ≫= f).
Proof.
  intros Hf w r w' HK. rewrite bind_run. unfold lift.
  destruct x as [a|e]; intros H.
  - exact (Hf a eq_refl _ _ _ HK H).
  - injection H as _ <-. exact (wo_ret env K t tt _ _ _ HK eq_refl).
Qed.

Lemma wo_try_except env K t {A} (m : M A) (h : string → M A) :
  writes_ok env K t m → (∀ e, writes_ok env K t (h e)) → writes_ok env K t (try_except m h).
Proof.
  intros Hm Hh w r w' HK. unfold try_except.
  destruct (m w) as [[a|e] w1] eqn:E; intros H.
  - injection H as _ <-. exact (Hm _ _ _ HK E).
  - destruct (Hm _ _ _ HK E) as (HK1 & Ho1 & Ht1 & Hc1 & s1 & Hs1 & Hf1).
    destruct (Hh e _ _ _ HK1 H) as (HK2 & Ho2 & Ht2 & Hc2 & s2 & Hs2 & Hf2).
    split; [exact HK2 |]. split; [intros Hnd; rewrite Ho2, Ho1 by exact Hnd; reflexivity |].
    split; [congruence |]. split; [auto |].
    exists (s1 ++ s2). rewrite Hs2, Hs1, app_assoc. split; [reflexivity |].
    apply Forall_app. auto.
Qed.

Lemma wo_mapM env K t {A B} (f : A → M B) (l : list A) :
  (∀ x, x ∈ l → writes_ok env K t (f x)) → writes_ok env K t (mapM f l).
Proof.
  induction l as [|x l IH]; intros Hf; cbn; [apply wo_ret |].
  apply wo_bind; [apply Hf; by apply elem_of_cons; left | intros y].
  apply wo_bind; [| intros ys; apply wo_ret].
  apply IH. intros x' Hx'. apply Hf. by apply elem_of_cons; right.
Qed.

Lemma wo_emit env K t ev : write_ok env K t ev → writes_ok env K t (emit ev).
Proof.
  intros Hev w r w' HK H. injection H as _ <-. do 3 (split; [auto |]). split; [auto |].
  exists [ev]. auto.
Qed.

Lemma wo_fresh_uuid env K t : writes_ok env K t fresh_uuid.
Proof.
  intros w r w' HK H. injection H as _ <-. do 3 (split; [auto |]). split; [auto |].
  exists []. rewrite app_nil_r. auto.
Qed.

Lemma wo_save_topic env K t ttl desc level parent emb :
  writes_ok env K t (save_topic t ttl desc level parent emb).
Proof.
  intros w r w' HK. rewrite save_topic_run. intros H. injection H as _ <-.
  split; [exact HK |]. split; [auto |]. split.
  { unfold topic_others. cbn. rewrite filter_app, filter_cons_False, app_nil_r by tauto.
    reflexivity. }
  split; [auto |]. eexists. split; [reflexivity |]. repeat constructor.
Qed.

Lemma wo_update_feedback_topic env K t rid tid c :
  rid ∈ tenant_ids K t → (0 <= c)%Q → ((∀ v, 0 <= vnorm env v)%Q → (c <= 1)%Q) →
  writes_ok env K t (update_feedback_topic rid tid c).
Proof.
  intros Hrid Hc0 Hc1 w r w' HK H.
  cbv [update_feedback_topic mbind M_bind get_world set_tables emit] in H.
  injection H as _ <-. split.
  { rewrite <- HK. unfold fb_keys. cbn. rewrite map_map. apply map_ext.
    intros fr. by destruct (decide (f_id fr = rid)). }
  split.
  { intros Hnd. unfold fb_others. cbn. apply filter_others_map.
    - intros fr. by destruct (decide (f_id fr = rid)).
    - intros fr Hfr Ht. rewrite decide_False; [reflexivity |]. intros <-.
      apply Ht. apply (fb_keys_nodup_tenant K (f_id fr)); [exact Hnd | |].
      + rewrite <- HK. apply list_elem_of_fmap. eauto.
      + by apply elem_of_tenant_ids. }
  split; [reflexivity |]. split.
  { intros Hnn Hok fr' Hfr' Ht. cbn in Hfr'. apply list_elem_of_fmap in Hfr' as [fr [-> Hfr]].
    destruct (decide (f_id fr = rid)); cbn in *.
    - right. eexists. split; [reflexivity |]. auto.
    - exact (Hok fr Hfr Ht). }
  exists [EvUpdateFeedback rid tid c]. split; [reflexivity |]. repeat constructor; auto.
Qed.

Lemma confidence_of_bounds avg :
  (0 <= confidence_of avg)%Q ∧ ((0 <= avg)%Q → (confidence_of avg <= 1)%Q).
Proof.
  unfold confidence_of. split.
  - pose proof (Q.le_min_r avg 1). apply (Qplus_le_r _ _ (Qmin avg 1)). ring_simplify. exact H.
  - intros Havg. assert (0 <= Qmin avg 1)%Q by (apply Q.min_glb; [exact Havg | discriminate]).
    apply (Qplus_le_r _ _ (Qmin avg 1)). ring_simplify.
    apply (Qplus_le_l _ _ (-1)). ring_simplify. exact H.
Qed.

Lemma wo_update_members env K t ids tid avg :
  (∀ i, i ∈ ids → i ∈ tenant_ids K t) →
  ((∀ v, 0 <= vnorm env v)%Q → (0 <= avg)%Q) →
  writes_ok env K t (update_members ids tid avg).
Proof.
  intros Hids Havg. induction ids as [|i ids IH]; cbn [update_members]; [apply wo_ret |].
  apply wo_bind; [| intros _; apply IH; intros j Hj; apply Hids; by apply elem_of_cons; right].
  destruct (confidence_of_bounds avg) as [H0 H1].
  apply wo_update_feedback_topic; [apply Hids; by apply elem_of_cons; left | exact H0 |].
  intros Hnn. apply H1, Havg, Hnn.
Qed.

(** What [clear_tenant_topics] does to the world, with the new feedback
    rows written out. *)
Lemma clear_tenant_topics_run_rows tenant_id w :
  clear_tenant_topics tenant_id w =
  (Ok (py_len (topics_tbl w) - py_len (filter (λ t, t_tenant t ≠ tenant_id) (topics_tbl w))),
   {| topics_tbl := filter (λ t, t_tenant t ≠ tenant_id) (topics_tbl w);
      feedback_tbl := map (λ r, if decide (f_tenant r = tenant_id)
                                then {| f_id := f_id r; f_tenant := f_tenant r;
                                        f_embedding := f_embedding r; f_text := f_text r;
                                        f_topic := None; f_conf := None |}
                                else r) (feedback_tbl w);
      next_uuid := next_uuid w;
      trace := trace w ++ [EvClearTopics tenant_id] |}).
Proof. reflexivity. Qed.

Lemma filter_filter_same {A} (P : A → Prop) `{∀ x, Decision (P x)} (l : list A) :
  filter P (filter P l) = filter P l.
Proof.
  induction l as [|x l IH]; [reflexivity |]. rewrite filter_cons.
  destruct (decide (P x)); [rewrite filter_cons_True by exact p; by f_equal | exact IH].
Qed.

Lemma wo_clear_tenant_topics env K t : writes_ok env K t (clear_tenant_topics t).
Proof.
  intros w r w' HK. rewrite clear_tenant_topics_run_rows. intros H. injection H as _ <-.
  split.
  { rewrite <- HK. unfold fb_keys. cbn. rewrite map_map. apply map_ext.
    intros fr. by destruct (decide (f_tenant fr = t)). }
  split.
  { intros _. unfold fb_others. cbn. apply filter_others_map.
    - intros fr. by destruct (decide (f_tenant fr = t)).
    - intros fr _ Ht. by rewrite decide_False. }
  split; [apply filter_filter_same |]. split.
  { intros _ _ fr' Hfr' Ht. cbn in Hfr'. apply list_elem_of_fmap in Hfr' as [fr [-> _]].
    destruct (decide (f_tenant fr = t)); cbn in *; [auto | contradiction]. }
  eexists. split; [reflexivity |]. repeat constructor.
Qed.

Lemma wo_load_bind env K t limit {B} (f : list nat * list Vec * list string → M B) :
  (∀ ids embs txts, (∀ i, i ∈ ids → i ∈ tenant_ids K t) →
     writes_ok env K t (f (ids, embs, txts))) →
  writes_ok env K t (load_embeddings_for_tenant t limit ≫= f).
Proof.
  intros Hf w r w' HK H. rewrite bind_run in H.
  refine (Hf _ _ _ _ w r w' HK H). intros i Hi. apply list_elem_of_fmap in Hi as [fr [-> Hfr]].
  apply elem_of_take in Hfr as [k [Hk _]]. apply list_elem_of_lookup_2 in Hk.
  apply list_elem_of_filter in Hk as [[Ht _] Hin].
  apply elem_of_tenant_ids. rewrite <- HK, <- Ht. apply list_elem_of_fmap. eauto.
Qed.

Create HintDb writes_db.
#[local] Hint Resolve wo_ret wo_lift wo_fresh_uuid wo_save_topic wo_clear_tenant_topics
  : writes_db.

Ltac solve_writes :=
  repeat (match goal with
          | |- writes_ok _ _ _ (mbind _ (lift _)) => apply wo_lift_bind; intros ? ?
          | |- writes_ok _ _ _ (mbind _ _) => apply wo_bind; [| intros ?]
          | |- writes_ok _ _ _ (try_except _ _) => apply wo_try_except; [| intros ?]
          | |- writes_ok _ _ _ (emit _) => apply wo_emit; exact I
          | |- writes_ok _ _ _ (if ?b then _ else _) => destruct b
          | |- writes_ok _ _ _ (match ?x with _ => _ end) => destruct x
          | |- writes_ok _ _ _ _ => eauto with writes_db
          end; cbn zeta).

Lemma wo_level2_cluster_step env K t pid ptitle reduced sc :
  tenant_cluster env K t sc →
  writes_ok env K t (level2_cluster_step env t pid ptitle reduced sc).
Proof.
  intros [Hids Havg]. unfold level2_cluster_step. solve_writes.
  apply wo_update_members; assumption.
Qed.

Lemma wo_generate_level2_topics env K t pid ptitle c emb texts cfg :
  (∀ i, i ∈ member_ids c → i ∈ tenant_ids K t) →
  writes_ok env K t (generate_level2_topics env t pid ptitle c emb texts cfg).
Proof.
  intros Hids. unfold generate_level2_topics. solve_writes.
  apply wo_mapM. intros sc Hsc. apply wo_level2_cluster_step.
  match goal with H : fit_predict _ _ _ _ _ = Ok _ |- _ =>
    destruct (fit_predict_clusters_from_ids _ _ _ _ _ _ H sc Hsc) as [Hm1 Hm2] end.
  split; [intros i Hi; apply Hids, Hm1, Hi | exact Hm2].
Qed.

Lemma wo_level1_topic_step env K t red c :
  tenant_cluster env K t c →
  writes_ok env K t (level1_topic_step env t red c).
Proof.
  intros [Hids Havg]. unfold level1_topic_step. solve_writes.
  apply wo_update_members; assumption.
Qed.

Lemma wo_level1_cluster_step env K t cfg red emb texts c :
  tenant_cluster env K t c →
  writes_ok env K t (level1_cluster_step env t cfg red emb texts c).
Proof.
  intros Hc. pose proof Hc as [Hids _]. unfold level1_cluster_step.
  apply wo_bind; [apply wo_level1_topic_step, Hc | intros tr].
  solve_writes. apply wo_generate_level2_topics, Hids.
Qed.

Lemma wo_level1_loop env K t cfg red emb texts cs :
  Forall (tenant_cluster env K t) cs →
  writes_ok env K t (level1_loop env t cfg red emb texts cs).
Proof.
  induction 1 as [|c cs Hc _ IH]; cbn [level1_loop]; [apply wo_ret |].
  apply wo_bind; [apply wo_level1_cluster_step, Hc | intros ts].
  apply wo_bind; [exact IH | intros ts'; apply wo_ret].
Qed.

Lemma wo_generate_taxonomy_try env K t cfg job :
  writes_ok env K t (generate_taxonomy_try env t cfg job).
Proof.
  unfold generate_taxonomy_try. apply wo_bind; [apply wo_clear_tenant_topics | intros _].
  apply wo_load_bind. intros ids embs txts Hids. cbn beta iota.
  solve_writes. apply wo_level1_loop. apply Forall_forall. intros c Hc.
  match goal with H : fit_predict _ _ _ _ _ = Ok _ |- _ =>
    destruct (fit_predict_clusters_from_ids _ _ _ _ _ _ H c Hc) as [Hm1 Hm2] end.
  split; [intros i Hi; apply Hids, Hm1, Hi | exact Hm2].
Qed.

Lemma wo_generate_taxonomy env K t cfg :
  writes_ok env K t (generate_taxonomy env t cfg).
Proof.
  unfold generate_taxonomy. solve_writes. apply wo_generate_taxonomy_try.
Qed.

Lemma load_embeddings_for_tenant_run tenant_id limit w :
  load_embeddings_for_tenant tenant_id limit w =
  (Ok (map f_id (take (Z.to_nat limit) (filter (feedback_loadable tenant_id) (feedback_tbl w))),
       map (λ r, default [] (f_embedding r))
         (take (Z.to_nat limit) (filter (feedback_loadable tenant_id) (feedback_tbl w))),
       map (λ r, default "" (f_text r))
         (take (Z.to_nat limit) (filter (feedback_loadable tenant_id) (feedback_tbl w)))), w).
Proof. reflexivity. Qed.

(** How a run of the [try] block of [generate_taxonomy] that returns went:
    the topics were cleared, the embeddings loaded, and either none was
    found, or the reduction, the clustering and the Level 1 loop all
    succeeded and the result counts come from them. *)
Lemma generate_taxonomy_try_inv env t cfg job w r w' :
  generate_taxonomy_try env t cfg job w = (Ok r, w') →
  ∃ n w1 ids embs txts,
    clear_tenant_topics t w = (Ok n, w1) ∧
    load_embeddings_for_tenant t
      (py_or_int (max_embeddings cfg) settings_max_embeddings_per_tenant) w1 =
      (Ok (ids, embs, txts), w1) ∧
    ((ids = [] ∧ w' = w1 ∧
      r = {| cr_tenant_id := t; cr_job_id := job; cr_status := COMPLETED;
             cr_total_records := 0; cr_clustered_records := 0; cr_noise_records := 0;
             cr_num_clusters := 0; cr_topics := []; cr_error_message := None |}) ∨
     (ids ≠ [] ∧ ∃ red cr ts,
        fit_transform env (mk_UMAPReducer (umap_n_components cfg) (umap_n_neighbors cfg)
                             (umap_min_dist cfg)) embs = Ok red ∧
        fit_predict env (mk_HDBSCANClusterer (hdbscan_min_cluster_size cfg)
                           (hdbscan_min_samples cfg) None) red ids txts = Ok cr ∧
        level1_loop env t cfg red embs txts (clusters cr) w1 = (Ok ts, w') ∧
        r = {| cr_tenant_id := t; cr_job_id := job; cr_status := COMPLETED;
               cr_total_records := py_len ids;
               cr_clustered_records := py_len ids - py_len (noise_ids cr);
               cr_noise_records := py_len (noise_ids cr);
               cr_num_clusters := py_len (clusters cr);
               cr_topics := ts; cr_error_message := None |})).
Proof.
  unfold generate_taxonomy_try. intros H. rewrite bind_run in H.
  destruct (clear_tenant_topics t w) as [[n|e] w1] eqn:Ec; [| discriminate].
  rewrite bind_run, load_embeddings_for_tenant_run in H. cbn beta iota in H.
  do 5 eexists. split; [reflexivity |]. split; [apply load_embeddings_for_tenant_run |].
  destruct (decide _) as [Hz | Hz].
  - left. apply nil_length_inv in Hz. injection H as <- <-. auto.
  - right. split; [intros Hn; apply Hz; rewrite Hn; reflexivity |].
    step_in H. destruct (fit_transform _ _ _) as [red|e] eqn:Ef; [| discriminate].
    step_in H. destruct (fit_predict _ _ _ _ _) as [cr|e] eqn:Ep; [| discriminate].
    rewrite bind_run in H. destruct (level1_loop _ _ _ _ _ _ _ _) as [[ts|e] w2] eqn:El;
      [| discriminate].
    injection H as <- <-. exists red, cr, ts. auto.
Qed.

(** [generate_taxonomy] never raises: it always returns a result for the
    tenant whose job id is the uuid it drew first, either [COMPLETED] with
    no error message, or the [FAILED] result of the [except] clause (no
    counts, no topics, the error message set). *)
Theorem generate_taxonomy_never_raises env t cfg w :
  ∃ r w', generate_taxonomy env t cfg w = (Ok r, w') ∧
    cr_tenant_id r = t ∧ cr_job_id r = next_uuid w ∧
    ((cr_status r = COMPLETED ∧ cr_error_message r = None) ∨
     ∃ e, r = failed_result t (next_uuid w) e).
Proof.
  unfold generate_taxonomy. rewrite bind_run. cbv [fresh_uuid try_except].
  match goal with |- context [generate_taxonomy_try ?a ?b ?c ?d ?w1] =>
    destruct (generate_taxonomy_try a b c d w1) as [[r|e] w'] eqn:E end.
  - apply generate_taxonomy_try_inv in E as (n & w1 & ids & embs & txts & _ & _ & Hr).
    exists r, w'. split; [reflexivity |].
    destruct Hr as [(_ & _ & ->) | (_ & red & cr & ts & _ & _ & _ & ->)]; cbn; auto.
  - eexists _, _. split; [reflexivity |]. cbn. split; [reflexivity |].
    split; [reflexivity |]. right. eauto.
Qed.

Lemma filter_none {A} (P : A → Prop) `{∀ x, Decision (P x)} (l : list A) :
  (∀ x, x ∈ l → ¬ P x) → filter P l = [].
Proof.
  induction l as [|x l IH]; intros Hn; [reflexivity |].
  rewrite filter_cons_False by (apply Hn; by apply elem_of_cons; left).
  apply IH. intros y Hy. apply Hn. by apply elem_of_cons; right.
Qed.

(** A tenant without a loadable feedback row (no row with an embedding and
    a text) gets a [COMPLETED] result with zero counts and no topics; the
    run deletes the tenant's topics, writes nothing else, and calls none of
    the external services (the environment is arbitrary). *)
Theorem generate_taxonomy_no_rows env t cfg w :
  (∀ fr, fr ∈ feedback_tbl w → ¬ feedback_loadable t fr) →
  ∃ w', generate_taxonomy env t cfg w =
    (Ok {| cr_tenant_id := t; cr_job_id := next_uuid w; cr_status := COMPLETED;
           cr_total_records := 0; cr_clustered_records := 0; cr_noise_records := 0;
           cr_num_clusters := 0; cr_topics := []; cr_error_message := None |}, w') ∧
    topics_tbl w' = filter (λ r, t_tenant r ≠ t) (topics_tbl w) ∧
    next_uuid w' = S (next_uuid w) ∧
    trace w' = trace w ++ [EvClearTopics t].
Proof.
  intros Hno. unfold generate_taxonomy. rewrite bind_run. cbv [fresh_uuid try_except].
  unfold generate_taxonomy_try. rewrite bind_run, clear_tenant_topics_run_rows.
  rewrite bind_run, load_embeddings_for_tenant_run. cbn -[filter take decide].
  match goal with |- context [filter (feedback_loadable t) ?fs] =>
    replace (filter (feedback_loadable t) fs) with (@nil FeedbackRow) end.
  - rewrite take_nil. cbn [map length]. rewrite decide_True by reflexivity.
    eexists. split; [reflexivity |]. cbn. auto.
  - symmetry. apply filter_none.
    intros fr' Hfr'. apply list_elem_of_fmap in Hfr' as [fr [-> Hfr]].
    specialize (Hno fr Hfr). unfold feedback_loadable in *.
    destruct (decide (f_tenant fr = t)); cbn; exact Hno.
Qed.

(** [_generate_level2_topics] on a cluster with fewer member ids than twice
    [hdbscan_min_cluster_size or 50] returns no topic: it logs its start and
    does nothing else (no reduction, no clustering, no write). *)
Theorem generate_level2_topics_small_cluster env t pid ptitle c emb texts cfg ce w :
  py_gather emb (member_indices c) = Ok ce →
  py_len (member_ids c) < py_or_int (hdbscan_min_cluster_size cfg) 50 * 2 →
  generate_level2_topics env t pid ptitle c emb texts cfg w =
    (Ok [], {| topics_tbl := topics_tbl w; feedback_tbl := feedback_tbl w;
               next_uuid := next_uuid w;
               trace := trace w ++ [EvLevel2Start ptitle (size c)] |}).
Proof.
  intros Hg Hs. unfold generate_level2_topics. step_goal. step_goal. rewrite Hg.
  cbn zeta. rewrite decide_True by exact Hs. reflexivity.
Qed.

(** Every feedback write of [generate_taxonomy] targets the id of a row of
    the tenant it runs for, and no feedback row is added, removed or given
    another id or tenant. *)
Theorem generate_taxonomy_writes_tenant_rows env t cfg w r w' :
  generate_taxonomy env t cfg w = (r, w') →
  map (λ fr, (f_id fr, f_tenant fr)) (feedback_tbl w') =
    map (λ fr, (f_id fr, f_tenant fr)) (feedback_tbl w) ∧
  ∃ suffix, trace w' = trace w ++ suffix ∧
    ∀ rid tid c, EvUpdateFeedback rid tid c ∈ suffix →
      ∃ fr, fr ∈ feedback_tbl w ∧ f_id fr = rid ∧ f_tenant fr = t.
Proof.
  intros H.
  destruct (wo_generate_taxonomy env (fb_keys w) t cfg w r w' eq_refl H)
    as (HK & _ & _ & _ & suf & Hs & Hf).
  split; [exact HK |]. exists suf. split; [exact Hs |].
  intros rid tid c Hin. rewrite Forall_forall in Hf. destruct (Hf _ Hin) as [Hrid _].
  apply elem_of_tenant_ids in Hrid. unfold fb_keys in Hrid.
  apply list_elem_of_fmap in Hrid as [fr [Heq Hfr]]. injection Heq as -> ->. eauto.
Qed.

(** [generate_taxonomy] for one tenant leaves the topics of every other
    tenant as they were, and, when feedback ids are unique, the feedback
    rows of every other tenant as well. *)
Theorem generate_taxonomy_keeps_other_tenants env t cfg w r w' :
  NoDup (map f_id (feedback_tbl w)) →
  generate_taxonomy env t cfg w = (r, w') →
  filter (λ x, t_tenant x ≠ t) (topics_tbl w') = filter (λ x, t_tenant x ≠ t) (topics_tbl w) ∧
  filter (λ fr, f_tenant fr ≠ t) (feedback_tbl w') =
    filter (λ fr, f_tenant fr ≠ t) (feedback_tbl w).
Proof.
  intros Hnd H.
  destruct (wo_generate_taxonomy env (fb_keys w) t cfg w r w' eq_refl H)
    as (_ & Ho & Ht & _).
  split; [exact Ht |]. apply Ho. unfold fb_keys. rewrite map_map. exact Hnd.
Qed.

(** With non-negative norms (as [np.linalg.norm] computes them): when every
    feedback row of the tenant has no confidence or one in [0, 1] before
    [generate_taxonomy], this still holds after it, whatever the outcome:
    each confidence the run writes is in [0, 1], and the clearing step
    writes none. *)
Theorem generate_taxonomy_confidences_in_range env t cfg w r w' :
  (∀ v, 0 <= vnorm env v)%Q →
  conf_ok t w →
  generate_taxonomy env t cfg w = (r, w') →
  conf_ok t w'.
Proof.
  intros Hnn Hok H.
  destruct (wo_generate_taxonomy env (fb_keys w) t cfg w r w' eq_refl H)
    as (_ & _ & _ & Hconf & _).
  exact (Hconf Hnn Hok).
Qed.

(** ** Shape of the result *)

Lemma returns_bind_post {A B} (P : A → Prop) (Q : B → Prop) (m : M A) (f : A → M B) :
  returns P m → (∀ a, P a → returns Q (f a)) → returns Q (m ≫= f).
Proof.
  intros Hm Hf w b w'. rewrite bind_run.
  destruct (m w) as [[a|e] w1] eqn:E; intros H; [| discriminate].
  exact (Hf a (Hm _ _ _ E) _ _ _ H).
Qed.

Lemma returns_any {A} (m : M A) : returns (λ _, True) m.
Proof. intros ? ? ? ?. exact I. Qed.

Lemma returns_ret {A} (Q : A → Prop) a : Q a → returns Q (mret a).
Proof. intros Ha w b w' H. injection H as <- _. exact Ha. Qed.

Lemma returns_mapM {A B} (P : B → Prop) (f : A → M B) (l : list A) :
  (∀ x, returns P (f x)) → returns (Forall P) (mapM f l).
Proof.
  intros Hf. induction l as [|x l IH]; cbn; [apply returns_ret; constructor |].
  apply (returns_bind_post P); [apply Hf | intros y Hy].
  apply (returns_bind_post (Forall P)); [exact IH | intros ys Hys].
  apply returns_ret. constructor; assumption.
Qed.

Lemma returns_lift {A} (Q : A → Prop) (x : Exc A) :
  (∀ a, x = Ok a → Q a) → returns Q (lift x).
Proof. intros Hx w a w' H. destruct x as [b|e]; [injection H as -> _; auto | discriminate]. Qed.

Ltac skip_binds :=
  repeat (apply (returns_bind_post (λ _, True)); [apply returns_any | intros ? _]; cbn zeta).

Lemma level2_cluster_step_returns env t pid ptitle reduced sc :
  returns (λ tr, tr_level tr = 2 ∧ tr_parent_id tr = Some pid)
    (level2_cluster_step env t pid ptitle reduced sc).
Proof.
  unfold level2_cluster_step. skip_binds. apply returns_lift.
  intros tr Htr. apply TopicResult_new_ok in Htr as (_ & _ & _ & Hl & Hp & _). auto.
Qed.

Lemma level1_topic_step_returns env t red c :
  returns (λ tr, tr_level tr = 1 ∧ tr_parent_id tr = None) (level1_topic_step env t red c).
Proof.
  unfold level1_topic_step. skip_binds. apply returns_lift.
  intros tr Htr. apply TopicResult_new_ok in Htr as (_ & _ & _ & Hl & Hp & _). auto.
Qed.

Lemma generate_level2_topics_returns env t pid ptitle c emb texts cfg :
  returns (Forall (λ tr, tr_level tr = 2 ∧ tr_parent_id tr = Some pid))
    (generate_level2_topics env t pid ptitle c emb texts cfg).
Proof.
  unfold generate_level2_topics. skip_binds.
  destruct (decide _); [apply returns_ret; constructor |].
  skip_binds. apply returns_mapM. intros sc. apply level2_cluster_step_returns.
Qed.

Lemma level1_cluster_step_returns env t cfg red emb texts c :
  returns topic_group (level1_cluster_step env t cfg red emb texts c).
Proof.
  unfold level1_cluster_step.
  eapply returns_bind_post; [apply level1_topic_step_returns | intros tr [Hl Hp]].
  destruct (level2_gate cfg c).
  - eapply returns_bind_post; [apply generate_level2_topics_returns | intros l2 Hl2].
    apply returns_ret. eexists _, _. split; [reflexivity |]. auto.
  - apply returns_ret. eexists _, []. split; [reflexivity |]. auto.
Qed.

Lemma level1_loop_returns env t cfg red emb texts cs :
  returns (λ ts, ∃ groups, ts = concat groups ∧ length groups = length cs ∧
                           Forall topic_group groups)
    (level1_loop env t cfg red emb texts cs).
Proof.
  induction cs as [|c cs IH]; cbn [level1_loop].
  - apply returns_ret. exists []. auto.
  - eapply returns_bind_post; [apply level1_cluster_step_returns | intros g Hg].
    eapply returns_bind_post; [exact IH | intros ts' (gs & -> & Hlen & Hgs)].
    apply returns_ret. exists (g :: gs). cbn. auto.
Qed.

(** The topics of a [COMPLETED] result of [generate_taxonomy] come in one
    group per Level 1 cluster: a Level 1 topic without parent followed by
    the Level 2 topics whose parent is that topic's id. *)
Theorem generate_taxonomy_topics_grouped env t cfg w r w' :
  generate_taxonomy env t cfg w = (Ok r, w') → cr_status r = COMPLETED →
  ∃ groups, cr_topics r = concat groups ∧ Z.of_nat (length groups) = cr_num_clusters r ∧
    Forall topic_group groups.
Proof.
  unfold generate_taxonomy. rewrite bind_run. cbv [fresh_uuid try_except].
  match goal with |- context [generate_taxonomy_try ?a ?b ?c ?d ?w1] =>
    destruct (generate_taxonomy_try a b c d w1) as [[r0|e] w2] eqn:E end;
    intros H Hs; injection H as <- <-; [| discriminate].
  apply generate_taxonomy_try_inv in E as (n & w1 & ids & embs & txts & _ & _ & Hr).
  destruct Hr as [(_ & _ & ->) | (_ & red & cr & ts & _ & _ & Hl & ->)].
  - exists []. auto.
  - destruct (level1_loop_returns _ _ _ _ _ _ _ _ _ _ Hl) as (gs & -> & Hlen & Hgs).
    exists gs. cbn. unfold py_len. rewrite Hlen. auto.
Qed.

Lemma grows_refl w : grows w w.
Proof. split; [exists []; by rewrite app_nil_r | lia]. Qed.

Lemma grows_trans w1 w2 w3 : grows w1 w2 → grows w2 w3 → grows w1 w3.
Proof.
  intros [[r1 H1] N1] [[r2 H2] N2]. split; [| lia].
  exists (r1 ++ r2). by rewrite H2, H1, app_assoc.
Qed.

Lemma grows_m_ret {A} (a : A) : grows_m (mret a).
Proof. intros w r w' H. injection H as _ <-. apply grows_refl. Qed.

Lemma grows_m_lift {A} (x : Exc A) : grows_m (lift x).
Proof. intros w r w' H. injection H as _ <-. apply grows_refl. Qed.

Lemma grows_m_bind {A B} (m : M A) (f : A → M B) :
  grows_m m → (∀ a, grows_m (f a)) → grows_m (m ≫= f).
Proof.
  intros Hm Hf w r w'. rewrite bind_run.
  destruct (m w) as [[a|e] w1] eqn:E; intros H.
  - exact (grows_trans _ _ _ (Hm _ _ _ E) (Hf a _ _ _ H)).
  - injection H as _ <-. exact (Hm _ _ _ E).
Qed.

Lemma grows_m_mapM {A B} (f : A → M B) (l : list A) :
  (∀ x, grows_m (f x)) → grows_m (mapM f l).
Proof.
  intros Hf. induction l as [|x l IH]; cbn; [apply grows_m_ret |].
  apply grows_m_bind; [apply Hf | intros y].
  apply grows_m_bind; [exact IH | intros ys; apply grows_m_ret].
Qed.

Lemma grows_m_emit ev : grows_m (emit ev).
Proof. intros w r w' H. injection H as _ <-. split; [exists []; by rewrite app_nil_r | cbn; lia]. Qed.

Lemma grows_m_save_topic t ttl desc level parent emb :
  grows_m (save_topic t ttl desc level parent emb).
Proof.
  intros w r w'. rewrite save_topic_run. intros H. injection H as _ <-.
  split; [eexists; reflexivity | cbn; lia].
Qed.

Lemma grows_m_update_members ids tid avg : grows_m (update_members ids tid avg).
Proof.
  intros w r w'. destruct (update_members_run ids tid avg w) as [fs ->]. intros H.
  injection H as _ <-. split; [exists []; cbn; by rewrite app_nil_r | cbn; lia].
Qed.

Create HintDb grows_db.
#[local] Hint Resolve grows_m_ret grows_m_lift grows_m_emit grows_m_save_topic
  grows_m_update_members : grows_db.

Ltac solve_grows :=
  repeat (match goal with
          | |- grows_m (mbind _ _) => apply grows_m_bind; [| intros ?]
          | |- grows_m (mapM _ _) => apply grows_m_mapM; intros ?
          | |- grows_m (if ?b then _ else _) => destruct b
          | |- grows_m (match ?x with _ => _ end) => destruct x
          | |- grows_m _ => eauto with grows_db
          end; cbn zeta).

Lemma grows_m_level2_cluster_step env t pid ptitle reduced sc :
  grows_m (level2_cluster_step env t pid ptitle reduced sc).
Proof. unfold level2_cluster_step. solve_grows. Qed.

Lemma grows_m_generate_level2_topics env t pid ptitle c emb texts cfg :
  grows_m (generate_level2_topics env t pid ptitle c emb texts cfg).
Proof. unfold generate_level2_topics. solve_grows. apply grows_m_level2_cluster_step. Qed.

Lemma grows_m_level1_topic_step env t red c :
  grows_m (level1_topic_step env t red c).
Proof. unfold level1_topic_step. solve_grows. Qed.

Lemma grows_m_level1_cluster_step env t cfg red emb texts c :
  grows_m (level1_cluster_step env t cfg red emb texts c).
Proof.
  unfold level1_cluster_step. apply grows_m_bind; [apply grows_m_level1_topic_step | intros tr].
  solve_grows. apply grows_m_generate_level2_topics.
Qed.

Lemma grows_m_level1_loop env t cfg red emb texts cs :
  grows_m (level1_loop env t cfg red emb texts cs).
Proof.
  induction cs as [|c cs IH]; cbn [level1_loop]; solve_grows;
    auto using grows_m_level1_cluster_step.
Qed.

Lemma saved_topics_nil t w w' : saved_topics t w w' [].
Proof. split; constructor. Qed.

Lemma saved_topics_app t w w1 w2 a b :
  (next_uuid w <= next_uuid w1)%nat →
  saved_topics t w w1 a → grows w1 w2 → saved_topics t w1 w2 b →
  saved_topics t w w2 (a ++ b).
Proof.
  intros Hn01 [Hna Ha] [[rows Hrows] Hnext] [Hnb Hb]. rewrite Forall_forall in Ha, Hb. split.
  - rewrite map_app. apply NoDup_app. split; [exact Hna |]. split; [| exact Hnb].
    intros x Hx Hx'.
    apply list_elem_of_fmap in Hx as [ta [-> Hta]]. apply list_elem_of_fmap in Hx' as [tb [Heq Htb]].
    destruct (Ha ta Hta) as [[_ Hlt] _]. destruct (Hb tb Htb) as [[Hge _] _]. lia.
  - apply Forall_app. split; apply Forall_forall.
    + intros ta Hta. destruct (Ha ta Hta) as [[H1 H2] (row & Hrow & Hr)].
      split; [lia |]. exists row. split; [rewrite Hrows; apply elem_of_app; by left | exact Hr].
    + intros tb Htb. destruct (Hb tb Htb) as [[H1 H2] Hr]. split; [lia | exact Hr].
Qed.

Ltac run_lift H :=
  step_in H;
  match type of H with
  | context [match ?x with Ok _ => _ | Err _ => _ end] =>
      let E := fresh "E" in destruct x eqn:E; [| discriminate]
  end.

(** One topic row appended under the next id, with the result's title,
    level and parent. *)
Lemma saved_topics_appended t w tr emb fs tr' :
  tr_id tr = next_uuid w →
  saved_topics t w
    {| topics_tbl := topics_tbl w ++
         [{| t_id := next_uuid w; t_title := tr_title tr; t_level := tr_level tr;
             t_parent := tr_parent_id tr; t_tenant := t; t_embedding := emb |}];
       feedback_tbl := fs; next_uuid := S (next_uuid w); trace := tr' |} [tr].
Proof.
  intros Hid. split; [apply NoDup_singleton |]. constructor; [| constructor].
  cbn [next_uuid topics_tbl]. split; [lia |].
  eexists. split; [apply elem_of_app; right; apply list_elem_of_singleton; reflexivity |].
  cbn. auto.
Qed.

Lemma level2_cluster_step_saved env t pid ptitle reduced sc :
  returns_saved t (λ tr, [tr]) (level2_cluster_step env t pid ptitle reduced sc).
Proof.
  intros w a w' H.
  apply level2_cluster_step_ok in H as (lbl & emb & fs & _ & Hid & Hl & Hp & _ & _ & ->).
  rewrite <- Hl, <- Hp. apply saved_topics_appended, Hid.
Qed.

Lemma level1_topic_step_saved env t red c :
  returns_saved t (λ tr, [tr]) (level1_topic_step env t red c).
Proof.
  intros w a w' H.
  apply level1_topic_step_ok in H as (lbl & emb & fs & _ & Hid & Hl & Hp & _ & _ & ->).
  rewrite <- Hl, <- Hp. apply saved_topics_appended, Hid.
Qed.

Lemma mapM_saved {A} t (f : A → M TopicResult) (l : list A) :
  (∀ x, returns_saved t (λ y, [y]) (f x)) → (∀ x, grows_m (f x)) →
  returns_saved t id (mapM f l).
Proof.
  intros Hs Hg. induction l as [|x l IH]; cbn; intros w a w' H.
  - injection H as <- <-. apply saved_topics_nil.
  - rewrite bind_run in H. destruct (f x w) as [[y|e] w1] eqn:E1; [| discriminate].
    rewrite bind_run in H. destruct (mapM f l w1) as [[ys|e] w2] eqn:E2; [| discriminate].
    cbv [mret M_ret] in H. injection H as <- <-.
    change (y :: ys) with ([y] ++ ys). apply (saved_topics_app _ _ w1).
    + exact (proj2 (Hg x _ _ _ E1)).
    + exact (Hs x _ _ _ E1).
    + exact (grows_m_mapM f l Hg _ _ _ E2).
    + exact (IH _ _ _ E2).
Qed.

Lemma generate_level2_topics_saved env t pid ptitle c emb texts cfg :
  returns_saved t id (generate_level2_topics env t pid ptitle c emb texts cfg).
Proof.
  intros w a w' H. unfold generate_level2_topics in H.
  rewrite bind_run in H. cbv [emit] in H. cbv beta iota in H.
  run_lift H. cbn zeta in H. destruct (decide _).
  { cbv [mret M_ret] in H. injection H as <- <-. apply saved_topics_nil. }
  run_lift H. run_lift H.
  exact (mapM_saved t _ _ (level2_cluster_step_saved env t pid ptitle _)
           (grows_m_level2_cluster_step env t pid ptitle _) _ _ _ H).
Qed.

Lemma level1_cluster_step_saved env t cfg red emb texts c :
  returns_saved t id (level1_cluster_step env t cfg red emb texts c).
Proof.
  intros w a w' H. unfold level1_cluster_step in H. rewrite bind_run in H.
  destruct (level1_topic_step _ _ _ _ w) as [[tr|e] w1] eqn:E1; [| discriminate].
  pose proof (level1_topic_step_saved _ _ _ _ _ _ _ E1) as S1.
  pose proof (grows_m_level1_topic_step _ _ _ _ _ _ _ E1) as G1.
  destruct (level2_gate cfg c).
  - rewrite bind_run in H.
    destruct (generate_level2_topics _ _ _ _ _ _ _ _ w1) as [[l2|e] w2] eqn:El;
      [| discriminate].
    cbv [mret M_ret] in H. injection H as <- <-.
    change (tr :: l2) with ([tr] ++ l2). apply (saved_topics_app _ _ w1).
    + exact (proj2 G1).
    + exact S1.
    + exact (grows_m_generate_level2_topics _ _ _ _ _ _ _ _ _ _ _ El).
    + exact (generate_level2_topics_saved _ _ _ _ _ _ _ _ _ _ _ El).
  - cbv [mret M_ret] in H. injection H as <- <-. exact S1.
Qed.

Lemma level1_loop_saved env t cfg red emb texts cs :
  returns_saved t id (level1_loop env t cfg red emb texts cs).
Proof.
  induction cs as [|c cs IH]; cbn [level1_loop]; intros w a w' H.
  - injection H as <- <-. apply saved_topics_nil.
  - rewrite bind_run in H.
    destruct (level1_cluster_step _ _ _ _ _ _ c w) as [[ts|e] w1] eqn:E1; [| discriminate].
    rewrite bind_run in H.
    destruct (level1_loop _ _ _ _ _ _ cs w1) as [[ts'|e] w2] eqn:E2; [| discriminate].
    cbv [mret M_ret] in H. injection H as <- <-. apply (saved_topics_app _ _ w1).
    + exact (proj2 (grows_m_level1_cluster_step _ _ _ _ _ _ _ _ _ _ E1)).
    + exact (level1_cluster_step_saved _ _ _ _ _ _ _ _ _ _ E1).
    + exact (grows_m_level1_loop _ _ _ _ _ _ _ _ _ _ E2).
    + exact (IH _ _ _ E2).
Qed.

(** The topics of a [COMPLETED] result of [generate_taxonomy] have
    distinct ids, and each one is a row of the final topics table, of the
    tenant, with the same id, title, level and parent. *)
Theorem generate_taxonomy_topics_saved env t cfg w r w' :
  generate_taxonomy env t cfg w = (Ok r, w') → cr_status r = COMPLETED →
  NoDup (map tr_id (cr_topics r)) ∧
  ∀ tr, tr ∈ cr_topics r →
    ∃ row, row ∈ topics_tbl w' ∧ t_id row = tr_id tr ∧ t_title row = tr_title tr ∧
      t_level row = tr_level tr ∧ t_parent row = tr_parent_id tr ∧ t_tenant row = t.
Proof.
  unfold generate_taxonomy. rewrite bind_run. cbv [fresh_uuid try_except].
  match goal with |- context [generate_taxonomy_try ?a ?b ?c ?d ?w1] =>
    destruct (generate_taxonomy_try a b c d w1) as [[r0|e] w2] eqn:E end;
    intros H Hs; injection H as <- <-; [| discriminate].
  apply generate_taxonomy_try_inv in E as (n & w1 & ids & embs & txts & _ & _ & Hr).
  destruct Hr as [(_ & _ & ->) | (_ & red & cr & ts & _ & _ & Hl & ->)].
  - cbn. split; [constructor | intros tr Htr; inversion Htr].
  - destruct (level1_loop_saved _ _ _ _ _ _ _ _ _ _ Hl) as [Hnd Hall].
    cbn. split; [exact Hnd |]. intros tr Htr. rewrite Forall_forall in Hall.
    exact (proj2 (Hall tr Htr)).
Qed.

Lemma NoDup_bound_length (L : list nat) n :
  NoDup L → (∀ i, i ∈ L → (i < n)%nat) → (length L <= n)%nat.
Proof.
  intros Hnd Hb. rewrite <- (length_seq n 0). apply NoDup_incl_length; [by apply NoDup_ListNoDup |].
  intros i Hi. apply list_elem_of_In, Hb in Hi. apply in_seq. lia.
Qed.

Lemma py_gather_bound {A} (l : list A) idxs r :
  py_gather l idxs = Ok r → (∀ i, i ∈ idxs → (i < length l)%nat) ∧ length r = length idxs.
Proof.
  intros H. apply mapM_exc_inv in H. split; [| symmetry; exact (Forall2_length _ _ _ H)].
  intros i Hi. apply list_elem_of_lookup_1 in Hi as [k Hk].
  destruct (Forall2_lookup_l _ _ _ _ _ H Hk) as [y [_ Hy]].
  unfold py_index in Hy. destruct (l !! i) eqn:E; [| discriminate].
  apply lookup_lt_Some in E. exact E.
Qed.

Lemma hd_elem_of {A} (d : A) (l : list A) : l ≠ [] → hd d l ∈ l.
Proof. destruct l; [contradiction | intros _; cbn; by apply elem_of_cons; left]. Qed.

Lemma indices_with_nonempty (labels : list Z) l :
  l ∈ labels → indices_with labels l ≠ [].
Proof.
  intros Hl. apply list_elem_of_lookup_1 in Hl as [i Hi].
  assert (Hin : i ∈ indices_with labels l) by (apply elem_of_indices_with; exact Hi).
  intros He. rewrite He in Hin. inversion Hin.
Qed.

(** Noise points and clusters of [fit_predict] are at most as many as the
    records: each cluster has a point of its own, none of them noise. *)
Lemma fit_predict_counts env s X ids texts r :
  fit_predict env s X ids texts = Ok r →
  (length (noise_ids r) + length (clusters r) <= length ids)%nat.
Proof.
  unfold fit_predict. destruct (decide (length X = 0%nat)).
  { intros H. injection H as <-. cbn. lia. }
  intros H. apply exc_bind_ok_inv in H as [[lbls probs] [_ H]].
  apply exc_bind_ok_inv in H as [nids [Hn H]].
  apply exc_bind_ok_inv in H as [cs [Hcs H]]. injection H as <-. cbn.
  apply py_gather_bound in Hn as [Hnb ->].
  apply mapM_exc_inv in Hcs. rewrite <- (Forall2_length _ _ _ Hcs).
  set (h := λ l, hd 0%nat (indices_with lbls l)).
  assert (Hh : ∀ l, l ∈ unique_labels lbls → h l ∈ indices_with lbls l).
  { intros l Hl. apply hd_elem_of, indices_with_nonempty.
    apply elem_of_unique_labels in Hl. tauto. }
  rewrite <- (length_map h (unique_labels lbls)), <- length_app.
  apply NoDup_bound_length.
  - apply NoDup_app. split; [apply NoDup_filter, NoDup_seq |]. split.
    + intros i Hi Hi'. apply list_elem_of_fmap in Hi' as [l [-> Hl]].
      apply elem_of_indices_with in Hi. pose proof (Hh l Hl) as Hl'.
      apply elem_of_indices_with in Hl'. rewrite Hi in Hl'. injection Hl' as Heq. subst l. apply elem_of_unique_labels in Hl. tauto.
    + apply NoDup_fmap_2_strong; [| apply NoDup_unique_labels].
      intros x y Hx Hy Hxy. apply Hh, elem_of_indices_with in Hx.
      apply Hh, elem_of_indices_with in Hy. rewrite Hxy in Hx. congruence.
  - intros i Hi. apply elem_of_app in Hi as [Hi | Hi]; [exact (Hnb i Hi) |].
    apply list_elem_of_fmap in Hi as [l [-> Hl]].
    apply list_elem_of_lookup_1 in Hl as Hk. destruct Hk as [k Hk].
    destruct (Forall2_lookup_l _ _ _ _ _ Hcs Hk) as [c [_ Hb]].
    unfold build_cluster in Hb. destruct (decide _); [discriminate |].
    apply exc_bind_ok_inv in Hb as [ce [_ Hb]].
    apply exc_bind_ok_inv in Hb as [mids [Hmids _]].
    apply py_gather_bound in Hmids as [Hmb _]. apply Hmb, Hh, Hl.
Qed.

(** The counts of a [COMPLETED] result of [generate_taxonomy]: the noise
    records are between 0 and the total, the clustered records are the
    total minus the noise, and there are no more clusters than clustered
    records. *)
Theorem generate_taxonomy_counts env t cfg w r w' :
  generate_taxonomy env t cfg w = (Ok r, w') → cr_status r = COMPLETED →
  0 <= cr_noise_records r <= cr_total_records r ∧
  cr_clustered_records r = cr_total_records r - cr_noise_records r ∧
  0 <= cr_num_clusters r <= cr_clustered_records r.
Proof.
  unfold generate_taxonomy. rewrite bind_run. cbv [fresh_uuid try_except].
  match goal with |- context [generate_taxonomy_try ?a ?b ?c ?d ?w1] =>
    destruct (generate_taxonomy_try a b c d w1) as [[r0|e] w2] eqn:E end;
    intros H Hs; injection H as <- <-; [| discriminate].
  apply generate_taxonomy_try_inv in E as (n & w1 & ids & embs & txts & _ & _ & Hr).
  destruct Hr as [(_ & _ & ->) | (_ & red & cr & ts & _ & Hp & _ & ->)].
  - cbn. lia.
  - apply fit_predict_counts in Hp. cbn. unfold py_len. lia.
Qed.

Lemma py_gather_map {A} `{Inhabited A} (l : list A) idxs r :
  py_gather l idxs = Ok r → r = map (λ i, l !!! i) idxs.
Proof.
  intros Hg. apply mapM_exc_inv in Hg. induction Hg as [|i y idxs r Hi _ IH]; [reflexivity |].
  cbn. rewrite IH. f_equal. unfold py_index in Hi.
  destruct (l !! i) eqn:E; [| discriminate]. injection Hi as <-.
  symmetry. by apply list_lookup_total_correct.
Qed.

Lemma StronglySorted_lt_unique_labels (labels : list Z) :
  StronglySorted Z.lt (unique_labels labels).
Proof.
  assert (Hs : Sorted Z.le (unique_labels labels)).
  { unfold unique_labels. apply (Sorted_merge_sort Z.le). }
  apply Sorted_StronglySorted in Hs; [| intros x y z; lia].
  pose proof (NoDup_unique_labels labels) as Hnd. revert Hnd.
  induction Hs as [|x l _ IH Hall]; intros Hnd; constructor.
  - apply IH. by apply NoDup_cons in Hnd as [_ Hnd].
  - apply NoDup_cons in Hnd as [Hx _]. rewrite Forall_forall in Hall |- *.
    intros y Hy. apply list_elem_of_In in Hy as Hy'. specialize (Hall y Hy).
    assert (x ≠ y) by (intros ->; contradiction). lia.
Qed.

(** The result of [HDBSCANClusterer.fit_predict]: clusters come in strictly
    increasing label order, none has the noise label [-1] or is empty; a
    cluster's size is its number of member indices, its members are the
    points with its label, and its ids and texts are those of its member
    indices, in order; the noise ids are those of the points labelled
    [-1]. *)
Theorem fit_predict_cluster_shape env s X ids texts r :
  fit_predict env s X ids texts = Ok r →
  StronglySorted Z.lt (map label (clusters r)) ∧
  noise_ids r = map (λ i, ids !!! i) (noise_indices r) ∧
  (∀ i, i ∈ noise_indices r ↔ labels r !! i = Some (-1)) ∧
  ∀ c, c ∈ clusters r →
    label c ≠ -1 ∧ member_indices c ≠ [] ∧ size c = py_len (member_indices c) ∧
    (∀ i, i ∈ member_indices c ↔ labels r !! i = Some (label c)) ∧
    member_ids c = map (λ i, ids !!! i) (member_indices c) ∧
    member_texts c = map (λ i, texts !!! i) (member_indices c).
Proof.
  unfold fit_predict. destruct (decide (length X = 0%nat)).
  { intros H. injection H as <-. cbn. split; [constructor |]. split; [reflexivity |].
    split; [intros i; split; [intros Hi; inversion Hi | by rewrite lookup_nil] |].
    intros c Hc. inversion Hc. }
  intros H. apply exc_bind_ok_inv in H as [[lbls probs] [_ H]].
  apply exc_bind_ok_inv in H as [nids [Hn H]].
  apply exc_bind_ok_inv in H as [cs [Hcs H]]. injection H as <-. cbn.
  apply mapM_exc_inv in Hcs.
  assert (Hb : ∀ l c, build_cluster env X ids texts lbls l = Ok c →
     label c = l ∧ member_indices c = indices_with lbls l ∧
     size c = py_len (indices_with lbls l) ∧
     member_ids c = map (λ i, ids !!! i) (indices_with lbls l) ∧
     member_texts c = map (λ i, texts !!! i) (indices_with lbls l)).
  { intros l c Hbc. unfold build_cluster in Hbc. destruct (decide _); [discriminate |].
    apply exc_bind_ok_inv in Hbc as [ce [_ Hbc]].
    apply exc_bind_ok_inv in Hbc as [mids [Hmids Hbc]].
    apply exc_bind_ok_inv in Hbc as [mtxts [Hmtxts Hbc]]. injection Hbc as <-. cbn.
    apply py_gather_map in Hmids, Hmtxts. auto. }
  split.
  { replace (map label cs) with (unique_labels lbls); [apply StronglySorted_lt_unique_labels |].
    clear Hn. induction Hcs as [|l c ls cs' Hl _ IH]; [reflexivity |].
    cbn. rewrite <- IH. f_equal. symmetry. exact (proj1 (Hb l c Hl)). }
  split; [exact (py_gather_map _ _ _ Hn) |].
  split; [intros i; apply elem_of_indices_with |].
  intros c Hc. apply list_elem_of_lookup_1 in Hc as [k Hk].
  destruct (Forall2_lookup_r _ _ _ _ _ Hcs Hk) as [l [Hl Hbc]].
  apply list_elem_of_lookup_2 in Hl.
  destruct (Hb l c Hbc) as (-> & -> & -> & -> & ->).
  apply elem_of_unique_labels in Hl as [Hl Hne].
  split; [exact Hne |]. split; [apply indices_with_nonempty, Hl |].
  split; [reflexivity |]. split; [intros i; apply elem_of_indices_with |]. auto.
Qed.

(** ** The HTTP layer *)

Lemma string_app_cons x (a b : string) : String x a +:+ b = String x (a +:+ b).
Proof. reflexivity. Qed.

Lemma string_app_assoc (a b c : string) : (a +:+ b) +:+ c = a +:+ (b +:+ c).
Proof. induction a as [|x a IH]; [reflexivity |]. by rewrite !string_app_cons, IH. Qed.

Lemma string_length_app (a b : string) :
  String.length (a +:+ b) = (String.length a + String.length b)%nat.
Proof. induction a as [|x a IH]; [reflexivity |]. rewrite string_app_cons; cbn [String.length]. by rewrite IH. Qed.

Lemma string_prefix_app (a b : string) : String.prefix a (a +:+ b) = true.
Proof.
  induction a as [|x a IH]; [by destruct b |]. rewrite string_app_cons; cbn [String.prefix].
  destruct (Ascii.ascii_dec x x); [exact IH | contradiction].
Qed.

Lemma pretty_N_go_nonempty x s : s ≠ "" → pretty_N_go x s ≠ "".
Proof.
  revert s. induction (N.lt_wf_0 x) as [x _ IH]; intros s Hs.
  destruct (decide (x = 0%N)) as [-> | Hx]; [by rewrite pretty_N_go_0 |].
  rewrite pretty_N_go_step by lia. apply IH; [apply N.div_lt; lia | discriminate].
Qed.

Lemma pretty_nat_nonempty (n : nat) : pretty n ≠ "".
Proof.
  unfold pretty, pretty_nat, pretty, pretty_N.
  destruct (decide (N.of_nat n = 0%N)); [discriminate |].
  rewrite pretty_N_go_step by lia. apply pretty_N_go_nonempty. discriminate.
Qed.

Lemma dict_get_set_same {V} k (v : V) d : dict_get k (dict_set k v d) = Some v.
Proof.
  induction d as [|[k' v'] d IH]; cbn.
  - by rewrite decide_True.
  - destruct (decide (k' = k)); cbn; [by rewrite decide_True | by rewrite decide_False].
Qed.

Lemma dict_get_modify_same {V} k (f : V → V) d :
  dict_get k (dict_modify k f d) = f <$> dict_get k d.
Proof.
  induction d as [|[k' v'] d IH]; cbn; [reflexivity |].
  destruct (decide (k' = k)); cbn.
  - by rewrite decide_True.
  - rewrite decide_False by assumption. exact IH.
Qed.

Lemma dict_set_fresh {V} k (v : V) d : k ∉ d.*1 → dict_set k v d = d ++ [(k, v)].
Proof.
  induction d as [|[k' v'] d IH]; cbn; intros Hk; [reflexivity |].
  rewrite decide_False by (intros ->; apply Hk; by apply elem_of_cons; left).
  f_equal. apply IH. intros Hin. apply Hk. by apply elem_of_cons; right.
Qed.

Lemma generate_taxonomy_result env t cfg w :
  ∃ r w', generate_taxonomy env t cfg w = (Ok r, w') ∧
    cr_tenant_id r = t ∧ cr_job_id r = next_uuid w ∧
    ((cr_status r = COMPLETED ∧ cr_error_message r = None) ∨
     ∃ e, r = failed_result t (next_uuid w) e).
Proof.
  unfold generate_taxonomy. rewrite bind_run. cbv [fresh_uuid try_except].
  match goal with |- context [generate_taxonomy_try ?a ?b ?c ?d ?w1] =>
    destruct (generate_taxonomy_try a b c d w1) as [[r|e] w'] eqn:E end.
  - apply generate_taxonomy_try_inv in E as (n & w1 & ids & embs & txts & _ & _ & Hr).
    exists r, w'. split; [reflexivity |].
    destruct Hr as [(_ & _ & ->) | (_ & red & cr & ts & _ & _ & _ & ->)]; cbn; auto.
  - eexists _, _. split; [reflexivity |]. cbn. split; [reflexivity |].
    split; [reflexivity |]. right. eauto.
Qed.

(** A job started by [trigger_clustering] is reported [PENDING] with
    progress 0; once its background task has run, the status endpoint
    queried with the job's id reports the service's result: its status,
    progress 1, the number of topics in the message, and the result itself.
    The task's [except] branch is never taken. *)
Theorem trigger_then_run_reports_result env t cfg s resp key s1 :
  trigger_clustering t s = (resp, key, s1) →
  jr_status resp = PENDING ∧ jr_progress resp = 0%Q ∧ jr_message resp = Some "Job queued" ∧
  ∃ r, generate_taxonomy env t cfg (app_world s1) =
         (Ok r, app_world (run_clustering env t cfg key s1)) ∧
    get_clustering_status (run_clustering env t cfg key s1) t (Some (pretty (jr_job_id resp))) =
      Ok {| jr_job_id := jr_job_id resp; jr_tenant_id := t; jr_status := cr_status r;
            jr_progress := 1; jr_message := Some (topics_message r); jr_result := Some r |}.
Proof.
  unfold trigger_clustering. intros H. injection H as <- <- <-.
  split; [reflexivity |]. split; [reflexivity |]. split; [reflexivity |].
  destruct (generate_taxonomy_result env t cfg
              {| topics_tbl := topics_tbl (app_world s); feedback_tbl := feedback_tbl (app_world s);
                 next_uuid := S (next_uuid (app_world s)); trace := trace (app_world s) |})
    as (r & w' & Hg & _).
  exists r. unfold run_clustering. cbn [jobs app_world]. rewrite dict_get_set_same, Hg.
  split; [reflexivity |].
  unfold get_clustering_status. cbn [jobs jr_job_id].
  rewrite decide_False by apply pretty_nat_nonempty.
  rewrite !dict_get_modify_same, dict_get_set_same. reflexivity.
Qed.

(** The status endpoint without a job id returns the latest job whose key
    starts with [tenant_id:], which includes the jobs of any tenant named
    [tenant_id:...]: right after such a tenant triggers a job (under a new
    key), tenant [tenant_id] is shown that other tenant's job. *)
Theorem status_without_job_id_shows_prefixed_tenant t suffix s :
  job_key (t +:+ ":" +:+ suffix) (pretty (next_uuid (app_world s))) ∉ (jobs s).*1 →
  get_clustering_status (trigger_clustering (t +:+ ":" +:+ suffix) s).2 t None =
    Ok (trigger_clustering (t +:+ ":" +:+ suffix) s).1.1 ∧
  jr_tenant_id (trigger_clustering (t +:+ ":" +:+ suffix) s).1.1 ≠ t.
Proof.
  intros Hfresh. unfold trigger_clustering. cbn [fst snd jobs jr_tenant_id]. split.
  - unfold get_clustering_status. cbn [jobs]. rewrite dict_set_fresh by exact Hfresh.
    rewrite filter_app, filter_cons_True, filter_nil; [by rewrite last_snoc |].
    cbn [fst]. unfold job_key. rewrite !string_app_assoc, <- (string_app_assoc t ":").
    apply string_prefix_app.
  - intros Heq. apply (f_equal String.length) in Heq.
    rewrite !string_length_app in Heq. cbn in Heq. lia.
Qed.

(** [sync_clustering] never raises: it returns the service's result with
    its status, progress 1 and the number of topics in the message, and it
    does not record the job in [_jobs], so the status endpoint does not
    know it. *)
Theorem sync_clustering_reports_result env t cfg s :
  ∃ r s', sync_clustering env t cfg s =
    (Ok {| jr_job_id := next_uuid (app_world s); jr_tenant_id := t;
           jr_status := cr_status r; jr_progress := 1;
           jr_message := Some (topics_message r); jr_result := Some r |}, s') ∧
    jobs s' = jobs s ∧ cr_tenant_id r = t.
Proof.
  unfold sync_clustering.
  match goal with |- context [generate_taxonomy env t cfg ?w] =>
    destruct (generate_taxonomy_result env t cfg w) as (r & w' & Hg & Ht & _) end.
  rewrite Hg. eexists _, _. split; [reflexivity |]. auto.
Qed.

(** ** The reducer object *)

(** [UMAPReducer.transform] raises "UMAP model not fitted" exactly while no
    [fit_transform] call has had a non-empty batch; after one (even one
    whose UMAP fit raised) it calls the stored object's [transform]. The
    value [fit_transform] returns does not depend on earlier calls. *)
Theorem reducer_transform_needs_fit env r umap_transform batches X :
  (Forall (λ b, b = []) batches →
   transform umap_transform (reducer_after env r batches) X =
     Err "ValueError: UMAP model not fitted. Call fit_transform first.") ∧
  (Exists (λ b, b ≠ []) batches →
   ∃ m, transform umap_transform (reducer_after env r batches) X = umap_transform m X) ∧
  ∀ st, (fit_transform_st env r st X).1 = fit_transform env r X.
Proof.
  split; [| split].
  - unfold reducer_after. enough (∀ st, Forall (λ b, b = []) batches →
       fold_left (λ st b, (fit_transform_st env r st b).2) batches st = st) as Hfix.
    { intros Hall. rewrite (Hfix None Hall). reflexivity. }
    induction batches as [|b bs IH]; intros st Hall; [reflexivity |].
    apply Forall_cons in Hall as [-> Hall]. cbn. exact (IH st Hall).
  - unfold reducer_after.
    enough (∀ st, Exists (λ b, b ≠ []) batches →
       ∃ m, fold_left (λ st b, (fit_transform_st env r st b).2) batches st = Some m) as Hsome.
    { intros Hex. destruct (Hsome None Hex) as [m ->]. exists m. reflexivity. }
    assert (Hkeep : ∀ bs m, ∃ m',
              fold_left (λ st b, (fit_transform_st env r st b).2) bs (Some m) = Some m').
    { induction bs as [|b bs IH]; intros m; [eauto |]. cbn.
      unfold fit_transform_st. destruct (decide _); [apply IH |].
      destruct (umap_fit _ _ _ _ _ _); apply IH. }
    induction batches as [|b bs IH]; intros st Hex; [inversion Hex |].
    apply Exists_cons in Hex as [Hb | Hex]; cbn.
    + unfold fit_transform_st at 2. rewrite decide_False by (intros Hl; apply Hb, nil_length_inv, Hl).
      destruct (umap_fit _ _ _ _ _ _); apply Hkeep.
    + apply IH, Hex.
  - intros st. unfold fit_transform_st, fit_transform.
    destruct (decide _); [reflexivity |]. by destruct (umap_fit _ _ _ _ _ _).
Qed.

(** * Instances of the further properties on explicit inputs *)

Lemma label_cluster_outcomes_witness :
  label_cluster demo_env_empty_reply ["feedback"] 3 None 1 None = Ok (fallback_label 3) ∧
  label_cluster demo_env_list_title ["feedback"] 3 None 1 None =
    Ok (label_of_object [("title", JArray [JString "Billing"]);
                         ("description", JString "Invoices and refunds")] 3).
Proof.
  split.
  - apply (proj1 (label_cluster_outcomes demo_env_empty_reply ["feedback"] 3 None 1 None)).
    vm_compute. auto.
  - apply (proj2 (label_cluster_outcomes demo_env_list_title ["feedback"] 3 None 1 None)
             "{title: [Billing], description: Invoices and refunds}").
    + vm_compute. reflexivity.
    + discriminate.
    + vm_compute. reflexivity.
Defined.

Lemma label_cluster_try_bounds_witness :
  ∃ l, label_cluster_try demo_env_list_title ["feedback"] 3 None 1 None = Ok l ∧
    json_len_le (title l) 255 ∧ json_len_le (description l) 500.
Proof.
  eexists. split; [vm_compute; reflexivity |].
  apply (label_cluster_try_bounds demo_env_list_title ["feedback"] 3 None 1 None).
  vm_compute. reflexivity.
Defined.


Lemma save_topic_fresh_id_witness :
  ∃ w', save_topic "acme" "Billing" (JString "Invoices") 1 None [1%Q]
          (demo_world "acme" 2 [prior_topic]) =
          (Ok 1000%nat, w') ∧
    NoDup (map t_id (topics_tbl w')) ∧ (∀ r, r ∈ topics_tbl w' → (t_id r < next_uuid w')%nat).
Proof.
  destruct (save_topic_fresh_id "acme" "Billing" (JString "Invoices") 1 None [1%Q]
              (demo_world "acme" 2 [prior_topic])) as (w' & Hrun & _ & _ & _ & Hnd & Hlt).
  - cbn. repeat constructor. set_solver.
  - intros r Hr. apply list_elem_of_singleton in Hr as ->. cbn. lia.
  - exists w'. split; [exact Hrun |]. split; [exact Hnd | exact Hlt].
Defined.

Lemma update_feedback_topic_effect_witness :
  ∃ w', update_feedback_topic 5 1000 (1 # 2) (demo_world "acme" 2 []) = (Ok (), w') ∧
    feedback_tbl w' = feedback_tbl (demo_world "acme" 2 []).
Proof.
  destruct (update_feedback_topic_effect 5 1000 (1 # 2) (demo_world "acme" 2 []))
    as (w' & Hrun & _ & _ & _ & _ & Hnone & _).
  exists w'. split; [exact Hrun |]. apply Hnone.
  intros fr Hfr. cbn [feedback_tbl demo_world] in Hfr.
  apply list_elem_of_fmap in Hfr as (i & -> & Hi).
  apply list_elem_of_In, in_seq in Hi. cbn. lia.
Defined.

Lemma generate_taxonomy_no_rows_witness :
  ∃ w', generate_taxonomy (demo_env umap_identity hdb_one_cluster embed_ok) "beta" None
          (demo_world "acme" 3 []) =
    (Ok {| cr_tenant_id := "beta"; cr_job_id := 1000; cr_status := COMPLETED;
           cr_total_records := 0; cr_clustered_records := 0; cr_noise_records := 0;
           cr_num_clusters := 0; cr_topics := []; cr_error_message := None |}, w') ∧
    trace w' = [EvClearTopics "beta"].
Proof.
  destruct (generate_taxonomy_no_rows (demo_env umap_identity hdb_one_cluster embed_ok) "beta"
              None (demo_world "acme" 3 [])) as (w' & Hrun & _ & _ & Htr).
  - intros fr Hfr. cbn [feedback_tbl demo_world] in Hfr.
    apply list_elem_of_fmap in Hfr as (i & -> & _).
    intros [Ht _]. discriminate Ht.
  - exists w'. split; [exact Hrun | exact Htr].
Defined.

Lemma generate_level2_topics_small_cluster_witness :
  generate_level2_topics (demo_env umap_identity hdb_one_cluster embed_ok) "acme" 1000 "Topic"
    tie_cluster tie_embeddings ["first"; "second"] default_config (demo_world "acme" 2 []) =
  (Ok [], {| topics_tbl := []; feedback_tbl := feedback_tbl (demo_world "acme" 2 []);
             next_uuid := 1000; trace := [EvLevel2Start "Topic" 2] |}).
Proof.
  apply (generate_level2_topics_small_cluster (demo_env umap_identity hdb_one_cluster embed_ok)
           "acme" 1000 "Topic" tie_cluster tie_embeddings ["first"; "second"] default_config
           tie_embeddings (demo_world "acme" 2 [])).
  - reflexivity.
  - vm_compute. reflexivity.
Defined.

Lemma generate_taxonomy_writes_tenant_rows_witness :
  let run := generate_taxonomy (demo_env umap_identity hdb_one_cluster embed_ok) "acme" None
               (demo_world "acme" 3 []) in
  ∃ suffix, trace run.2 = [] ++ suffix ∧
    ∀ rid tid c, EvUpdateFeedback rid tid c ∈ suffix →
      ∃ fr, fr ∈ feedback_tbl (demo_world "acme" 3 []) ∧ f_id fr = rid ∧ f_tenant fr = "acme".
Proof.
  intros run.
  apply (generate_taxonomy_writes_tenant_rows (demo_env umap_identity hdb_one_cluster embed_ok)
           "acme" None (demo_world "acme" 3 []) run.1 run.2).
  apply surjective_pairing.
Defined.

Lemma generate_taxonomy_keeps_other_tenants_witness :
  let w := {| topics_tbl := [prior_topic]; feedback_tbl := map (demo_row "acme") (seq 0 3) ++
                map (demo_row "beta") (seq 3 2); next_uuid := 1000; trace := [] |} in
  let run := generate_taxonomy (demo_env umap_identity hdb_one_cluster embed_ok) "acme" None w in
  filter (λ fr, f_tenant fr ≠ "acme") (feedback_tbl run.2) =
    filter (λ fr, f_tenant fr ≠ "acme") (feedback_tbl w).
Proof.
  intros w run.
  apply (generate_taxonomy_keeps_other_tenants (demo_env umap_identity hdb_one_cluster embed_ok)
           "acme" None w run.1 run.2).
  - apply (bool_decide_unpack _). vm_compute. reflexivity.
  - apply surjective_pairing.
Defined.

Lemma generate_taxonomy_confidences_in_range_witness :
  let run := generate_taxonomy (demo_env umap_identity hdb_one_cluster embed_ok) "acme" None
               (demo_world "acme" 3 []) in
  Forall (λ fr, f_tenant fr = "acme" →
    f_conf fr = None ∨ ∃ c, f_conf fr = Some c ∧ (0 <= c <= 1)%Q) (feedback_tbl run.2).
Proof.
  intros run. apply Forall_forall.
  apply (generate_taxonomy_confidences_in_range (demo_env umap_identity hdb_one_cluster embed_ok)
           "acme" None (demo_world "acme" 3 []) run.1 run.2).
  - intros v. cbn [vnorm demo_env]. apply qsum_nonneg, Forall_forall.
    intros q Hq. apply list_elem_of_fmap in Hq as (x & -> & _). apply Qabs_nonneg.
  - intros fr Hfr _. cbn in Hfr.
    repeat (apply elem_of_cons in Hfr as [-> | Hfr]; [left; reflexivity |]).
    apply elem_of_nil in Hfr. contradiction.
  - apply surjective_pairing.
Defined.

Lemma generate_taxonomy_topics_grouped_witness :
  ∃ r w', generate_taxonomy (demo_env umap_identity hdb_one_cluster embed_ok) "acme" None
            (demo_world "acme" 3 []) = (Ok r, w') ∧ cr_status r = COMPLETED ∧
    ∃ groups, cr_topics r = concat groups ∧ Z.of_nat (length groups) = cr_num_clusters r ∧
      Forall topic_group groups.
Proof.
  do 2 eexists. assert (Hrun : generate_taxonomy
    (demo_env umap_identity hdb_one_cluster embed_ok) "acme" None (demo_world "acme" 3 []) =
    (Ok _, _)) by (vm_compute; reflexivity).
  split; [exact Hrun |]. split; [reflexivity |].
  apply (generate_taxonomy_topics_grouped (demo_env umap_identity hdb_one_cluster embed_ok)
           "acme" None (demo_world "acme" 3 []) _ _ Hrun).
  reflexivity.
Defined.

Lemma generate_taxonomy_topics_saved_witness :
  ∃ r w', generate_taxonomy (demo_env umap_identity hdb_one_cluster embed_ok) "acme" None
            (demo_world "acme" 3 []) = (Ok r, w') ∧ cr_status r = COMPLETED ∧
    NoDup (map tr_id (cr_topics r)) ∧
    ∀ tr, tr ∈ cr_topics r →
      ∃ row, row ∈ topics_tbl w' ∧ t_id row = tr_id tr ∧ t_title row = tr_title tr ∧
        t_level row = tr_level tr ∧ t_parent row = tr_parent_id tr ∧ t_tenant row = "acme".
Proof.
  do 2 eexists. assert (Hrun : generate_taxonomy
    (demo_env umap_identity hdb_one_cluster embed_ok) "acme" None (demo_world "acme" 3 []) =
    (Ok _, _)) by (vm_compute; reflexivity).
  split; [exact Hrun |]. split; [reflexivity |].
  apply (generate_taxonomy_topics_saved (demo_env umap_identity hdb_one_cluster embed_ok)
           "acme" None (demo_world "acme" 3 []) _ _ Hrun).
  reflexivity.
Defined.

Lemma generate_taxonomy_counts_witness :
  ∃ r w', generate_taxonomy (demo_env umap_identity (hdb_two_clusters 2) embed_ok) "acme" None
            (demo_world "acme" 3 []) = (Ok r, w') ∧ cr_status r = COMPLETED ∧
    0 <= cr_noise_records r <= cr_total_records r ∧
    cr_clustered_records r = cr_total_records r - cr_noise_records r ∧
    0 <= cr_num_clusters r <= cr_clustered_records r.
Proof.
  do 2 eexists. assert (Hrun : generate_taxonomy
    (demo_env umap_identity (hdb_two_clusters 2) embed_ok) "acme" None (demo_world "acme" 3 []) =
    (Ok _, _)) by (vm_compute; reflexivity).
  split; [exact Hrun |]. split; [reflexivity |].
  apply (generate_taxonomy_counts (demo_env umap_identity (hdb_two_clusters 2) embed_ok)
           "acme" None (demo_world "acme" 3 []) _ _ Hrun).
  reflexivity.
Defined.

Lemma fit_predict_cluster_shape_witness :
  ∃ r, fit_predict (demo_env umap_identity (λ _ _, [0; -1; 0]) embed_ok)
         {| c_min_cluster_size := 2; c_min_samples := 1; c_cluster_selection_epsilon := 0 |}
         [[0%Q]; [1%Q]; [2%Q]] [10%nat; 11%nat; 12%nat] ["a"; "b"; "c"] = Ok r ∧
    StronglySorted Z.lt (map label (clusters r)) ∧
    noise_ids r = map (λ i, [10%nat; 11%nat; 12%nat] !!! i) (noise_indices r).
Proof.
  eexists. assert (Hrun : fit_predict (demo_env umap_identity (λ _ _, [0; -1; 0]) embed_ok)
         {| c_min_cluster_size := 2; c_min_samples := 1; c_cluster_selection_epsilon := 0 |}
         [[0%Q]; [1%Q]; [2%Q]] [10%nat; 11%nat; 12%nat] ["a"; "b"; "c"] = Ok _)
    by (vm_compute; reflexivity).
  split; [exact Hrun |].
  destruct (fit_predict_cluster_shape _ _ _ _ _ _ Hrun) as (Hs & Hn & _).
  split; [exact Hs | exact Hn].
Defined.

Lemma trigger_then_run_reports_result_witness :
  let s := {| jobs := []; app_world := demo_world "acme" 3 [] |} in
  let '(resp, key, s1) := trigger_clustering "acme" s in
  let s2 := run_clustering (demo_env umap_identity hdb_one_cluster embed_ok) "acme" None key s1 in
  ∃ r, get_clustering_status s2 "acme" (Some (pretty (jr_job_id resp))) =
    Ok {| jr_job_id := 1000; jr_tenant_id := "acme"; jr_status := cr_status r;
          jr_progress := 1; jr_message := Some (topics_message r); jr_result := Some r |}.
Proof.
  cbv zeta. destruct (trigger_clustering "acme" _) as [[resp key] s1] eqn:E.
  destruct (trigger_then_run_reports_result (demo_env umap_identity hdb_one_cluster embed_ok)
              "acme" None _ resp key s1 E) as (_ & _ & _ & r & _ & Hst).
  exists r. rewrite Hst. injection E as <- _ _. reflexivity.
Defined.

Lemma status_without_job_id_shows_prefixed_tenant_witness :
  let s := {| jobs := []; app_world := demo_world "acme" 3 [] |} in
  get_clustering_status (trigger_clustering "acme:eu" s).2 "acme" None =
    Ok (trigger_clustering "acme:eu" s).1.1 ∧
  jr_tenant_id (trigger_clustering "acme:eu" s).1.1 ≠ "acme".
Proof.
  intros s. apply (status_without_job_id_shows_prefixed_tenant "acme" "eu" s).
  cbn. apply not_elem_of_nil.
Defined.

Lemma reducer_transform_needs_fit_witness :
  transform (λ _ X, Ok X)
    (reducer_after (demo_env umap_always_fails hdb_one_cluster embed_ok)
       (mk_UMAPReducer None None None) [[]; [[1%Q]; [2%Q]]]) [[3%Q]] = Ok [[3%Q]].
Proof.
  destruct (proj1 (proj2 (reducer_transform_needs_fit
              (demo_env umap_always_fails hdb_one_cluster embed_ok)
              (mk_UMAPReducer None None None) (λ _ X, Ok X) [[]; [[1%Q]; [2%Q]]] [[3%Q]])))
    as [m Hm].
  - right. left. discriminate.
  - exact Hm.
Defined.
